(** * Clarity CPA: the analysis engine of [main.py], embedded and verified

    The file has these parts: the program (text primitives, the fragment
    of [re] it uses, binary64 numbers, the class [ClarityCPA] with its two
    public operations), the vocabulary of the specification, the lemmas,
    the claims C1 to C10, and further properties of the engine, X1 on.

    How the program is read:
    - a [str] is a list of characters, each character being its code
      point; the model covers the code points below 256 (Latin-1), the
      range of Rocq's [ascii].  On that range [is_space], [is_alnum],
      [to_lower] and the classes of the matcher are the tables of
      Python 3 ([str.isspace], [str.isalnum], [str.lower], [\s], [\d],
      [\w]);
    - the engine ignores case in two ways: it searches patterns with
      [re.IGNORECASE], and it looks for words in [content.lower()].  On
      Latin-1 the two see the same letters; beyond it they part
      ([re.IGNORECASE] also takes U+0131 for [i] and U+017F for [s],
      which [str.lower] leaves as they are).  The statements keep them
      apart: [reads_as] says what [re.IGNORECASE] matches against a word,
      [lower] what a test on [content.lower()] sees, and a statement goes
      from one to the other only in the direction that also holds beyond
      Latin-1, from a word found in [content.lower()] to a match of the
      pattern;
    - a pattern is kept as the text the program writes, parsed and run by
      a backtracking matcher that tries alternatives in the order of [re];
    - [float] is binary64 with round-to-nearest-even ([SpecFloat]);
    - a public operation reads the clock once and catches what its
      helpers raise; both are explicit in the monad [M]. *)

From Stdlib Require Import List Bool Arith ZArith Lia Ascii.
From Stdlib Require String.
From Stdlib Require QArith Qabs.
From Stdlib Require Import Floats.SpecFloat Numbers.DecimalString.
Import ListNotations.

(** ** Text *)

Definition text := list ascii.

Inductive text_lit := TNil | TCons (a : ascii) (t : text_lit).

Fixpoint text_lit_of_bytes (l : list Byte.byte) : text_lit :=
  match l with
  | [] => TNil
  | b :: l => TCons (ascii_of_byte b) (text_lit_of_bytes l)
  end.

Fixpoint bytes_of_text_lit (t : text_lit) : list Byte.byte :=
  match t with
  | TNil => []
  | TCons a t => byte_of_ascii a :: bytes_of_text_lit t
  end.

Declare Scope text_scope.
Delimit Scope text_scope with text.
#[warnings="-via-type-remapping,-via-type-mismatch"]
String Notation text text_lit_of_bytes bytes_of_text_lit
  (via text_lit mapping [[nil] => TNil, [cons] => TCons]) : text_scope.
Open Scope text_scope.
Open Scope bool_scope.

Definition code (c : ascii) : nat := nat_of_ascii c.

Definition between (lo hi n : nat) : bool := (lo <=? n) && (n <=? hi).

(** [str.isspace] on Latin-1; also the class [\s]. *)
Definition is_space (c : ascii) : bool :=
  let n := code c in
  between 9 13 n || between 28 32 n || (n =? 133) || (n =? 160).

(** The class [\d]: the decimal digits. *)
Definition is_digit (c : ascii) : bool := between 48 57 (code c).

(** [str.isalnum] on Latin-1. *)
Definition is_alnum (c : ascii) : bool :=
  let n := code c in
  between 48 57 n || between 65 90 n || between 97 122 n
  || (n =? 170) || (n =? 178) || (n =? 179) || (n =? 181) || (n =? 185)
  || (n =? 186) || between 188 190 n || between 192 214 n
  || between 216 246 n || between 248 255 n.

(** The class [\w]. *)
Definition is_word (c : ascii) : bool := is_alnum c || (code c =? 95).

(** [str.lower] on one character. *)
Definition to_lower (c : ascii) : ascii :=
  let n := code c in
  if between 65 90 n || (between 192 222 n && negb (n =? 215))
  then ascii_of_nat (n + 32) else c.

Definition lower (s : text) : text := map to_lower s.

Definition ascii_eqb (a b : ascii) : bool := Ascii.eqb a b.

Fixpoint text_eqb (a b : text) : bool :=
  match a, b with
  | [], [] => true
  | x :: a', y :: b' => ascii_eqb x y && text_eqb a' b'
  | _, _ => false
  end.

(** [s.startswith(p)] *)
Fixpoint starts_with (p s : text) : bool :=
  match p, s with
  | [], _ => true
  | x :: p', y :: s' => ascii_eqb x y && starts_with p' s'
  | _ :: _, [] => false
  end.

(** [sub in s] *)
Fixpoint contains (sub s : text) : bool :=
  starts_with sub s ||
  match s with
  | [] => false
  | _ :: s' => contains sub s'
  end.

(** [s.split(sep)] for a one-character separator. *)
Fixpoint split_on (sep : ascii) (s : text) : list text :=
  match s with
  | [] => [[]]
  | c :: s' =>
      if ascii_eqb c sep then [] :: split_on sep s'
      else match split_on sep s' with
           | h :: t => (c :: h) :: t
           | [] => [[c]]
           end
  end.

(** [s.split()]: the maximal runs of non-blank characters. *)
Fixpoint split_ws_aux (s cur : text) : list text :=
  match s with
  | [] => match cur with [] => [] | _ => [rev cur] end
  | c :: s' =>
      if is_space c
      then match cur with
           | [] => split_ws_aux s' []
           | _ => rev cur :: split_ws_aux s' []
           end
      else split_ws_aux s' (c :: cur)
  end.

Definition split_ws (s : text) : list text := split_ws_aux s [].

Fixpoint lstrip (s : text) : text :=
  match s with
  | c :: s' => if is_space c then lstrip s' else s
  | [] => []
  end.

(** [s.strip()] *)
Definition strip (s : text) : text := rev (lstrip (rev (lstrip s))).

(** [s.replace(old, new)] for a non-empty [old]: the occurrences are
    replaced from left to right and do not overlap; [skip] counts the
    characters of an occurrence still to be dropped. *)
Fixpoint replace_aux (old new s : text) (skip : nat) : text :=
  match s with
  | [] => []
  | c :: s' =>
      match skip with
      | S k => replace_aux old new s' k
      | O => if starts_with old s
             then new ++ replace_aux old new s' (length old - 1)
             else c :: replace_aux old new s' 0
      end
  end.

Definition replace (old new s : text) : text := replace_aux old new s 0.

(** [enumerate(l, start)] *)
Fixpoint enumerate {A} (start : nat) (l : list A) : list (nat * A) :=
  match l with
  | [] => []
  | x :: l' => (start, x) :: enumerate (S start) l'
  end.

(** ** Regular expressions: the fragment of [re] the engine uses *)

Inductive citem :=
| CLit (c : ascii)     (* a literal character *)
| CDigit               (* \d *)
| CSpace               (* \s *)
| CWord                (* \w *)
| CAny.                (* . : anything but a newline *)

Inductive regex :=
| Eps
| Chr (items : list citem)   (* one character of the set *)
| Seq (r1 r2 : regex)
| Alt (r1 r2 : regex)        (* r1 is tried first *)
| Star (r : regex)           (* greedy *)
| Group (i : nat) (r : regex)
| WordB.                     (* \b *)

Definition Plus (r : regex) : regex := Seq r (Star r).
Definition Opt (r : regex) : regex := Alt r Eps.

Fixpoint Times (n : nat) (r : regex) : regex :=
  match n with
  | O => Eps
  | S n' => Seq r (Times n' r)
  end.

(** *** Parsing a pattern *)

Definition bslash : ascii := ascii_of_nat 92.
Definition newline : ascii := ascii_of_nat 10.

Definition is_punct_escape (c : ascii) : bool :=
  existsb (ascii_eqb c) "$.+*?'()[]{}|^-,%=".

Definition escape_item (c : ascii) : option citem :=
  if ascii_eqb c "d" then Some CDigit
  else if ascii_eqb c "s" then Some CSpace
  else if ascii_eqb c "w" then Some CWord
  else if is_punct_escape c then Some (CLit c)
  else None.

(** The inside of [[...]], after the opening bracket. *)
Fixpoint parse_class (s : text) (acc : list citem) : option (list citem * text) :=
  match s with
  | [] => None
  | c :: s' =>
      if ascii_eqb c "]" then
        match acc with [] => None | _ => Some (rev acc, s') end
      else if ascii_eqb c bslash then
        match s' with
        | e :: s'' =>
            match escape_item e with
            | Some it => parse_class s'' (it :: acc)
            | None => None
            end
        | [] => None
        end
      else if ascii_eqb c "^" || ascii_eqb c "-" || ascii_eqb c "[" then None
      else parse_class s' (CLit c :: acc)
  end.

Fixpoint parse_nat (s : text) (acc : nat) : nat * text :=
  match s with
  | c :: s' => if is_digit c then parse_nat s' (10 * acc + (code c - 48)) else (acc, s)
  | [] => (acc, s)
  end.

(** The quantifier, if any, that follows an atom. *)
Definition parse_quant (a : regex) (s : text) : regex * text :=
  match s with
  | c :: s' =>
      if ascii_eqb c "*" then (Star a, s')
      else if ascii_eqb c "+" then (Plus a, s')
      else if ascii_eqb c "?" then (Opt a, s')
      else if ascii_eqb c "{" then
        match parse_nat s' 0 with
        | (n, c' :: s'') => if ascii_eqb c' "}" then (Times n a, s'') else (a, s)
        | _ => (a, s)
        end
      else (a, s)
  | [] => (a, s)
  end.

(** Recursive descent; [n] is the number of the next capturing group. *)
Fixpoint parse_alt (fuel : nat) (s : text) (n : nat) : option (regex * text * nat) :=
  match fuel with
  | O => None
  | S f =>
      match parse_seq f s n with
      | Some (r1, c :: s', n') =>
          if ascii_eqb c "|" then
            match parse_alt f s' n' with
            | Some (r2, s'', n'') => Some (Alt r1 r2, s'', n'')
            | None => None
            end
          else Some (r1, c :: s', n')
      | res => res
      end
  end
with parse_seq (fuel : nat) (s : text) (n : nat) : option (regex * text * nat) :=
  match fuel with
  | O => None
  | S f =>
      match s with
      | [] => Some (Eps, s, n)
      | c :: _ =>
          if ascii_eqb c "|" || ascii_eqb c ")" then Some (Eps, s, n)
          else
            match parse_atom f s n with
            | Some (a, s', n') =>
                let (a', s'') := parse_quant a s' in
                match parse_seq f s'' n' with
                | Some (Eps, s3, n3) => Some (a', s3, n3)
                | Some (r, s3, n3) => Some (Seq a' r, s3, n3)
                | None => None
                end
            | None => None
            end
      end
  end
with parse_atom (fuel : nat) (s : text) (n : nat) : option (regex * text * nat) :=
  match fuel with
  | O => None
  | S f =>
      match s with
      | [] => None
      | c :: s' =>
          if ascii_eqb c "(" then
            match s' with
            | q :: k :: s'' =>
                if ascii_eqb q "?" then
                  if ascii_eqb k ":" then
                    match parse_alt f s'' n with
                    | Some (r, d :: s3, n') =>
                        if ascii_eqb d ")" then Some (r, s3, n') else None
                    | _ => None
                    end
                  else None
                else
                  match parse_alt f s' (S n) with
                  | Some (r, d :: s3, n') =>
                      if ascii_eqb d ")" then Some (Group n r, s3, n') else None
                  | _ => None
                  end
            | _ => None
            end
          else if ascii_eqb c "[" then
            match parse_class s' [] with
            | Some (items, s'') => Some (Chr items, s'', n)
            | None => None
            end
          else if ascii_eqb c bslash then
            match s' with
            | e :: s'' =>
                if ascii_eqb e "b" then Some (WordB, s'', n)
                else match escape_item e with
                     | Some it => Some (Chr [it], s'', n)
                     | None => None
                     end
            | [] => None
            end
          else if ascii_eqb c "." then Some (Chr [CAny], s', n)
          else if existsb (ascii_eqb c) "*+?{}^$])" then None
          else Some (Chr [CLit c], s', n)
      end
  end.

(** [re.compile]: [None] stands for a pattern outside the fragment. *)
Definition parse (pattern : text) : option regex :=
  match parse_alt (3 * length pattern + 3) pattern 1 with
  | Some (r, [], _) => Some r
  | _ => None
  end.

(** *** Matching *)

(** Flag [re.IGNORECASE]: a literal compares through [to_lower]; the
    classes look at the character itself. *)
Definition item_matches (ic : bool) (it : citem) (c : ascii) : bool :=
  match it with
  | CLit l => if ic then ascii_eqb (to_lower c) (to_lower l) else ascii_eqb c l
  | CDigit => is_digit c
  | CSpace => is_space c
  | CWord => is_word c
  | CAny => negb (ascii_eqb c newline)
  end.

Definition in_cset (ic : bool) (items : list citem) (c : ascii) : bool :=
  existsb (fun it => item_matches ic it c) items.

Definition caps := list (nat * text).

Fixpoint group (i : nat) (g : caps) : text :=
  match g with
  | [] => []
  | (j, t) :: g' => if i =? j then t else group i g'
  end.

(** A position in the subject: the characters already passed (nearest
    first), the characters still ahead, and the groups captured so far. *)
Definition mstate := (text * text * caps)%type.

Definition before (st : mstate) : text := fst (fst st).
Definition ahead (st : mstate) : text := snd (fst st).
Definition captured (st : mstate) : caps := snd st.

Definition head_is_word (s : text) : bool :=
  match s with
  | c :: _ => is_word c
  | [] => false
  end.

(** [\b]: exactly one side of the position is a word character. *)
Definition at_boundary (st : mstate) : bool :=
  xorb (head_is_word (before st)) (head_is_word (ahead st)).

(** The iterations of a starred [body], most first: an iteration has to
    consume a character, and [n] bounds the characters that are left. *)
Fixpoint star_loop {A} (body : mstate -> (mstate -> option A) -> option A)
    (k : mstate -> option A) (n : nat) (st : mstate) : option A :=
  match n with
  | O => k st
  | S n' =>
      match body st (fun st' =>
              if length (ahead st') <? length (ahead st)
              then star_loop body k n' st' else None) with
      | Some x => Some x
      | None => k st
      end
  end.

(** The backtracking matcher, in continuation-passing style: [run r st k]
    tries the ways [r] can match at [st] in the order of [re], and hands
    each end position to [k] until [k] accepts one. *)
Fixpoint run {A} (ic : bool) (r : regex) (st : mstate)
    (k : mstate -> option A) : option A :=
  match r with
  | Eps => k st
  | Chr items =>
      match ahead st with
      | c :: s' =>
          if in_cset ic items c then k (c :: before st, s', captured st) else None
      | [] => None
      end
  | Seq r1 r2 => run ic r1 st (fun st' => run ic r2 st' k)
  | Alt r1 r2 =>
      match run ic r1 st k with
      | Some x => Some x
      | None => run ic r2 st k
      end
  | Star r1 => star_loop (run ic r1) k (length (ahead st)) st
  | Group i r1 =>
      run ic r1 st (fun st' =>
        let t := firstn (length (ahead st) - length (ahead st')) (ahead st) in
        k (before st', ahead st', (i, t) :: captured st'))
  | WordB => if at_boundary st then k st else None
  end.

(** The first match that starts at the given position or later. *)
Fixpoint search_from (ic : bool) (r : regex) (b s : text) : option mstate :=
  match run ic r (b, s, []) Some with
  | Some st => Some st
  | None =>
      match s with
      | [] => None
      | c :: s' => search_from ic r (c :: b) s'
      end
  end.

Definition is_some {A} (o : option A) : bool :=
  match o with Some _ => true | None => false end.

(** [bool(re.search(pattern, s, flags))]; a pattern outside the fragment
    would make [re] raise, and no pattern of the program is (see
    [patterns_parse] below). *)
Definition re_search (pattern : text) (ic : bool) (s : text) : bool :=
  match parse pattern with
  | Some r => is_some (search_from ic r [] s)
  | None => false
  end.

(** The successive non-overlapping matches, left to right.  After an
    empty match the scan moves one character on. *)
Fixpoint findall_from (fuel : nat) (ic : bool) (r : regex) (b s : text) : list caps :=
  match fuel with
  | O => []
  | S f =>
      match run ic r (b, s, []) Some with
      | Some st' =>
          captured st' ::
          (if length (ahead st') <? length s
           then findall_from f ic r (before st') (ahead st')
           else match s with
                | [] => []
                | c :: s' => findall_from f ic r (c :: b) s'
                end)
      | None =>
          match s with
          | [] => []
          | c :: s' => findall_from f ic r (c :: b) s'
          end
      end
  end.

(** [re.findall(pattern, s)] for a pattern with three groups. *)
Definition re_findall3 (pattern : text) (s : text) : list (text * text * text) :=
  match parse pattern with
  | Some r =>
      map (fun g => (group 1 g, group 2 g, group 3 g))
          (findall_from (S (length s)) false r [] s)
  | None => []
  end.

(** ** Floating point: binary64, as Python's [float] *)

Definition prec : Z := 53.
Definition emax : Z := 1024.

Definition float := spec_float.

Definition fmul : float -> float -> float := SFmul prec emax.
Definition fsub : float -> float -> float := SFsub prec emax.
Definition fdiv : float -> float -> float := SFdiv prec emax.
Definition fabs : float -> float := SFabs.
Definition fltb : float -> float -> bool := SFltb.
Definition fleb : float -> float -> bool := SFleb.

(** [float(z)] for an integer. *)
Definition float_of_Z (z : Z) : float := binary_normalize prec emax z 0 false.

(** The binary64 nearest to [n / d] (ties to even), for [0 <= n], [0 < d]. *)
Definition float_of_ratio (n d : Z) : float :=
  match n with
  | Zpos _ =>
      let '(q, e, l) := SFdiv_core_binary prec emax n 0 d 0 in
      binary_round_aux prec emax false q e l
  | _ => S754_zero false
  end.

Definition digit_value (c : ascii) : Z := Z.of_nat (code c - 48).

Definition digits_value (s : text) : Z :=
  fold_left (fun acc c => 10 * acc + digit_value c)%Z s 0%Z.

Definition is_empty {A} (l : list A) : bool :=
  match l with [] => true | _ => false end.

(** [float(s)] on the literals the engine hands it: digits with at most
    one point.  [None] stands for [ValueError].  The signs, exponents,
    blanks, underscores and the spellings of infinity that [float] also
    reads contain characters that no captured group can hold. *)
Definition py_float (s : text) : option float :=
  match split_on "." s with
  | [ip] =>
      if forallb is_digit ip && negb (is_empty ip)
      then Some (float_of_ratio (digits_value ip) 1) else None
  | [ip; fp] =>
      if forallb is_digit ip && forallb is_digit fp && negb (is_empty (ip ++ fp))
      then Some (float_of_ratio (digits_value (ip ++ fp)) (10 ^ Z.of_nat (length fp)))
      else None
  | _ => None
  end.

Definition digits_of_Z (z : Z) : text :=
  String.list_ascii_of_string (NilZero.string_of_uint (N.to_uint (Z.to_N z))).

(** Commas between groups of three digits; the digits come last first. *)
Fixpoint group3_rev (d : text) : text :=
  match d with
  | a :: b :: c :: ((_ :: _) as rest) => a :: b :: c :: "," ++ group3_rev rest
  | _ => d
  end.

Definition with_commas (digits : text) : text := rev (group3_rev (rev digits)).

(** The integer nearest to [m * 2^e * 100], ties to even. *)
Definition hundredths (m : positive) (e : Z) : Z :=
  match e with
  | Zneg p =>
      let num := (Zpos m * 100)%Z in
      let den := (2 ^ Zpos p)%Z in
      let q := (num / den)%Z in
      let r := (num mod den)%Z in
      match (2 * r ?= den)%Z with
      | Lt => q
      | Gt => (q + 1)%Z
      | Eq => if Z.even q then q else (q + 1)%Z
      end
  | _ => (Zpos m * 2 ^ e * 100)%Z
  end.

Definition two_digits (z : Z) : text :=
  digits_of_Z (z / 10) ++ digits_of_Z (z mod 10).

(** [f"{x:,.2f}"] *)
Definition format_comma_2f (x : float) : text :=
  match x with
  | S754_nan => "nan"
  | S754_infinity s => (if s then "-inf" else "inf")
  | S754_zero s => (if s then "-0.00" else "0.00")
  | S754_finite s m e =>
      let h := hundredths m e in
      (if s then "-" else "")
      ++ with_commas (digits_of_Z (h / 100)) ++ "." ++ two_digits (h mod 100)
  end.

(** ** The clock *)

Record datetime := {
  year : nat; month : nat; day : nat;
  hour : nat; minute : nat; second : nat; microsecond : nat
}.

Definition pad (width : nat) (n : nat) : text :=
  let d := digits_of_Z (Z.of_nat n) in
  repeat "0"%char (width - length d) ++ d.

(** [datetime.isoformat()] *)
Definition isoformat (t : datetime) : text :=
  pad 4 (year t) ++ "-" ++ pad 2 (month t) ++ "-" ++ pad 2 (day t) ++ "T"
  ++ pad 2 (hour t) ++ ":" ++ pad 2 (minute t) ++ ":" ++ pad 2 (second t)
  ++ (if microsecond t =? 0 then "" else "." ++ pad 6 (microsecond t)).

(** ** Exceptions *)

(** A raised exception: whether its class derives from [Exception], and
    its [str]. *)
Record exn := { is_Exception : bool; exn_str : text }.

Inductive outcome (A : Type) :=
| Return (a : A)
| Raise (e : exn).

Arguments Return {A} a.
Arguments Raise {A} e.

(** A computation reads the clock and returns or raises. *)
Definition M (A : Type) : Type := datetime -> outcome A.

Definition ret {A} (a : A) : M A := fun _ => Return a.

Definition bind {A B} (c : M A) (f : A -> M B) : M B :=
  fun clock =>
    match c clock with
    | Return a => f a clock
    | Raise e => Raise e
    end.

Definition call {A} (o : outcome A) : M A := fun _ => o.

(** [datetime.now()] *)
Definition datetime_now : M datetime := fun clock => Return clock.

(** [try: body  except Exception as e: handler(e)] *)
Definition try_except {A} (body : M A) (handler : exn -> M A) : M A :=
  fun clock =>
    match body clock with
    | Return a => Return a
    | Raise e => if is_Exception e then handler e clock else Raise e
    end.

Declare Scope monad_scope.
Delimit Scope monad_scope with monad.
Notation "x <- c ;; k" := (bind c (fun x => k))
  (at level 61, c at next level, right associativity) : monad_scope.
Open Scope monad_scope.

(** ** The data model *)

Inductive DefectRecord :=
| PatternDefect (line : nat) (pattern_text suggestion original : text)
| CalculationDefect (line : nat) (expression expected error : text).

Definition defect_line (d : DefectRecord) : nat :=
  match d with
  | PatternDefect n _ _ _ => n
  | CalculationDefect n _ _ _ => n
  end.

Record DefectInventory := {
  spelling_errors : list DefectRecord;
  grammar_errors : list DefectRecord;
  consistency_errors : list DefectRecord;
  calculation_errors : list DefectRecord;
  logic_errors : list DefectRecord
}.

(** [errors.items()], in insertion order. *)
Definition items (e : DefectInventory) : list (text * list DefectRecord) :=
  [ ("spelling_errors", spelling_errors e);
    ("grammar_errors", grammar_errors e);
    ("consistency_errors", consistency_errors e);
    ("calculation_errors", calculation_errors e);
    ("logic_errors", logic_errors e) ].

Record QualityDimensions := {
  grammar : Z;
  clarity : Z;
  professionalism : Z;
  completeness : float
}.

Record QualityReview := {
  overall_score : Z;
  document_type : text;
  reviewer : text;
  errors_found : DefectInventory;
  improvement_recommendations : list text;
  quality_dimensions : QualityDimensions;
  timestamp : text
}.

Record StrengthAssessment := {
  value_proposition : Z;
  credibility : Z;
  urgency : Z;
  roi_clarity : Z
}.

Record CompetitivePosition := {
  differentiation_strength : text;
  competitive_advantages : list text;
  market_positioning : text
}.

Record PsychologyInsights := {
  persuasion_score : Z;
  primary_motivators : list text;
  psychological_triggers : list text
}.

Record StrategicAnalysis := {
  proposal_readiness_score : float;
  proposal_strength_assessment : StrengthAssessment;
  competitive_positioning : CompetitivePosition;
  client_psychology_insights : PsychologyInsights;
  strategic_recommendations : list text;
  optimization_opportunities : list text
}.

(** The dictionary a public operation returns: ["success": True] with
    the findings, or ["success": False] with ["error"] alone. *)
Inductive AnalysisResult (A : Type) :=
| Success (findings : A)
| Failure (error : text).

Arguments Success {A} findings.
Arguments Failure {A} error.

(** The optional [context] of [strategic_analysis]: a dictionary keyed by
    strings, which the engine never looks into. *)
Definition Context := list (text * text).

(** ** The engine: class [ClarityCPA]

    A score that the program reaches by integer steps ([100.0 - 5 * n],
    sums of weights, the clamps) is held as its value in [Z]; binary64
    represents these values exactly for every document shorter than
    [2^50] characters.  The two scores that come out of a true division
    are held as binary64 numbers. *)

Definition times_sign : ascii := ascii_of_nat 215.

Definition spelling_patterns : list (text * text) :=
  [ ("\bacheive\b", "achieve");
    ("\bbeleive\b", "believe");
    ("\baproach\b", "approach");
    ("\bexperiance\b", "experience");
    ("\baccurate\b", "accurate");
    ("\brecieve\b", "receive");
    ("\bpropsal\b", "proposal") ].

Definition grammar_patterns : list (text * text) :=
  [ ("\byour\s+going\b", "you're going");
    ("\bthey\'re\s+office\b", "their office");
    ("\byou\'re\s+organization\b", "your organization");
    ("\bover\s+\d+\+\s+years\b", "redundant 'over' and '+'");
    ("\bapproximatley\b", "approximately");
    ("\bdependng\b", "depending") ].

Definition calc_pattern : text :=
  "\$?(\d+(?:,\d{3})*(?:\.\d+)?)\s*[x" ++ [times_sign]
  ++ "*]\s*(\d+(?:\.\d+)?)\s*=\s*\$?(\d+(?:,\d{3})*(?:\.\d+)?)".

Definition empty_inventory : DefectInventory :=
  {| spelling_errors := []; grammar_errors := []; consistency_errors := [];
     calculation_errors := []; logic_errors := [] |}.

(** [errors["spelling_errors"].append(d)] and its two siblings. *)
Definition append_spelling (e : DefectInventory) (d : DefectRecord) : DefectInventory :=
  {| spelling_errors := spelling_errors e ++ [d];
     grammar_errors := grammar_errors e;
     consistency_errors := consistency_errors e;
     calculation_errors := calculation_errors e;
     logic_errors := logic_errors e |}.

Definition append_grammar (e : DefectInventory) (d : DefectRecord) : DefectInventory :=
  {| spelling_errors := spelling_errors e;
     grammar_errors := grammar_errors e ++ [d];
     consistency_errors := consistency_errors e;
     calculation_errors := calculation_errors e;
     logic_errors := logic_errors e |}.

Definition append_calculation (e : DefectInventory) (d : DefectRecord) : DefectInventory :=
  {| spelling_errors := spelling_errors e;
     grammar_errors := grammar_errors e;
     consistency_errors := consistency_errors e;
     calculation_errors := calculation_errors e ++ [d];
     logic_errors := logic_errors e |}.

Definition spelling_text (pattern : text) : text :=
  replace "$" "" (replace "^" "" (replace "\b" "" pattern)).

Definition grammar_text (pattern : text) : text :=
  replace "\s+" " " (replace "\b" "" pattern).

Definition check_spelling (line_num : nat) (line : text)
    (errors : DefectInventory) (rule : text * text) : DefectInventory :=
  let (pattern, correction) := rule in
  if re_search pattern true line
  then append_spelling errors
         (PatternDefect line_num (spelling_text pattern) correction (strip line))
  else errors.

Definition check_grammar (line_num : nat) (line : text)
    (errors : DefectInventory) (rule : text * text) : DefectInventory :=
  let (pattern, correction) := rule in
  if re_search pattern true line
  then append_grammar errors
         (PatternDefect line_num (grammar_text pattern) correction (strip line))
  else errors.

(** The literal [0.01]. *)
Definition tolerance : float := float_of_ratio 1 100.

(** The body of the loop over [calc_matches], with its
    [try ... except ValueError: pass]. *)
Definition check_calculation (line_num : nat)
    (errors : DefectInventory) (m : text * text * text) : DefectInventory :=
  let '(m0, m1, m2) := m in
  match py_float (replace "," "" m0),
        py_float (replace "," "" m1),
        py_float (replace "," "" m2) with
  | Some num1, Some num2, Some result =>
      let expected := fmul num1 num2 in
      if fltb tolerance (fabs (fsub expected result))
      then append_calculation errors
             (CalculationDefect line_num
                (m0 ++ " " ++ [times_sign] ++ " " ++ m1 ++ " = " ++ m2)
                (format_comma_2f expected)
                ("Should be " ++ format_comma_2f expected ++ ", not " ++ m2))
      else errors
  | _, _, _ => errors
  end.

(** The body of the loop over the lines. *)
Definition check_line (errors : DefectInventory) (ln : nat * text) : DefectInventory :=
  let (line_num, line) := ln in
  let errors := fold_left (check_spelling line_num line) spelling_patterns errors in
  let errors := fold_left (check_grammar line_num line) grammar_patterns errors in
  fold_left (check_calculation line_num) (re_findall3 calc_pattern line) errors.

Definition _detect_errors (content : text) : DefectInventory :=
  let lines := split_on newline content in
  fold_left check_line (enumerate 1 lines) empty_inventory.

Definition clamp (lo hi x : Z) : Z := Z.max lo (Z.min hi x).

(** [any(word in s for word in words)] *)
Definition any_in (words : list text) (s : text) : bool :=
  existsb (fun word => contains word s) words.

(** [sum(1 for word in words if word in s)] *)
Definition count_in (words : list text) (s : text) : nat :=
  length (filter (fun word => contains word s) words).

(** [base_score] before the final clamp. *)
Definition quality_points (content : text) (errors : DefectInventory) : Z :=
  let base_score :=
    fold_left (fun base_score (entry : text * list DefectRecord) =>
                 let (_, error_list) := entry in
                 if is_empty error_list then base_score
                 else base_score - Z.of_nat (length error_list) * 5)%Z
              (items errors) 100%Z in
  let base_score :=
    if 500 <? length content then (base_score + 5)%Z else base_score in
  if contains "$" content && any_in ["roi"; "investment"; "return"] (lower content)
  then (base_score + 10)%Z else base_score.

Definition _calculate_quality_score (content : text) (errors : DefectInventory) : Z :=
  clamp 0 100 (quality_points content errors).

Definition total_errors (errors : DefectInventory) : nat :=
  fold_right (fun (entry : text * list DefectRecord) acc => length (snd entry) + acc)
             0 (items errors).

Definition when (b : bool) (s : text) : list text := if b then [s] else [].

Definition _generate_recommendations (content : text) (errors : DefectInventory) : list text :=
  when (5 <? total_errors errors)
       "Consider thorough proofreading before final submission"
  ++ when (negb (is_empty (calculation_errors errors)))
       "Verify all mathematical calculations and financial projections"
  ++ when (negb (is_empty (spelling_errors errors)))
       "Use spell-check tools to catch common spelling mistakes"
  ++ when (negb (is_empty (grammar_errors errors)))
       "Review grammar, especially possessive forms and contractions"
  ++ when (length content <? 200)
       "Consider expanding with more detailed information"
  ++ when (negb (any_in ["timeline"; "deadline"; "schedule"] (lower content)))
       "Include specific timelines and deadlines".

Definition _classify_document (content : text) : text :=
  let content_lower := lower content in
  if any_in ["proposal"; "executive summary"; "investment"] content_lower
  then "business_proposal"
  else if any_in ["report"; "analysis"; "findings"] content_lower
  then "business_report"
  else if any_in ["email"; "message"; "correspondence"] content_lower
  then "business_communication"
  else "general_business_document".

Definition _score_grammar (content : text) : Z :=
  let errors := _detect_errors content in
  Z.max 0 (100 - Z.of_nat (length (grammar_errors errors)) * 10).

(** The mean is compared through its numerator and denominator. *)
Definition _score_clarity (content : text) : Z :=
  let sentences := split_on "." content in
  let words := list_sum (map (fun s => length (split_ws s)) sentences) in
  let n := length sentences in
  if is_empty sentences then 70%Z
  else if (15 * n <=? words) && (words <=? 20 * n) then 95%Z
  else if (10 * n <=? words) && (words <=? 25 * n) then 85%Z
  else 70%Z.

Definition _score_professionalism (content : text) : Z :=
  let professional_words :=
    ["executive"; "strategic"; "comprehensive"; "optimize"; "implement"] in
  let found_professional := count_in professional_words (lower content) in
  let informal_words := ["gonna"; "wanna"; "yeah"; "ok"; "awesome"] in
  let found_informal := count_in informal_words (lower content) in
  clamp 0 100 (85 + Z.min 15 (Z.of_nat found_professional * 3)
               - Z.of_nat found_informal * 10).

(** [k / n * 100] on integers [k] and [n]: a true division, then a
    product with [float(100)]. *)
Definition percentage (k n : nat) : float :=
  fmul (fdiv (float_of_Z (Z.of_nat k)) (float_of_Z (Z.of_nat n))) (float_of_Z 100).

Definition _score_completeness (content : text) : float :=
  let sections := ["problem"; "solution"; "timeline"; "investment"; "roi"; "conclusion"] in
  percentage (count_in sections (lower content)) (length sections).

Definition strength_factors : list text :=
  [ "problem|challenge|issue|pain";
    "solution|approach|strategy|method";
    "\d+\s*(days?|weeks?|months?)|timeline|schedule";
    "\$[\d,]+|investment|cost|price";
    "roi|return|benefit|value";
    "team|experience|expert|professional";
    "urgent|critical|immediate|asap" ].

Definition _analyze_proposal_strength (content : text) : float :=
  let factors := map (fun pattern => re_search pattern true content) strength_factors in
  percentage (length (filter (fun b : bool => b) factors)) (length factors).

Definition _analyze_competitive_position (content : text) (context : Context)
    : CompetitivePosition :=
  {| differentiation_strength :=
       (if contains "unique" (lower content) || contains "exclusive" (lower content)
        then "strong" else "moderate");
     competitive_advantages :=
       [ "Comprehensive 7-agent approach";
         "Proven track record";
         "Rapid implementation timeline" ];
     market_positioning := "premium specialist" |}.

Definition urgency_words : list text :=
  ["critical"; "urgent"; "immediate"; "crisis"; "emergency"].
Definition fear_words : list text :=
  ["risk"; "loss"; "failure"; "decline"; "threat"].
Definition gain_words : list text :=
  ["growth"; "increase"; "improve"; "benefit"; "advantage"].

(** [sum(w for word in words if word in s)] *)
Definition weighted_hits (w : Z) (words : list text) (s : text) : Z :=
  (w * Z.of_nat (count_in words s))%Z.

Definition _analyze_client_psychology (content : text) (context : Context)
    : PsychologyInsights :=
  let urgency_score := weighted_hits 10 urgency_words (lower content) in
  let fear_score := weighted_hits 10 fear_words (lower content) in
  let gain_score := weighted_hits 10 gain_words (lower content) in
  let persuasion_score := Z.min 100 (urgency_score + fear_score + gain_score) in
  {| persuasion_score := persuasion_score;
     primary_motivators :=
       when (20 <? urgency_score)%Z "urgency"
       ++ when (20 <? fear_score)%Z "loss_aversion"
       ++ when (20 <? gain_score)%Z "growth_opportunity";
     psychological_triggers :=
       (if (50 <? persuasion_score)%Z
        then ["authority"; "scarcity"; "social_proof"]
        else ["clarity"; "trust"]) |}.

Definition _generate_strategic_recommendations (content : text) (context : Context)
    : list text :=
  when (negb (contains "roi" (lower content)))
       "Add specific ROI calculations and financial projections"
  ++ when (negb (re_search "\d+%" false content))
       "Include percentage-based metrics for credibility"
  ++ when (negb (contains "testimonial" (lower content))
           && negb (contains "reference" (lower content)))
       "Add client testimonials or case study references"
  ++ when (length (split_ws content) <? 300)
       "Expand content with more detailed implementation plan"
  ++ ["Include risk mitigation strategies";
      "Add competitive differentiation section"].

Definition _identify_optimization_opportunities (content : text) : list text :=
  when (contains "$" content && contains "roi" (lower content))
       "Highlight exceptional ROI as primary value proposition"
  ++ when (re_search "\d+\s*(day|week)" false content)
       "Emphasize rapid implementation timeline"
  ++ when (contains "agent" (lower content))
       "Showcase innovative multi-agent approach"
  ++ ["Create urgency with limited-time offer";
      "Add social proof with industry statistics"].

Definition _score_value_proposition (content : text) : Z :=
  let value_indicators :=
    ["save"; "reduce"; "increase"; "improve"; "optimize"; "roi"; "benefit"] in
  let score := weighted_hits 15 value_indicators (lower content) in
  Z.min 100 (Z.max 20 score).

Definition _score_credibility (content : text) : Z :=
  let credibility_factors :=
    ["experience"; "proven"; "track record"; "certified"; "years"; "expert"] in
  let score := weighted_hits 15 credibility_factors (lower content) in
  Z.min 100 (Z.max 30 score).

Definition _score_urgency (content : text) : Z :=
  let urgency_words :=
    ["urgent"; "critical"; "immediate"; "deadline"; "asap"; "emergency"] in
  let score := weighted_hits 20 urgency_words (lower content) in
  Z.min 100 score.

Definition _score_roi_clarity (content : text) : Z :=
  if re_search "\$[\d,]+.*\$[\d,]+" false content then
    if re_search "\d+%.*roi|roi.*\d+%" true content then 95%Z else 75%Z
  else if contains "roi" (lower content) then 60%Z
  else 30%Z.

(** ** The public operations

    The operations reach every helper through [self].  [Engine] is the
    table of what [self] answers: for the class as written each entry
    returns, and an entry that raises stands for a fault inside the
    engine (a subclass or a patched rule table). *)

Record Engine := {
  name : text;
  call_detect_errors : text -> outcome DefectInventory;
  call_calculate_quality_score : text -> DefectInventory -> outcome Z;
  call_generate_recommendations : text -> DefectInventory -> outcome (list text);
  call_classify_document : text -> outcome text;
  call_score_grammar : text -> outcome Z;
  call_score_clarity : text -> outcome Z;
  call_score_professionalism : text -> outcome Z;
  call_score_completeness : text -> outcome float;
  call_analyze_proposal_strength : text -> outcome float;
  call_analyze_competitive_position : text -> Context -> outcome CompetitivePosition;
  call_analyze_client_psychology : text -> Context -> outcome PsychologyInsights;
  call_generate_strategic_recommendations : text -> Context -> outcome (list text);
  call_identify_optimization_opportunities : text -> outcome (list text);
  call_score_value_proposition : text -> outcome Z;
  call_score_credibility : text -> outcome Z;
  call_score_urgency : text -> outcome Z;
  call_score_roi_clarity : text -> outcome Z
}.

(** The class as written. *)
Definition ClarityCPA : Engine := {|
  name := "Clarity CPA";
  call_detect_errors := fun c => Return (_detect_errors c);
  call_calculate_quality_score := fun c e => Return (_calculate_quality_score c e);
  call_generate_recommendations := fun c e => Return (_generate_recommendations c e);
  call_classify_document := fun c => Return (_classify_document c);
  call_score_grammar := fun c => Return (_score_grammar c);
  call_score_clarity := fun c => Return (_score_clarity c);
  call_score_professionalism := fun c => Return (_score_professionalism c);
  call_score_completeness := fun c => Return (_score_completeness c);
  call_analyze_proposal_strength := fun c => Return (_analyze_proposal_strength c);
  call_analyze_competitive_position :=
    fun c x => Return (_analyze_competitive_position c x);
  call_analyze_client_psychology :=
    fun c x => Return (_analyze_client_psychology c x);
  call_generate_strategic_recommendations :=
    fun c x => Return (_generate_strategic_recommendations c x);
  call_identify_optimization_opportunities :=
    fun c => Return (_identify_optimization_opportunities c);
  call_score_value_proposition := fun c => Return (_score_value_proposition c);
  call_score_credibility := fun c => Return (_score_credibility c);
  call_score_urgency := fun c => Return (_score_urgency c);
  call_score_roi_clarity := fun c => Return (_score_roi_clarity c)
|}.

(** [{"success": False, "error": str(e)}] *)
Definition failure {A} (e : exn) : M (AnalysisResult A) :=
  ret (Failure (exn_str e)).

(** Both operations are coroutines without an [await]: awaiting one runs
    its body to the [return]. *)
Definition quality_assurance_review (self : Engine) (content : text)
    : M (AnalysisResult QualityReview) :=
  try_except
    (errors <- call (call_detect_errors self content) ;;
     quality_score <- call (call_calculate_quality_score self content errors) ;;
     recommendations <- call (call_generate_recommendations self content errors) ;;
     doc_type <- call (call_classify_document self content) ;;
     g <- call (call_score_grammar self content) ;;
     c <- call (call_score_clarity self content) ;;
     p <- call (call_score_professionalism self content) ;;
     k <- call (call_score_completeness self content) ;;
     clock <- datetime_now ;;
     ret (Success
            {| overall_score := quality_score;
               document_type := doc_type;
               reviewer := name self;
               errors_found := errors;
               improvement_recommendations := recommendations;
               quality_dimensions :=
                 {| grammar := g; clarity := c;
                    professionalism := p; completeness := k |};
               timestamp := isoformat clock |}))
    failure.

(** [context or {}] *)
Definition context_or_empty (context : option Context) : Context :=
  match context with
  | Some c => c
  | None => []
  end.

Definition strategic_analysis (self : Engine) (content : text)
    (context : option Context) : M (AnalysisResult StrategicAnalysis) :=
  try_except
    (strength_score <- call (call_analyze_proposal_strength self content) ;;
     competitive_analysis <-
       call (call_analyze_competitive_position self content (context_or_empty context)) ;;
     psychology_insights <-
       call (call_analyze_client_psychology self content (context_or_empty context)) ;;
     recommendations <-
       call (call_generate_strategic_recommendations self content
               (context_or_empty context)) ;;
     v <- call (call_score_value_proposition self content) ;;
     c <- call (call_score_credibility self content) ;;
     u <- call (call_score_urgency self content) ;;
     r <- call (call_score_roi_clarity self content) ;;
     opportunities <- call (call_identify_optimization_opportunities self content) ;;
     ret (Success
            {| proposal_readiness_score := strength_score;
               proposal_strength_assessment :=
                 {| value_proposition := v; credibility := c;
                    urgency := u; roi_clarity := r |};
               competitive_positioning := competitive_analysis;
               client_psychology_insights := psychology_insights;
               strategic_recommendations := recommendations;
               optimization_opportunities := opportunities |}))
    failure.

(** * Specification vocabulary *)

(** [occurs sub s]: [sub] is a substring of [s]. *)
Definition occurs (sub s : text) : Prop :=
  exists pre post, s = pre ++ sub ++ post.

(** [star_steps R]: finitely many [R]-steps, each of which consumes input. *)
Inductive star_steps (R : mstate -> mstate -> Prop) : mstate -> mstate -> Prop :=
| star_stop st : star_steps R st st
| star_step st st1 st2 :
    R st st1 -> length (ahead st1) < length (ahead st) ->
    star_steps R st1 st2 -> star_steps R st st2.

(** [den ic r st st']: the expression [r] can match from the position
    [st] to the position [st']. *)
Fixpoint den (ic : bool) (r : regex) (st st' : mstate) : Prop :=
  match r with
  | Eps => st' = st
  | Chr items =>
      exists c s', ahead st = c :: s' /\ in_cset ic items c = true
                   /\ st' = (c :: before st, s', captured st)
  | Seq r1 r2 => exists mid, den ic r1 st mid /\ den ic r2 mid st'
  | Alt r1 r2 => den ic r1 st st' \/ den ic r2 st st'
  | Star r1 => star_steps (den ic r1) st st'
  | Group i r1 =>
      exists st1, den ic r1 st st1 /\
        st' = (before st1, ahead st1,
               (i, firstn (length (ahead st) - length (ahead st1)) (ahead st))
                 :: captured st1)
  | WordB => at_boundary st = true /\ st' = st
  end.

(** [matches_at ic r pre post]: [r] matches in [pre ++ post], starting
    right after [pre]. *)
Definition matches_at (ic : bool) (r : regex) (pre post : text) : Prop :=
  exists st', den ic r (rev pre, post, []) st'.


(** What one rule contributes for one line. *)
Definition pattern_hit (display : text -> text) (line_num : nat) (line : text)
    (rule : text * text) : list DefectRecord :=
  if re_search (fst rule) true line
  then [PatternDefect line_num (display (fst rule)) (snd rule) (strip line)]
  else [].

Definition spelling_hits (ln : nat * text) : list DefectRecord :=
  flat_map (pattern_hit spelling_text (fst ln) (snd ln)) spelling_patterns.

Definition grammar_hits (ln : nat * text) : list DefectRecord :=
  flat_map (pattern_hit grammar_text (fst ln) (snd ln)) grammar_patterns.

Definition calculation_hit (line_num : nat) (m : text * text * text)
    : list DefectRecord :=
  calculation_errors (check_calculation line_num empty_inventory m).

Definition calculation_hits (ln : nat * text) : list DefectRecord :=
  flat_map (calculation_hit (fst ln)) (re_findall3 calc_pattern (snd ln)).

(** The inventory [e] with more records at the end of three kinds. *)
Definition add_defects (e : DefectInventory) (sp gr ca : list DefectRecord)
    : DefectInventory :=
  {| spelling_errors := spelling_errors e ++ sp;
     grammar_errors := grammar_errors e ++ gr;
     consistency_errors := consistency_errors e;
     calculation_errors := calculation_errors e ++ ca;
     logic_errors := logic_errors e |}.

(** The lines of a document with their numbers. *)
Definition numbered_lines (content : text) : list (nat * text) :=
  enumerate 1 (split_on newline content).

(** The records of a list that belong to a line and a rule. *)
Definition is_record_of (display : text -> text) (rule : text * text)
    (d : DefectRecord) : bool :=
  match d with
  | PatternDefect _ t _ _ => text_eqb t (display (fst rule))
  | CalculationDefect _ _ _ _ => false
  end.

Definition records_of (display : text -> text) (rule : text * text)
    (l : list DefectRecord) : list DefectRecord :=
  filter (is_record_of display rule) l.

Definition records_at (line_num : nat) (l : list DefectRecord) : list DefectRecord :=
  filter (fun d => defect_line d =? line_num) l.

Definition in_range (z : Z) : Prop := (0 <= z <= 100)%Z.

Definition float_in_range (f : float) : Prop :=
  fleb (float_of_Z 0) f = true /\ fleb f (float_of_Z 100) = true.

(** A call that can only fail with an instance of [Exception]. *)
Definition fails_with_Exception {A} (o : outcome A) : Prop :=
  match o with
  | Return _ => True
  | Raise e => is_Exception e = true
  end.


(** The two tables of pattern rules. *)
Inductive rule_kind := Spelling | Grammar.

Definition rule_table (k : rule_kind) : list (text * text) :=
  match k with
  | Spelling => spelling_patterns
  | Grammar => grammar_patterns
  end.

Definition rule_display (k : rule_kind) : text -> text :=
  match k with
  | Spelling => spelling_text
  | Grammar => grammar_text
  end.

Definition kind_errors (k : rule_kind) (e : DefectInventory) : list DefectRecord :=
  match k with
  | Spelling => spelling_errors e
  | Grammar => grammar_errors e
  end.

(** Every helper of [self] either returns or raises an instance of
    [Exception]. *)
Definition faults_are_Exceptions (self : Engine) : Prop :=
  forall c e x,
    fails_with_Exception (call_detect_errors self c)
    /\ fails_with_Exception (call_calculate_quality_score self c e)
    /\ fails_with_Exception (call_generate_recommendations self c e)
    /\ fails_with_Exception (call_classify_document self c)
    /\ fails_with_Exception (call_score_grammar self c)
    /\ fails_with_Exception (call_score_clarity self c)
    /\ fails_with_Exception (call_score_professionalism self c)
    /\ fails_with_Exception (call_score_completeness self c)
    /\ fails_with_Exception (call_analyze_proposal_strength self c)
    /\ fails_with_Exception (call_analyze_competitive_position self c x)
    /\ fails_with_Exception (call_analyze_client_psychology self c x)
    /\ fails_with_Exception (call_generate_strategic_recommendations self c x)
    /\ fails_with_Exception (call_identify_optimization_opportunities self c)
    /\ fails_with_Exception (call_score_value_proposition self c)
    /\ fails_with_Exception (call_score_credibility self c)
    /\ fails_with_Exception (call_score_urgency self c)
    /\ fails_with_Exception (call_score_roi_clarity self c).





(** The class with a corrupted rule table: detection raises [re.error]. *)
Definition corrupted_rules : Engine := {|
  name := name ClarityCPA;
  call_detect_errors := fun _ =>
    Raise {| is_Exception := true;
             exn_str := "unterminated character set at position 2" |};
  call_calculate_quality_score := call_calculate_quality_score ClarityCPA;
  call_generate_recommendations := call_generate_recommendations ClarityCPA;
  call_classify_document := call_classify_document ClarityCPA;
  call_score_grammar := call_score_grammar ClarityCPA;
  call_score_clarity := call_score_clarity ClarityCPA;
  call_score_professionalism := call_score_professionalism ClarityCPA;
  call_score_completeness := call_score_completeness ClarityCPA;
  call_analyze_proposal_strength := call_analyze_proposal_strength ClarityCPA;
  call_analyze_competitive_position := call_analyze_competitive_position ClarityCPA;
  call_analyze_client_psychology := call_analyze_client_psychology ClarityCPA;
  call_generate_strategic_recommendations :=
    call_generate_strategic_recommendations ClarityCPA;
  call_identify_optimization_opportunities :=
    call_identify_optimization_opportunities ClarityCPA;
  call_score_value_proposition := call_score_value_proposition ClarityCPA;
  call_score_credibility := call_score_credibility ClarityCPA;
  call_score_urgency := call_score_urgency ClarityCPA;
  call_score_roi_clarity := call_score_roi_clarity ClarityCPA
|}.

Definition noon : datetime :=
  {| year := 2024; month := 5; day := 17;
     hour := 12; minute := 0; second := 0; microsecond := 0 |}.

Definition just_after_noon : datetime :=
  {| year := 2024; month := 5; day := 17;
     hour := 12; minute := 0; second := 0; microsecond := 250 |}.

(** The review [r] with another time stamp. *)
Definition with_timestamp (r : QualityReview) (t : text) : QualityReview :=
  {| overall_score := overall_score r;
     document_type := document_type r;
     reviewer := reviewer r;
     errors_found := errors_found r;
     improvement_recommendations := improvement_recommendations r;
     quality_dimensions := quality_dimensions r;
     timestamp := t |}.

Definition proposal_keywords : list text :=
  ["proposal"; "executive summary"; "investment"].
Definition report_keywords : list text := ["report"; "analysis"; "findings"].
Definition communication_keywords : list text :=
  ["email"; "message"; "correspondence"].

(** One of the words occurs in the text, in any case. *)
Definition mentions (words : list text) (content : text) : Prop :=
  exists word, In word words /\ occurs word (lower content).

(** What stands between [pre] and [post] is a whole word if it is one: no
    word character comes right before or right after it. *)
Definition word_boundaries (pre post : text) : Prop :=
  head_is_word (rev pre) = false /\ head_is_word post = false.

(** The expression of a run of literal characters followed by [r]. *)
Fixpoint lits (w : text) (r : regex) : regex :=
  match w with
  | [] => r
  | c :: w' => Seq (Chr [CLit c]) (lits w' r)
  end.

(** The inventory [e] with another list of spelling records. *)
Definition with_spelling (e : DefectInventory) (l : list DefectRecord)
    : DefectInventory :=
  {| spelling_errors := l;
     grammar_errors := grammar_errors e;
     consistency_errors := consistency_errors e;
     calculation_errors := calculation_errors e;
     logic_errors := logic_errors e |}.

(** The two bonuses of the overall score. *)
Definition bonus (content : text) : Z :=
  (if 500 <? length content then 5%Z else 0%Z)
  + (if contains "$" content
        && any_in ["roi"; "investment"; "return"] (lower content)
     then 10%Z else 0%Z).

(** Every character that [r] can consume satisfies [P]. *)
Fixpoint alphabet (ic : bool) (P : ascii -> Prop) (r : regex) : Prop :=
  match r with
  | Chr items => forall c, in_cset ic items c = true -> P c
  | Seq r1 r2 => alphabet ic P r1 /\ alphabet ic P r2
  | Alt r1 r2 => alphabet ic P r1 /\ alphabet ic P r2
  | Star r1 => alphabet ic P r1
  | Group _ r1 => alphabet ic P r1
  | Eps => True
  | WordB => True
  end.

Fixpoint no_groups (r : regex) : bool :=
  match r with
  | Seq r1 r2 => no_groups r1 && no_groups r2
  | Alt r1 r2 => no_groups r1 && no_groups r2
  | Star r1 => no_groups r1
  | Group _ _ => false
  | _ => true
  end.

(** A character of a dollar figure: [[\d,]]. *)
Definition figure_char (c : ascii) : bool := is_digit c || ascii_eqb c ",".

(** Two dollar figures on one line: a dollar sign followed by a digit or a
    comma, and later on the same line another one. *)
Definition two_dollar_figures (content : text) : Prop :=
  exists pre a mid b post,
    content = pre ++ "$" ++ [a] ++ mid ++ "$" ++ [b] ++ post
    /\ figure_char a = true /\ figure_char b = true /\ ~ In newline mid.

(** A character against a letter of a pattern, as [re.IGNORECASE] compares
    them. *)
Definition same_letter (l c : ascii) : bool := item_matches true (CLit l) c.

(** The stretch [m] reads as the word [w]: letter by letter, it is what
    [re.IGNORECASE] matches against [w]. *)
Fixpoint reads_as (w m : text) : bool :=
  match w, m with
  | [], [] => true
  | l :: w', c :: m' => same_letter l c && reads_as w' m'
  | _, _ => false
  end.

(** A percentage and a stretch that reads as "roi" on one line, in either
    order. *)
Definition roi_percentage (content : text) : Prop :=
  exists pre d mid w post,
    is_digit d = true /\ reads_as "roi" w = true /\ ~ In newline mid
    /\ (content = pre ++ [d] ++ "%" ++ mid ++ w ++ post
        \/ content = pre ++ w ++ mid ++ [d] ++ "%" ++ post).

(** The two patterns of [_score_roi_clarity], parsed. *)
Definition figures_re : regex :=
  Seq (Chr [CLit "$"])
    (Seq (Plus (Chr [CDigit; CLit ","]))
       (Seq (Star (Chr [CAny]))
          (Seq (Chr [CLit "$"]) (Plus (Chr [CDigit; CLit ","]))))).

Definition roi_percentage_re : regex :=
  Alt (Seq (Plus (Chr [CDigit]))
         (Seq (Chr [CLit "%"]) (Seq (Star (Chr [CAny])) (lits "ro" (Chr [CLit "i"])))))
      (lits "roi" (Seq (Star (Chr [CAny]))
                     (Seq (Plus (Chr [CDigit])) (Chr [CLit "%"])))).

(** The pattern of the calculation check, parsed. *)
Definition digit_re : regex := Chr [CDigit].
Definition blanks_re : regex := Star (Chr [CSpace]).
Definition fraction_re : regex := Opt (Seq (Chr [CLit "."]) (Plus digit_re)).

Definition number_re : regex :=
  Seq (Plus digit_re)
    (Seq (Star (Seq (Chr [CLit ","]) (Times 3 digit_re))) fraction_re).

Definition factor_re : regex := Seq (Plus digit_re) fraction_re.

Definition calc_re : regex :=
  Seq (Opt (Chr [CLit "$"]))
    (Seq (Group 1 number_re)
       (Seq blanks_re
          (Seq (Chr [CLit "x"; CLit times_sign; CLit "*"])
             (Seq blanks_re
                (Seq (Group 2 factor_re)
                   (Seq blanks_re
                      (Seq (Chr [CLit "="])
                         (Seq blanks_re
                            (Seq (Opt (Chr [CLit "$"]))
                               (Group 3 number_re)))))))))).

(** A literal the calculation pattern can capture: a digit, then digits
    and commas, then possibly a point and digits. *)
Definition decimal_literal (t : text) : Prop :=
  exists d ip fp,
    t = d :: ip ++ fp
    /\ is_digit d = true
    /\ Forall (fun c => figure_char c = true) ip
    /\ (fp = [] \/ exists d' ds, fp = "."%char :: d' :: ds
                                 /\ Forall (fun c => is_digit c = true) (d' :: ds)).

(** The number a decimal literal writes, its separators left out. *)
Definition decimal_value (t : text) : QArith_base.Q :=
  match split_on "." (replace "," "" t) with
  | [ip] => QArith_base.inject_Z (digits_value ip)
  | [ip; fp] =>
      QArith_base.Qdiv (QArith_base.inject_Z (digits_value (ip ++ fp)))
                       (QArith_base.inject_Z (10 ^ Z.of_nat (length fp)))
  | _ => QArith_base.inject_Z 0
  end.

(** The binary64 number nearest to a rational. *)
Definition to_binary64 (q : QArith_base.Q) : float :=
  float_of_ratio (QArith_base.Qnum q) (Zpos (QArith_base.Qden q)).

(** The tolerance of the calculation check, [0.01], as a rational and as
    the binary64 number that [float] reads from it. *)
Definition one_hundredth : QArith_base.Q := QArith_base.Qmake 1 100.
Definition one_hundredth_binary64 : float := to_binary64 one_hundredth.

(** The text of a calculation record. *)
Definition calc_expression (m0 m1 m2 : text) : text :=
  m0 ++ " " ++ [times_sign] ++ " " ++ m1 ++ " = " ++ m2.

(** The number of places of [s] at which [sub] starts. *)
Fixpoint occurrences (sub s : text) : nat :=
  (if starts_with sub s then 1 else 0)
  + match s with
    | [] => 0
    | _ :: s' => occurrences sub s'
    end.

(** Every pattern the engine hands to [re]. *)
Definition all_patterns : list text :=
  map fst spelling_patterns ++ map fst grammar_patterns ++ [calc_pattern]
  ++ strength_factors
  ++ ["\d+%"; "\d+\s*(day|week)"; "\$[\d,]+.*\$[\d,]+"; "\d+%.*roi|roi.*\d+%"].
(** The two texts of the demonstration in [main.py]. *)
Definition sample_text : text :=
  "" ++ [newline] ++
  "        # Business Proposal Draft" ++ [newline] ++
  "        " ++ [newline] ++
  "        This propsal will help your company acheive significant growth. We beleive that our aproach " ++ [newline] ++
  "        will result in a 250% ROI within the first year. The implementation timeline is 3-6 months," ++ [newline] ++
  "        depending on various factors." ++ [newline] ++
  "        " ++ [newline] ++
  "        Our team has extensive experiance in this domain and we're confident that we can deliver" ++ [newline] ++
  "        exceptional results. The investment required is $500K for a complete solution." ++ [newline] ++
  "        " ++ [newline] ++
  "        Please contact us to discuss further details." ++ [newline] ++
  "        ".

Definition business_proposal : text :=
  "" ++ [newline] ++
  "        # Patient Retention Recovery Plan" ++ [newline] ++
  "        " ++ [newline] ++
  "        ## Executive Summary" ++ [newline] ++
  "        Our company faces a critical patient retention challenge with churn rates at 40%. " ++ [newline] ++
  "        We propose a comprehensive AI-driven approach to reduce churn to 18% within 90 days." ++ [newline] ++
  "        " ++ [newline] ++
  "        ## Investment & ROI" ++ [newline] ++
  "        - Investment: $350,000 (one-time)" ++ [newline] ++
  "        - Expected value recovery: $3.25M annually  " ++ [newline] ++
  "        - ROI: 9.3x return on investment" ++ [newline] ++
  "        - Payback period: 6 weeks" ++ [newline] ++
  "        " ++ [newline] ++
  "        ## Timeline" ++ [newline] ++
  "        Total implementation: 90 days to target achievement" ++ [newline] ++
  "        ".

(** ** Vocabulary for the rest of the engine *)

(** The word lists the scoring functions look for. *)
Definition professional_words : list text :=
  ["executive"; "strategic"; "comprehensive"; "optimize"; "implement"].
Definition informal_words : list text :=
  ["gonna"; "wanna"; "yeah"; "ok"; "awesome"].
Definition sections : list text :=
  ["problem"; "solution"; "timeline"; "investment"; "roi"; "conclusion"].
Definition value_indicators : list text :=
  ["save"; "reduce"; "increase"; "improve"; "optimize"; "roi"; "benefit"].
Definition credibility_factors : list text :=
  ["experience"; "proven"; "track record"; "certified"; "years"; "expert"].
Definition urgency_indicators : list text :=
  ["urgent"; "critical"; "immediate"; "deadline"; "asap"; "emergency"].

(** The number of patterns of the list found in the text, in any case. *)
Definition factors_found (content : text) : nat :=
  length (filter (fun b : bool => b)
            (map (fun pattern => re_search pattern true content) strength_factors)).

(** A record moved [k] lines down. *)
Definition shift_line (k : nat) (d : DefectRecord) : DefectRecord :=
  match d with
  | PatternDefect n t s o => PatternDefect (n + k) t s o
  | CalculationDefect n x e r => CalculationDefect (n + k) x e r
  end.

(** The line numbers of the records never go down, and start at [lo] or
    later. *)
Fixpoint lines_ascend (lo : nat) (l : list DefectRecord) : Prop :=
  match l with
  | [] => True
  | d :: l' => lo <= defect_line d /\ lines_ascend (defect_line d) l'
  end.

(** An inventory moved [k] lines down. *)
Definition shift_lines (k : nat) (e : DefectInventory) : DefectInventory :=
  {| spelling_errors := map (shift_line k) (spelling_errors e);
     grammar_errors := map (shift_line k) (grammar_errors e);
     consistency_errors := map (shift_line k) (consistency_errors e);
     calculation_errors := map (shift_line k) (calculation_errors e);
     logic_errors := map (shift_line k) (logic_errors e) |}.

(** The records of [e1] followed by those of [e2], kind by kind. *)
Definition join_inventories (e1 e2 : DefectInventory) : DefectInventory :=
  {| spelling_errors := spelling_errors e1 ++ spelling_errors e2;
     grammar_errors := grammar_errors e1 ++ grammar_errors e2;
     consistency_errors := consistency_errors e1 ++ consistency_errors e2;
     calculation_errors := calculation_errors e1 ++ calculation_errors e2;
     logic_errors := logic_errors e1 ++ logic_errors e2 |}.

(** The number of lines of a document. *)
Definition line_count (content : text) : nat := length (split_on newline content).

Definition is_pattern_record (d : DefectRecord) : bool :=
  match d with PatternDefect _ _ _ _ => true | CalculationDefect _ _ _ _ => false end.

(** The pieces of advice of the review. *)
Definition advice_proofreading : text :=
  "Consider thorough proofreading before final submission".
Definition advice_calculations : text :=
  "Verify all mathematical calculations and financial projections".
Definition advice_spelling : text :=
  "Use spell-check tools to catch common spelling mistakes".
Definition advice_grammar : text :=
  "Review grammar, especially possessive forms and contractions".
Definition advice_expand : text :=
  "Consider expanding with more detailed information".
Definition advice_timelines : text :=
  "Include specific timelines and deadlines".

(** The number of periods of a text, and the text with a blank in the
    place of every period. *)
Definition periods (content : text) : nat :=
  length (filter (fun c => ascii_eqb c ".") content).

Definition periods_as_blanks (content : text) : text :=
  map (fun c => if ascii_eqb c "." then " "%char else c) content.

(** The three tiers of the clarity score, for [words] words in [n]
    fragments. *)
Definition clarity_tier (words n : nat) : Z :=
  if (15 * n <=? words) && (words <=? 20 * n) then 95%Z
  else if (10 * n <=? words) && (words <=? 25 * n) then 85%Z
  else 70%Z.

(** The expression of a word, and of the alternation of a word and more
    words, as the parser builds them. *)
Fixpoint word_re (w : text) : regex :=
  match w with
  | [] => Eps
  | [c] => Chr [CLit c]
  | c :: w' => Seq (Chr [CLit c]) (word_re w')
  end.

Fixpoint any_word_re (w : text) (more : list text) : regex :=
  match more with
  | [] => word_re w
  | w' :: more' => Alt (word_re w) (any_word_re w' more')
  end.

(** The strength factors that are alternations of keywords, with their
    keywords. *)
Definition keyword_factors : list (text * list text) :=
  [ ("problem|challenge|issue|pain", ["problem"; "challenge"; "issue"; "pain"]);
    ("solution|approach|strategy|method", ["solution"; "approach"; "strategy"; "method"]);
    ("roi|return|benefit|value", ["roi"; "return"; "benefit"; "value"]);
    ("team|experience|expert|professional",
     ["team"; "experience"; "expert"; "professional"]);
    ("urgent|critical|immediate|asap", ["urgent"; "critical"; "immediate"; "asap"]) ].

(** A stretch of the text reads as [w]: [re.IGNORECASE] finds [w] there. *)
Definition occurs_ic (w content : text) : Prop :=
  exists pre m post, content = pre ++ m ++ post /\ reads_as w m = true.

(** A digit followed by a percent sign. *)
Definition percent_figure (content : text) : Prop :=
  exists pre d post, is_digit d = true /\ content = pre ++ [d] ++ "%" ++ post.

Definition percent_re : regex := Seq (Plus (Chr [CDigit])) (Chr [CLit "%"]).

(** The advice and the opportunities of the strategic analysis. *)
Definition advice_roi : text :=
  "Add specific ROI calculations and financial projections".
Definition advice_percentages : text :=
  "Include percentage-based metrics for credibility".
Definition advice_testimonials : text :=
  "Add client testimonials or case study references".
Definition advice_plan : text :=
  "Expand content with more detailed implementation plan".
Definition advice_risk : text := "Include risk mitigation strategies".
Definition advice_differentiation : text := "Add competitive differentiation section".

Definition opportunity_roi : text :=
  "Highlight exceptional ROI as primary value proposition".
Definition opportunity_timeline : text := "Emphasize rapid implementation timeline".
Definition opportunity_agents : text := "Showcase innovative multi-agent approach".
Definition opportunity_urgency : text := "Create urgency with limited-time offer".
Definition opportunity_social_proof : text :=
  "Add social proof with industry statistics".

(** A stretch of the text reads as the word [w] and stands there as a
    whole word. *)
Definition whole_word (w content : text) : Prop :=
  exists pre m post,
    content = pre ++ m ++ post /\ reads_as w m = true /\ word_boundaries pre post.

(** The characters of Latin-1. *)
Definition all_chars : list ascii := map ascii_of_nat (seq 0 256).

(** A sufficient test that every match of [r] goes over a character that
    satisfies [P]. *)
Fixpoint must_consume (P : ascii -> bool) (r : regex) : bool :=
  match r with
  | Chr items => forallb (fun c => implb (in_cset false items c) (P c)) all_chars
  | Seq r1 r2 => must_consume P r1 || must_consume P r2
  | Alt r1 r2 => must_consume P r1 && must_consume P r2
  | Group _ r1 => must_consume P r1
  | _ => false
  end.

(** The three signs of a product. *)
Definition is_times (c : ascii) : bool :=
  ascii_eqb c "x" || ascii_eqb c times_sign || ascii_eqb c "*".

(** An expression without [\b]. *)
Fixpoint no_boundary (r : regex) : bool :=
  match r with
  | Seq r1 r2 => no_boundary r1 && no_boundary r2
  | Alt r1 r2 => no_boundary r1 && no_boundary r2
  | Star r1 => no_boundary r1
  | Group _ r1 => no_boundary r1
  | WordB => false
  | _ => true
  end.

Definition pattern_without_boundary (pattern : text) : bool :=
  match parse pattern with
  | Some r => no_boundary r
  | None => true
  end.

(** A position of [s] seen as a position of [x ++ s ++ y]. *)
Definition widen (x y : text) (st : mstate) : mstate :=
  (before st ++ rev x, ahead st ++ y, captured st).

(** The class with a helper that is interrupted: the exception is not an
    instance of [Exception]. *)
Definition interrupted : exn :=
  {| is_Exception := false; exn_str := "KeyboardInterrupt" |}.

Definition interrupted_scoring : Engine := {|
  name := name ClarityCPA;
  call_detect_errors := call_detect_errors ClarityCPA;
  call_calculate_quality_score := fun _ _ => Raise interrupted;
  call_generate_recommendations := call_generate_recommendations ClarityCPA;
  call_classify_document := call_classify_document ClarityCPA;
  call_score_grammar := call_score_grammar ClarityCPA;
  call_score_clarity := call_score_clarity ClarityCPA;
  call_score_professionalism := call_score_professionalism ClarityCPA;
  call_score_completeness := call_score_completeness ClarityCPA;
  call_analyze_proposal_strength := fun _ => Raise interrupted;
  call_analyze_competitive_position := call_analyze_competitive_position ClarityCPA;
  call_analyze_client_psychology := call_analyze_client_psychology ClarityCPA;
  call_generate_strategic_recommendations :=
    call_generate_strategic_recommendations ClarityCPA;
  call_identify_optimization_opportunities :=
    call_identify_optimization_opportunities ClarityCPA;
  call_score_value_proposition := call_score_value_proposition ClarityCPA;
  call_score_credibility := call_score_credibility ClarityCPA;
  call_score_urgency := call_score_urgency ClarityCPA;
  call_score_roi_clarity := call_score_roi_clarity ClarityCPA
|}.
(** * Text: basic facts *)

Lemma ascii_eqb_eq (a b : ascii) : ascii_eqb a b = true <-> a = b.
Proof. apply Ascii.eqb_eq. Qed.

Lemma ascii_eqb_refl (a : ascii) : ascii_eqb a a = true.
Proof. apply Ascii.eqb_refl. Qed.

Lemma starts_with_iff (p s : text) :
  starts_with p s = true <-> exists r, s = p ++ r.
Proof.
  revert s; induction p as [|x p IH]; intros s; simpl.
  - split; [intros _; now exists s | reflexivity].
  - destruct s as [|y s].
    + split; [discriminate | intros [r H]; discriminate].
    + rewrite andb_true_iff, ascii_eqb_eq, IH. split.
      * intros [-> [r ->]]. now exists r.
      * intros [r H]. injection H as -> ->. split; [reflexivity | now exists r].
Qed.

Lemma contains_iff (sub s : text) : contains sub s = true <-> occurs sub s.
Proof.
  unfold occurs. induction s as [|c s IH].
  - simpl. rewrite orb_false_r, starts_with_iff. split.
    + intros [r H]. exists [], r. exact H.
    + intros [pre [post H]]. destruct pre; simpl in H.
      * now exists post.
      * discriminate.
  - cbn [contains]. rewrite orb_true_iff, starts_with_iff, IH. split.
    + intros [[r H] | [pre [post H]]].
      * exists [], r. exact H.
      * exists (c :: pre), post. now rewrite H.
    + intros [pre [post H]]. destruct pre as [|x pre]; simpl in H.
      * left. now exists post.
      * right. injection H as _ H. now exists pre, post.
Qed.

Lemma contains_false_iff (sub s : text) : contains sub s = false <-> ~ occurs sub s.
Proof.
  rewrite <- contains_iff. destruct (contains sub s); split; intros; congruence.
Qed.

Lemma lower_app (a b : text) : lower (a ++ b) = lower a ++ lower b.
Proof. apply map_app. Qed.

Lemma occurs_lower (sub s : text) :
  lower sub = sub -> occurs sub s -> occurs sub (lower s).
Proof.
  intros Hs [pre [post ->]]. exists (lower pre), (lower post).
  now rewrite !lower_app, Hs.
Qed.

(** Every character of a substring is a character of the string. *)
Lemma occurs_incl (sub s : text) : occurs sub s -> incl sub s.
Proof.
  intros [pre [post ->]] c Hc. apply in_or_app. right. apply in_or_app. now left.
Qed.

Lemma split_on_nonempty (sep : ascii) (s : text) : split_on sep s <> [].
Proof.
  induction s as [|c s IH]; simpl; [discriminate|].
  destruct (ascii_eqb c sep); [discriminate|].
  destruct (split_on sep s); [contradiction | discriminate].
Qed.

Lemma split_on_no_sep (sep : ascii) (w : text) :
  ~ In sep w -> split_on sep w = [w].
Proof.
  induction w as [|c w IH]; intros H; simpl; [reflexivity|].
  destruct (ascii_eqb c sep) eqn:E.
  - apply ascii_eqb_eq in E. subst. exfalso. apply H. now left.
  - rewrite IH; [reflexivity|]. intros Hin. apply H. now right.
Qed.

Lemma split_on_app_sep (sep : ascii) (a b : text) :
  split_on sep (a ++ sep :: b) = split_on sep a ++ split_on sep b.
Proof.
  induction a as [|c a IH]; simpl.
  - now rewrite ascii_eqb_refl.
  - destruct (ascii_eqb c sep); [now rewrite IH|].
    rewrite IH. destruct (split_on sep a) eqn:E; [|reflexivity].
    exfalso. exact (split_on_nonempty _ _ E).
Qed.

(** A text without the separator stays inside one piece. *)
Lemma split_on_app_word (sep : ascii) (w a : text) :
  ~ In sep w ->
  split_on sep (w ++ a) = (w ++ hd [] (split_on sep a)) :: tl (split_on sep a).
Proof.
  induction w as [|c w IH]; intros H; simpl.
  - destruct (split_on sep a) eqn:E; [|reflexivity].
    exfalso. exact (split_on_nonempty _ _ E).
  - destruct (ascii_eqb c sep) eqn:E.
    + apply ascii_eqb_eq in E. subst. exfalso. apply H. now left.
    + rewrite IH; [reflexivity|]. intros Hin. apply H. now right.
Qed.

Lemma enumerate_app {A} (n : nat) (l1 l2 : list A) :
  enumerate n (l1 ++ l2) = enumerate n l1 ++ enumerate (n + length l1) l2.
Proof.
  revert n; induction l1 as [|x l1 IH]; intros n; simpl.
  - now rewrite Nat.add_0_r.
  - rewrite IH. now rewrite Nat.add_succ_r.
Qed.

Lemma in_enumerate {A} (n : nat) (l : list A) (i : nat) (x : A) :
  In (i, x) (enumerate n l) <-> n <= i /\ nth_error l (i - n) = Some x.
Proof.
  revert n; induction l as [|y l IH]; intros n; simpl.
  - split; [tauto|]. intros [_ H]. destruct (i - n); discriminate.
  - rewrite IH. split.
    + intros [H | [H1 H2]].
      * injection H as -> ->. split; [lia|]. now rewrite Nat.sub_diag.
      * split; [lia|]. replace (i - n) with (S (i - S n)) by lia. exact H2.
    + intros [H1 H2]. destruct (Nat.eq_dec n i) as [->|Hne].
      * left. rewrite Nat.sub_diag in H2. simpl in H2. congruence.
      * right. split; [lia|]. replace (i - n) with (S (i - S n)) in H2 by lia.
        exact H2.
Qed.

(** * Regular expressions: the matcher against the semantics *)

Section Matcher.
Variable A : Type.
Variable ic : bool.

Lemma star_loop_sound (body : mstate -> (mstate -> option A) -> option A)
    (R : mstate -> mstate -> Prop) (k : mstate -> option A) :
  (forall st k' x, body st k' = Some x -> exists st', R st st' /\ k' st' = Some x) ->
  forall n st x, star_loop body k n st = Some x ->
    exists st', star_steps R st st' /\ k st' = Some x.
Proof.
  intros Hbody. induction n as [|n IH]; intros st x H; simpl in H.
  - exists st. split; [constructor | exact H].
  - destruct (body st _) as [y|] eqn:E.
    + injection H as ->. apply Hbody in E. destruct E as [st1 [HR Hk]].
      destruct (length (ahead st1) <? length (ahead st)) eqn:Hlt; [|discriminate].
      apply Nat.ltb_lt in Hlt. apply IH in Hk. destruct Hk as [st' [Hit Hk]].
      exists st'. split; [|exact Hk]. eapply star_step; eauto.
    + exists st. split; [constructor | exact H].
Qed.

Lemma run_sound (r : regex) :
  forall st (k : mstate -> option A) x,
    run ic r st k = Some x -> exists st', den ic r st st' /\ k st' = Some x.
Proof.
  induction r as [|items|r1 IH1 r2 IH2|r1 IH1 r2 IH2|r1 IH1|i r1 IH1|];
    intros st k x H; simpl in H.
  - exists st. split; [reflexivity | exact H].
  - destruct (ahead st) as [|c s'] eqn:E; [discriminate|].
    destruct (in_cset ic items c) eqn:Ec; [|discriminate].
    eexists. split; [|exact H]. simpl. exists c, s'. repeat split; assumption.
  - apply IH1 in H. destruct H as [mid [H1 H]].
    apply IH2 in H. destruct H as [st' [H2 H]].
    exists st'. split; [|exact H]. simpl. exists mid. split; assumption.
  - destruct (run ic r1 st k) as [y|] eqn:E.
    + injection H as ->. apply IH1 in E. destruct E as [st' [H1 H]].
      exists st'. split; [now left | exact H].
    + apply IH2 in H. destruct H as [st' [H2 H]].
      exists st'. split; [now right | exact H].
  - eapply star_loop_sound in H; [exact H|]. intros st0 k' y Hy.
    now apply IH1 in Hy.
  - apply IH1 in H. destruct H as [st1 [H1 H]].
    eexists. split; [|exact H]. simpl. exists st1. split; [exact H1|reflexivity].
  - destruct (at_boundary st) eqn:E; [|discriminate].
    exists st. split; [|exact H]. simpl. split; [exact E | reflexivity].
Qed.

Lemma star_loop_complete (body : mstate -> (mstate -> option A) -> option A)
    (R : mstate -> mstate -> Prop) (k : mstate -> option A) :
  (forall st st' k', R st st' -> k' st' <> None -> body st k' <> None) ->
  forall st st', star_steps R st st' -> k st' <> None ->
    forall n, length (ahead st) <= n -> star_loop body k n st <> None.
Proof.
  intros Hbody st st' Hit Hk. induction Hit as [st|st st1 st2 HR Hlt Hit IH];
    intros n Hn.
  - destruct n; simpl; [exact Hk|]. destruct (body st _); [discriminate | exact Hk].
  - destruct n as [|n]; [lia|]. simpl.
    destruct (body st _) as [y|] eqn:E; [discriminate|]. exfalso.
    revert E. apply (Hbody st st1); [exact HR|].
    apply Nat.ltb_lt in Hlt. rewrite Hlt. apply IH; [exact Hk | ].
    apply Nat.ltb_lt in Hlt. lia.
Qed.

Lemma run_complete (r : regex) :
  forall st st' (k : mstate -> option A),
    den ic r st st' -> k st' <> None -> run ic r st k <> None.
Proof.
  induction r as [|items|r1 IH1 r2 IH2|r1 IH1 r2 IH2|r1 IH1|i r1 IH1|];
    intros st st' k H Hk; simpl in H |- *.
  - now subst.
  - destruct H as [c [s' [E [Ec ->]]]]. now rewrite E, Ec.
  - destruct H as [mid [H1 H2]]. eapply IH1; [exact H1|]. eapply IH2; eauto.
  - destruct (run ic r1 st k) eqn:E; [discriminate|]. destruct H as [H|H].
    + exfalso. revert E. eapply IH1; eauto.
    + eapply IH2; eauto.
  - eapply star_loop_complete; [|exact H|exact Hk|apply Nat.le_refl].
    intros st0 st1 k' HR Hk'. eapply IH1; eauto.
  - destruct H as [st1 [H1 ->]]. eapply IH1; [exact H1|]. exact Hk.
  - destruct H as [Hb ->]. now rewrite Hb.
Qed.
End Matcher.

Lemma some_not_none {A} (x : A) : Some x <> None.
Proof. discriminate. Qed.

(** [search_from] finds a match exactly when one starts somewhere. *)
Lemma search_from_eq (ic : bool) (r : regex) (b s : text) :
  search_from ic r b s =
  match run ic r (b, s, []) Some with
  | Some st => Some st
  | None => match s with [] => None | c :: s' => search_from ic r (c :: b) s' end
  end.
Proof. destruct s; reflexivity. Qed.

Lemma search_from_iff (ic : bool) (r : regex) (s b : text) :
  search_from ic r b s <> None <->
  exists pre post st', s = pre ++ post /\ den ic r (rev pre ++ b, post, []) st'.
Proof.
  revert b; induction s as [|c s IH]; intros b; rewrite search_from_eq;
    destruct (run ic r (b, _, []) Some) as [st|] eqn:E.
  - split; [intros _|intros _; discriminate]. apply run_sound in E.
    destruct E as [st' [H _]]. exists [], [], st'. split; [reflexivity | exact H].
  - split; [congruence|]. intros [pre [post [st' [Hs H]]]]. exfalso.
    symmetry in Hs. apply app_eq_nil in Hs. destruct Hs as [-> ->]. simpl in H.
    revert E. eapply run_complete; [exact H | discriminate].
  - split; [intros _|intros _; discriminate]. apply run_sound in E.
    destruct E as [st' [H _]]. exists [], (c :: s), st'. split; [reflexivity | exact H].
  - rewrite IH. split.
    + intros [pre [post [st' [-> H]]]]. exists (c :: pre), post, st'.
      split; [reflexivity|]. simpl. now rewrite <- app_assoc.
    + intros [pre [post [st' [Hs H]]]]. destruct pre as [|x pre]; simpl in Hs, H.
      * exfalso. subst post. revert E. eapply run_complete; [exact H | discriminate].
      * injection Hs as -> ->. exists pre, post, st'. split; [reflexivity|].
        now rewrite <- app_assoc in H.
Qed.

Lemma re_search_iff (pattern : text) (ic : bool) (r : regex) (s : text) :
  parse pattern = Some r ->
  (re_search pattern ic s = true <->
   exists pre post, s = pre ++ post /\ matches_at ic r pre post).
Proof.
  intros Hp. unfold re_search, matches_at. rewrite Hp.
  pose proof (search_from_iff ic r s []) as H.
  destruct (search_from ic r [] s) as [st|]; simpl.
  - split; [intros _|reflexivity].
    destruct H as [H _]. destruct (H (@some_not_none _ st)) as [pre [post [st' [Hs Hd]]]].
    exists pre, post. split; [exact Hs|]. exists st'. now rewrite app_nil_r in Hd.
  - split; [discriminate|]. intros [pre [post [Hs [st' Hd]]]]. exfalso.
    destruct H as [_ H]. apply H; [|reflexivity].
    exists pre, post, st'. split; [exact Hs|]. now rewrite app_nil_r.
Qed.

(** Every pattern of the program is in the fragment. *)
Lemma patterns_parse :
  forallb (fun pattern => is_some (parse pattern)) all_patterns = true.
Proof. reflexivity. Qed.

(** * The inventory as a function of the lines *)

Lemma add_defects_nil (e : DefectInventory) : add_defects e [] [] [] = e.
Proof. destruct e. unfold add_defects. simpl. now rewrite !app_nil_r. Qed.

Lemma add_defects_add (e : DefectInventory) (a b c a' b' c' : list DefectRecord) :
  add_defects (add_defects e a b c) a' b' c'
  = add_defects e (a ++ a') (b ++ b') (c ++ c').
Proof. unfold add_defects. simpl. now rewrite !app_assoc. Qed.

Lemma check_spelling_add (n : nat) (line : text) (e : DefectInventory) (rule : text * text) :
  check_spelling n line e rule = add_defects e (pattern_hit spelling_text n line rule) [] [].
Proof.
  unfold check_spelling, pattern_hit. destruct rule as [p c]. simpl.
  destruct (re_search p true line).
  - unfold append_spelling, add_defects. simpl. now rewrite !app_nil_r.
  - now rewrite add_defects_nil.
Qed.

Lemma check_grammar_add (n : nat) (line : text) (e : DefectInventory) (rule : text * text) :
  check_grammar n line e rule = add_defects e [] (pattern_hit grammar_text n line rule) [].
Proof.
  unfold check_grammar, pattern_hit. destruct rule as [p c]. simpl.
  destruct (re_search p true line).
  - unfold append_grammar, add_defects. simpl. now rewrite !app_nil_r.
  - now rewrite add_defects_nil.
Qed.

Lemma check_calculation_add (n : nat) (e : DefectInventory) (m : text * text * text) :
  check_calculation n e m = add_defects e [] [] (calculation_hit n m).
Proof.
  unfold calculation_hit, check_calculation. destruct m as [[m0 m1] m2].
  destruct (py_float (replace "," "" m0)); [|now rewrite add_defects_nil].
  destruct (py_float (replace "," "" m1)); [|now rewrite add_defects_nil].
  destruct (py_float (replace "," "" m2)); [|now rewrite add_defects_nil].
  destruct (fltb _ _); [|now rewrite add_defects_nil].
  unfold append_calculation, add_defects. simpl. now rewrite !app_nil_r.
Qed.

Lemma fold_add {X} (step : DefectInventory -> X -> DefectInventory)
    (sp gr ca : X -> list DefectRecord) :
  (forall e x, step e x = add_defects e (sp x) (gr x) (ca x)) ->
  forall l e, fold_left step l e
              = add_defects e (flat_map sp l) (flat_map gr l) (flat_map ca l).
Proof.
  intros Hstep. induction l as [|x l IH]; intros e; simpl.
  - now rewrite add_defects_nil.
  - now rewrite IH, Hstep, add_defects_add.
Qed.

Lemma flat_map_nil {X Y} (l : list X) : flat_map (fun _ => @nil Y) l = [].
Proof. induction l; simpl; auto. Qed.

Lemma check_line_add (e : DefectInventory) (ln : nat * text) :
  check_line e ln
  = add_defects e (spelling_hits ln) (grammar_hits ln) (calculation_hits ln).
Proof.
  destruct ln as [n line]. unfold check_line.
  rewrite (fold_add _ _ _ _ (check_spelling_add n line)).
  rewrite (fold_add _ _ _ _ (check_grammar_add n line)).
  rewrite (fold_add _ _ _ _ (check_calculation_add n)).
  rewrite !flat_map_nil, !add_defects_add, !app_nil_r. reflexivity.
Qed.

Lemma detect_errors_eq (content : text) :
  _detect_errors content
  = {| spelling_errors := flat_map spelling_hits (numbered_lines content);
       grammar_errors := flat_map grammar_hits (numbered_lines content);
       consistency_errors := [];
       calculation_errors := flat_map calculation_hits (numbered_lines content);
       logic_errors := [] |}.
Proof.
  unfold _detect_errors. rewrite (fold_add _ _ _ _ check_line_add). reflexivity.
Qed.

(** * Counting the records of a rule *)

Lemma text_eqb_eq (a b : text) : text_eqb a b = true <-> a = b.
Proof.
  revert b; induction a as [|x a IH]; intros [|y b]; simpl;
    try (split; [discriminate | congruence]); [tauto|].
  rewrite andb_true_iff, ascii_eqb_eq, IH. split.
  - now intros [-> ->].
  - intros H. now injection H.
Qed.

Lemma text_eqb_refl (a : text) : text_eqb a a = true.
Proof. now apply text_eqb_eq. Qed.

Lemma filter_flat_map {X Y} (f : Y -> bool) (g : X -> list Y) (l : list X) :
  filter f (flat_map g l) = flat_map (fun x => filter f (g x)) l.
Proof.
  induction l as [|x l IH]; simpl; [reflexivity|]. now rewrite filter_app, IH.
Qed.

Section OneRule.
Variable display : text -> text.

Lemma records_of_others (rules : list (text * text)) (n : nat) (line : text)
    (rule : text * text) :
  ~ In (display (fst rule)) (map (fun r => display (fst r)) rules) ->
  filter (is_record_of display rule) (flat_map (pattern_hit display n line) rules)
  = [].
Proof.
  induction rules as [|b l IH]; intros Hnotin; simpl; [reflexivity|].
  rewrite filter_app, IH.
  - rewrite app_nil_r. unfold pattern_hit.
    destruct (re_search (fst b) true line); simpl; [|reflexivity].
    destruct (text_eqb (display (fst b)) (display (fst rule))) eqn:E;
      [|reflexivity].
    apply text_eqb_eq in E. exfalso. apply Hnotin. left. exact E.
  - intros H. apply Hnotin. now right.
Qed.

(** Among the hits of a line, the ones of a rule of the table. *)
Lemma records_of_hits (rules : list (text * text)) (n : nat) (line : text)
    (rule : text * text) :
  NoDup (map (fun rule => display (fst rule)) rules) ->
  In rule rules ->
  records_of display rule (flat_map (pattern_hit display n line) rules)
  = pattern_hit display n line rule.
Proof.
  unfold records_of. induction rules as [|a l IH];
    intros Hnd Hin; simpl in *; [contradiction|].
  inversion Hnd as [|? ? Hnotin Hnd']; subst. rewrite filter_app.
  destruct Hin as [->|Hin].
  - rewrite (records_of_others l n line rule Hnotin), app_nil_r. unfold pattern_hit.
    destruct (re_search (fst rule) true line); simpl; [|reflexivity].
    now rewrite text_eqb_refl.
  - rewrite IH by assumption.
    assert (Hhead : filter (is_record_of display rule)
                      (pattern_hit display n line a) = []).
    { unfold pattern_hit. destruct (re_search (fst a) true line); simpl;
        [|reflexivity].
      destruct (text_eqb (display (fst a)) (display (fst rule))) eqn:E;
        [|reflexivity].
      apply text_eqb_eq in E. exfalso. apply Hnotin. rewrite E.
      apply (in_map (fun r => display (fst r))). exact Hin. }
    now rewrite Hhead.
Qed.

Lemma pattern_hit_line (n : nat) (line : text) (rule : text * text) (m : nat) :
  records_at m (pattern_hit display n line rule)
  = if n =? m then pattern_hit display n line rule else [].
Proof.
  unfold records_at, pattern_hit. destruct (re_search (fst rule) true line); simpl.
  - now destruct (n =? m).
  - now destruct (n =? m).
Qed.

(** The records of a rule over numbered lines: one for each line the
    pattern is found in. *)
Lemma records_of_lines (rules : list (text * text)) (rule : text * text)
    (lns : list (nat * text)) :
  NoDup (map (fun rule => display (fst rule)) rules) ->
  In rule rules ->
  records_of display rule
    (flat_map (fun ln => flat_map (pattern_hit display (fst ln) (snd ln)) rules) lns)
  = flat_map (fun ln => pattern_hit display (fst ln) (snd ln) rule) lns.
Proof.
  intros Hnd Hin. unfold records_of. rewrite filter_flat_map.
  apply flat_map_ext. intros ln. now apply records_of_hits.
Qed.
End OneRule.

Lemma records_at_enumerate (display : text -> text) (rule : text * text)
    (lines : list text) (start m : nat) :
  records_at m
    (flat_map (fun ln => pattern_hit display (fst ln) (snd ln) rule)
              (enumerate start lines))
  = match nth_error lines (m - start) with
    | Some line => if start <=? m then pattern_hit display m line rule else []
    | None => []
    end.
Proof.
  unfold records_at. revert start. induction lines as [|l lines IH]; intros start.
  - simpl. now destruct (m - start).
  - cbn [enumerate flat_map]. rewrite filter_app, IH. cbn [fst snd].
    fold (records_at m (pattern_hit display start l rule)).
    rewrite pattern_hit_line.
    destruct (Nat.lt_trichotomy start m) as [Hlt|[->|Hgt]].
    + assert ((start =? m) = false) as -> by (apply Nat.eqb_neq; lia).
      assert ((S start <=? m) = true) as -> by (apply Nat.leb_le; lia).
      assert ((start <=? m) = true) as -> by (apply Nat.leb_le; lia).
      replace (m - start) with (S (m - S start)) by lia. reflexivity.
    + rewrite Nat.eqb_refl, Nat.sub_diag, Nat.leb_refl.
      assert ((S m <=? m) = false) as -> by (apply Nat.leb_gt; lia).
      cbn [nth_error]. destruct (nth_error lines (m - S m)); now rewrite app_nil_r.
    + assert ((start =? m) = false) as -> by (apply Nat.eqb_neq; lia).
      assert ((S start <=? m) = false) as -> by (apply Nat.leb_gt; lia).
      assert ((start <=? m) = false) as -> by (apply Nat.leb_gt; lia).
      replace (m - start) with 0 by lia. cbn [nth_error app].
      now destruct (nth_error lines (m - S start)).
Qed.

Lemma length_pattern_hits (display : text -> text) (rule : text * text)
    (lns : list (nat * text)) :
  length (flat_map (fun ln => pattern_hit display (fst ln) (snd ln) rule) lns)
  = length (filter (fun ln => re_search (fst rule) true (snd ln)) lns).
Proof.
  induction lns as [|ln lns IH]; simpl; [reflexivity|].
  rewrite length_app, IH. unfold pattern_hit.
  now destruct (re_search (fst rule) true (snd ln)).
Qed.

Lemma spelling_texts_distinct :
  NoDup (map (fun rule => spelling_text (fst rule)) spelling_patterns).
Proof.
  vm_compute. repeat constructor; simpl; intuition discriminate.
Qed.

Lemma grammar_texts_distinct :
  NoDup (map (fun rule => grammar_text (fst rule)) grammar_patterns).
Proof.
  vm_compute. repeat constructor; simpl; intuition discriminate.
Qed.

Lemma kind_errors_eq (k : rule_kind) (content : text) :
  kind_errors k (_detect_errors content)
  = flat_map (fun ln => flat_map (pattern_hit (rule_display k) (fst ln) (snd ln))
                                 (rule_table k))
             (numbered_lines content).
Proof. rewrite detect_errors_eq. now destruct k. Qed.

Lemma rule_texts_distinct (k : rule_kind) :
  NoDup (map (fun rule => rule_display k (fst rule)) (rule_table k)).
Proof.
  destruct k; [apply spelling_texts_distinct | apply grammar_texts_distinct].
Qed.

Lemma filter_enumerate_length {X} (P : X -> bool) (l : list X) (start : nat) :
  length (filter (fun ln => P (snd ln)) (enumerate start l)) = length (filter P l).
Proof.
  revert start; induction l as [|x l IH]; intros start; simpl; [reflexivity|].
  destruct (P x); simpl; now rewrite IH.
Qed.

Lemma length_pattern_hit (display : text -> text) (n : nat) (line : text)
    (rule : text * text) :
  length (pattern_hit display n line rule) <= 1.
Proof. unfold pattern_hit. destruct (re_search _ _ _); simpl; lia. Qed.


(** * Ranges of the scores *)

Lemma clamp_in_range (x : Z) : in_range (clamp 0 100 x).
Proof. unfold in_range, clamp. lia. Qed.

Lemma count_in_le (words : list text) (s : text) : count_in words s <= length words.
Proof. unfold count_in. apply filter_length_le. Qed.

Lemma percentage_in_range (k n : nat) :
  0 < n <= 7 -> k <= n -> float_in_range (percentage k n).
Proof.
  intros Hn Hk.
  assert (Hcases : forall k n, n <= 7 -> k <= n -> 0 < n ->
            float_in_range (percentage k n)).
  { clear. intros k n Hn Hk Hpos.
    do 8 (destruct n as [|n]; [
      do 8 (destruct k as [|k]; [try lia; split; vm_compute; reflexivity|]); lia |]).
    lia. }
  apply Hcases; lia.
Qed.

Lemma score_clarity_in_range (content : text) : in_range (_score_clarity content).
Proof.
  unfold _score_clarity, in_range.
  destruct (is_empty _); [lia|]. destruct (_ && _); [lia|].
  destruct (_ && _); lia.
Qed.

Lemma score_roi_clarity_in_range (content : text) : in_range (_score_roi_clarity content).
Proof.
  unfold _score_roi_clarity, in_range.
  destruct (re_search _ false content).
  - destruct (re_search _ true content); lia.
  - destruct (contains _ _); lia.
Qed.

Lemma weighted_hits_bounds (w : Z) (words : list text) (s : text) :
  (0 <= w)%Z -> (0 <= weighted_hits w words s <= w * Z.of_nat (length words))%Z.
Proof.
  intros Hw. unfold weighted_hits. pose proof (count_in_le words s). nia.
Qed.


(** * Words in a text *)

Lemma any_in_iff (words : list text) (s : text) :
  any_in words s = true <-> exists word, In word words /\ occurs word s.
Proof.
  unfold any_in. rewrite existsb_exists. split.
  - intros [w [Hin H]]. exists w. split; [exact Hin | now apply contains_iff].
  - intros [w [Hin H]]. exists w. split; [exact Hin | now apply contains_iff].
Qed.

Lemma any_in_lower_iff (words : list text) (content : text) :
  any_in words (lower content) = true <-> mentions words content.
Proof. apply any_in_iff. Qed.

Lemma any_in_lower_false (words : list text) (content : text) :
  ~ mentions words content -> any_in words (lower content) = false.
Proof.
  intros H. destruct (any_in words (lower content)) eqn:E; [|reflexivity].
  exfalso. apply H. now apply any_in_lower_iff.
Qed.


(** * Trigger words *)

Lemma count_in_none (words : list text) (s : text) :
  (forall word, In word words -> ~ occurs word s) -> count_in words s = 0.
Proof.
  unfold count_in. induction words as [|w words IH]; intros H; simpl; [reflexivity|].
  destruct (contains w s) eqn:E.
  - exfalso. apply (H w); [now left | now apply contains_iff].
  - apply IH. intros w' Hin. apply H. now right.
Qed.

Lemma in_when (b : bool) (s x : text) : In x (when b s) <-> b = true /\ x = s.
Proof.
  unfold when. destruct b; simpl; split; try tauto.
  - intros [H|[]]. split; [reflexivity | now symmetry].
  - intros [_ ->]. now left.
  - intros [H _]. discriminate.
Qed.

(** A text made of copies of one word holds no character outside that
    word. *)
Lemma concat_repeat_incl (w : text) (n : nat) : incl (concat (repeat w n)) w.
Proof.
  induction n as [|n IH]; simpl; intros c Hc; [contradiction|].
  apply in_app_or in Hc. destruct Hc as [Hc|Hc]; [exact Hc | now apply IH].
Qed.

Lemma not_occurs_missing_char (c : ascii) (word s : text) :
  In c word -> ~ In c s -> ~ occurs word s.
Proof. intros Hc Hs Ho. apply Hs. now apply (occurs_incl _ _ Ho). Qed.


(** * Whole words *)

Lemma is_word_to_lower (c : ascii) : is_word (to_lower c) = is_word c.
Proof.
  destruct c as [[] [] [] [] [] [] [] []]; vm_compute; reflexivity.
Qed.

Lemma den_lits (w : text) :
  forall (w' b rest : text) (g : caps) (r : regex) (st' : mstate),
    lower w' = lower w ->
    den true r (rev w' ++ b, rest, g) st' ->
    den true (lits w r) (b, w' ++ rest, g) st'.
Proof.
  induction w as [|c w IH]; intros w' b rest g r st' Hl H.
  - destruct w'; [exact H | discriminate].
  - destruct w' as [|c' w']; [discriminate|]. simpl in Hl. injection Hl as Hc Hl.
    cbn [lits den]. exists (c' :: b, w' ++ rest, g). split.
    + exists c', (w' ++ rest). repeat split.
      unfold in_cset. simpl. rewrite Hc, ascii_eqb_refl. reflexivity.
    + apply IH; [exact Hl|]. simpl in H. now rewrite <- app_assoc in H.
Qed.

Lemma head_is_word_app (a b : text) :
  a <> [] -> head_is_word (a ++ b) = head_is_word a.
Proof. destruct a; [congruence | reflexivity]. Qed.

(** A whole-word occurrence of [w], in any case, is found by [\bw\b]. *)
Lemma word_rule_found (w w' l h : text) :
  w <> [] -> forallb is_word w = true ->
  lower w' = lower w ->
  head_is_word (rev l) = false -> head_is_word h = false ->
  matches_at true (Seq WordB (lits w WordB)) l (w' ++ h).
Proof.
  intros Hne Hw Hl Hb Ha.
  assert (Hw' : forallb is_word w' = true).
  { revert w Hw Hl Hne. clear. induction w' as [|c' w' IH]; intros w Hw Hl Hne.
    - reflexivity.
    - destruct w as [|c w]; [discriminate|]. simpl in Hl. injection Hl as Hc Hl.
      simpl in Hw |- *. apply andb_true_iff in Hw. destruct Hw as [Hw1 Hw2].
      rewrite <- (is_word_to_lower c'), Hc, is_word_to_lower, Hw1. simpl.
      destruct w' as [|d' w'']; [reflexivity|].
      apply (IH w); [exact Hw2 | exact Hl |]. destruct w; discriminate. }
  assert (Hne' : w' <> []) by (destruct w', w; simpl in *; congruence).
  unfold matches_at. exists (rev w' ++ rev l, h, []). cbn [den]. eexists. split.
  - split; [|reflexivity]. unfold at_boundary. cbn [before ahead fst snd].
    rewrite Hb. destruct w' as [|c' w'']; [congruence|]. simpl.
    simpl in Hw'. apply andb_true_iff in Hw'. now destruct Hw' as [-> _].
  - apply den_lits; [exact Hl|]. cbn [den]. split; [|reflexivity].
    unfold at_boundary. cbn [before ahead fst snd]. rewrite Ha.
    rewrite head_is_word_app.
    + destruct (rev w') as [|c r] eqn:E.
      * exfalso. apply Hne'. apply (f_equal (@rev ascii)) in E.
        now rewrite rev_involutive in E.
      * simpl. assert (Hin : In c w') by (apply in_rev; rewrite E; now left).
        rewrite forallb_forall in Hw'. now rewrite (Hw' c Hin).
    + intros E. apply Hne'. apply (f_equal (@rev ascii)) in E.
      now rewrite rev_involutive in E.
Qed.


(** * Lines of a document *)

Lemma hd_split_on_prefix (sep : ascii) (s : text) :
  exists rest, s = hd [] (split_on sep s) ++ rest.
Proof.
  induction s as [|c s IH]; simpl.
  - now exists [].
  - destruct (ascii_eqb c sep).
    + now exists (c :: s).
    + destruct IH as [rest IH]. destruct (split_on sep s) as [|h t] eqn:E.
      * exfalso. exact (split_on_nonempty _ _ E).
      * simpl in *. exists rest. now rewrite IH at 1.
Qed.

(** The line a position falls in: the part of the line before the position
    is a suffix [l] of what precedes, and the line goes on with the first
    piece of what follows. *)
Lemma line_of_position (sep : ascii) (pre rest : text) :
  exists n l a0,
    pre = a0 ++ l
    /\ (n = 0 -> a0 = [])
    /\ nth_error (split_on sep (pre ++ rest)) n
       = Some (l ++ hd [] (split_on sep rest)).
Proof.
  induction pre as [|c pre IH]; simpl.
  - exists 0, [], []. repeat split. destruct (split_on sep rest) eqn:E; [|reflexivity].
    exfalso. exact (split_on_nonempty _ _ E).
  - destruct IH as (n & l & a0 & Hpre & Hn & Hline). destruct (ascii_eqb c sep).
    + exists (S n), l, (c :: a0). split; [now rewrite Hpre|]. split; [discriminate|].
      exact Hline.
    + destruct (split_on sep (pre ++ rest)) as [|h0 t] eqn:E.
      * exfalso. exact (split_on_nonempty _ _ E).
      * destruct n as [|n].
        -- rewrite (Hn eq_refl) in Hpre. simpl in Hpre. subst pre.
           exists 0, (c :: l), []. repeat split. simpl in Hline |- *.
           now injection Hline as ->.
        -- exists (S n), l, (c :: a0). split; [now rewrite Hpre|].
           split; [discriminate|]. exact Hline.
Qed.

Lemma head_is_word_suffix (a0 l : text) :
  head_is_word (rev (a0 ++ l)) = false -> head_is_word (rev l) = false.
Proof.
  rewrite rev_app_distr. destruct (rev l) as [|c r]; [reflexivity|].
  simpl. tauto.
Qed.

Lemma head_is_word_prefix (h rest : text) :
  head_is_word (h ++ rest) = false -> head_is_word h = false.
Proof. destruct h; [reflexivity | simpl; tauto]. Qed.

(** A text without newline that stands in a document stands in one of its
    lines, with the same kind of neighbours. *)
Lemma line_of_occurrence (pre w post : text) :
  ~ In newline w ->
  exists n l h,
    nth_error (split_on newline (pre ++ w ++ post)) n = Some (l ++ w ++ h)
    /\ (head_is_word (rev pre) = false -> head_is_word (rev l) = false)
    /\ (head_is_word post = false -> head_is_word h = false).
Proof.
  intros Hw.
  destruct (line_of_position newline pre (w ++ post)) as (n & l & a0 & Hpre & _ & Hline).
  rewrite (split_on_app_word newline w post Hw) in Hline. simpl in Hline.
  destruct (hd_split_on_prefix newline post) as [rest Hpost].
  exists n, l, (hd [] (split_on newline post)). split; [|split].
  - exact Hline.
  - rewrite Hpre. apply head_is_word_suffix.
  - rewrite Hpost at 1. apply head_is_word_prefix.
Qed.

(** * The overall score *)

Lemma quality_points_eq (content : text) (e : DefectInventory) :
  quality_points content e
  = (100 + bonus content - 5 * Z.of_nat (total_errors e))%Z.
Proof.
  assert (Hpen : forall (b : Z) (l : list DefectRecord),
            (if is_empty l then b else b - Z.of_nat (length l) * 5)%Z
            = (b - Z.of_nat (length l) * 5)%Z).
  { intros b [|x l]; simpl (is_empty _); [simpl; lia | reflexivity]. }
  unfold quality_points, bonus, total_errors, items.
  cbn [fold_left fold_right snd]. rewrite !Hpen.
  destruct (500 <? length content);
    destruct (contains "$" content && any_in _ (lower content)); lia.
Qed.

Lemma total_errors_with_spelling (e : DefectInventory) (l1 l2 : list DefectRecord)
    (d : DefectRecord) :
  spelling_errors e = l1 ++ d :: l2 ->
  total_errors e = S (total_errors (with_spelling e (l1 ++ l2))).
Proof.
  intros H. unfold total_errors, items, with_spelling. cbn [fold_right snd].
  cbn [spelling_errors grammar_errors consistency_errors calculation_errors logic_errors].
  rewrite H, !length_app. simpl. lia.
Qed.

Lemma parse_word_rules :
  parse "\bacheive\b" = Some (Seq WordB (lits "acheive" WordB))
  /\ parse "\bbeleive\b" = Some (Seq WordB (lits "beleive" WordB))
  /\ parse "\baproach\b" = Some (Seq WordB (lits "aproach" WordB))
  /\ parse "\bexperiance\b" = Some (Seq WordB (lits "experiance" WordB))
  /\ parse "\baccurate\b" = Some (Seq WordB (lits "accurate" WordB))
  /\ parse "\brecieve\b" = Some (Seq WordB (lits "recieve" WordB))
  /\ parse "\bpropsal\b" = Some (Seq WordB (lits "propsal" WordB)).
Proof. repeat split; reflexivity. Qed.

Lemma in_lower (c : ascii) (w : text) : In c w -> In (to_lower c) (lower w).
Proof. apply in_map. Qed.


(** * A new last line *)

Lemma starts_with_app_sep (sep : ascii) (kw a b : text) :
  ~ In sep kw -> kw <> [] ->
  starts_with kw (a ++ sep :: b) = starts_with kw a.
Proof.
  revert a. induction kw as [|x kw IH]; intros a Hsep Hne; [congruence|].
  destruct a as [|c a]; simpl.
  - destruct (ascii_eqb x sep) eqn:E; [|reflexivity].
    apply ascii_eqb_eq in E. subst. exfalso. apply Hsep. now left.
  - destruct (ascii_eqb x c); [|reflexivity]. simpl.
    destruct kw as [|y kw]; [reflexivity|].
    apply IH; [|discriminate]. intros H. apply Hsep. now right.
Qed.

Lemma contains_app_sep (sep : ascii) (kw a b : text) :
  ~ In sep kw -> kw <> [] ->
  contains kw (a ++ sep :: b) = contains kw a || contains kw b.
Proof.
  intros Hsep Hne. induction a as [|c a IH].
  - pose proof (starts_with_app_sep sep kw [] b Hsep Hne) as H.
    cbn [app] in H |- *. cbn [contains]. rewrite H.
    destruct kw; [congruence|]. reflexivity.
  - change ((c :: a) ++ sep :: b) with (c :: (a ++ sep :: b)). cbn [contains].
    rewrite IH. change (c :: a ++ sep :: b) with ((c :: a) ++ sep :: b).
    rewrite (starts_with_app_sep sep kw (c :: a) b Hsep Hne).
    now rewrite orb_assoc.
Qed.

Lemma numbered_lines_new_line (content word : text) :
  ~ In newline word ->
  numbered_lines (content ++ newline :: word)
  = numbered_lines content ++ [(S (length (split_on newline content)), word)].
Proof.
  intros Hw. unfold numbered_lines.
  rewrite split_on_app_sep, (split_on_no_sep newline word Hw), enumerate_app.
  reflexivity.
Qed.

Lemma clamp_mono (x y : Z) : (x <= y)%Z -> (clamp 0 100 x <= clamp 0 100 y)%Z.
Proof. unfold clamp. lia. Qed.

Lemma misspelling_alone_in_a_line (rule : text * text) (n : nat) :
  In rule spelling_patterns ->
  let word := spelling_text (fst rule) in
  ~ In newline word
  /\ spelling_hits (n, word) = [PatternDefect n word (snd rule) word]
  /\ grammar_hits (n, word) = []
  /\ calculation_hits (n, word) = []
  /\ contains "$" word = false
  /\ any_in ["roi"; "investment"; "return"] (lower word) = false
  /\ lower word = word.
Proof.
  intros Hin. simpl in Hin.
  repeat (destruct Hin as [<-|Hin];
          [repeat split; try (vm_compute; reflexivity);
           vm_compute; intuition discriminate|]).
  contradiction.
Qed.


(** * What a match consumes *)

Lemma star_steps_consume (R : mstate -> mstate -> Prop) (P : ascii -> Prop) :
  (forall st st', R st st' ->
     exists m, ahead st = m ++ ahead st' /\ before st' = rev m ++ before st
               /\ Forall P m) ->
  forall st st', star_steps R st st' ->
    exists m, ahead st = m ++ ahead st' /\ before st' = rev m ++ before st
              /\ Forall P m.
Proof.
  intros HR st st' Hit. induction Hit as [st|st st1 st2 H1 _ _ IH].
  - exists []. repeat split. constructor.
  - apply HR in H1. destruct H1 as (m1 & Ha1 & Hb1 & HP1).
    destruct IH as (m2 & Ha2 & Hb2 & HP2). exists (m1 ++ m2). split; [|split].
    + rewrite Ha1, Ha2. now rewrite app_assoc.
    + rewrite Hb2, Hb1, rev_app_distr. now rewrite app_assoc.
    + apply Forall_app. now split.
Qed.

(** A match consumes a piece [m] of what is ahead, and [m] is made of
    characters the expression allows. *)
Lemma den_consumes (ic : bool) (P : ascii -> Prop) (r : regex) :
  alphabet ic P r ->
  forall st st', den ic r st st' ->
    exists m, ahead st = m ++ ahead st' /\ before st' = rev m ++ before st
              /\ Forall P m.
Proof.
  induction r as [|items|r1 IH1 r2 IH2|r1 IH1 r2 IH2|r1 IH1|i r1 IH1|];
    intros Hal st st' H; simpl in Hal, H.
  - subst. exists []. repeat split. constructor.
  - destruct H as (c & s' & Ha & Hc & ->). exists [c]. cbn [ahead before fst snd].
    split; [exact Ha|]. split; [reflexivity|]. constructor; [now apply Hal | constructor].
  - destruct Hal as [Hal1 Hal2]. destruct H as (mid & H1 & H2).
    apply (IH1 Hal1) in H1. apply (IH2 Hal2) in H2.
    destruct H1 as (m1 & Ha1 & Hb1 & HP1). destruct H2 as (m2 & Ha2 & Hb2 & HP2).
    exists (m1 ++ m2). split; [|split].
    + rewrite Ha1, Ha2. now rewrite app_assoc.
    + rewrite Hb2, Hb1, rev_app_distr. now rewrite app_assoc.
    + apply Forall_app. now split.
  - destruct Hal as [Hal1 Hal2]. destruct H as [H|H]; [now apply IH1 | now apply IH2].
  - revert st st' H. apply star_steps_consume. intros st st' H. now apply IH1.
  - destruct H as (st1 & H1 & ->). apply (IH1 Hal) in H1.
    destruct H1 as (m & Ha & Hb & HP). exists m. cbn [ahead before fst snd]. auto.
  - destruct H as [_ ->]. exists []. repeat split. constructor.
Qed.

Lemma star_steps_keep_captures (R : mstate -> mstate -> Prop) :
  (forall st st', R st st' -> captured st' = captured st) ->
  forall st st', star_steps R st st' -> captured st' = captured st.
Proof.
  intros HR st st' Hit. induction Hit as [st|st st1 st2 H1 _ _ IH]; [reflexivity|].
  rewrite IH. now apply HR.
Qed.

Lemma den_keeps_captures (ic : bool) (r : regex) :
  no_groups r = true ->
  forall st st', den ic r st st' -> captured st' = captured st.
Proof.
  induction r as [|items|r1 IH1 r2 IH2|r1 IH1 r2 IH2|r1 IH1|i r1 IH1|];
    intros Hng st st' H; simpl in Hng, H.
  - now subst.
  - destruct H as (c & s' & _ & _ & ->). reflexivity.
  - apply andb_true_iff in Hng. destruct Hng as [Hn1 Hn2].
    destruct H as (mid & H1 & H2). rewrite (IH2 Hn2 _ _ H2). now apply IH1.
  - apply andb_true_iff in Hng. destruct Hng as [Hn1 Hn2].
    destruct H as [H|H]; [now apply IH1 | now apply IH2].
  - revert st st' H. apply star_steps_keep_captures. intros st st' H. now apply IH1.
  - discriminate.
  - now destruct H as [_ ->].
Qed.

(** A run of characters of a class is matched by the starred class. *)
Lemma star_class_run (ic : bool) (items : list citem) (run : text) :
  forallb (in_cset ic items) run = true ->
  forall b rest g,
    den ic (Star (Chr items)) (b, run ++ rest, g) (rev run ++ b, rest, g).
Proof.
  induction run as [|c run IH]; intros Hrun b rest g; simpl in Hrun.
  - apply star_stop.
  - apply andb_true_iff in Hrun. destruct Hrun as [Hc Hrun].
    cbn [den]. apply star_step with (st1 := (c :: b, run ++ rest, g)).
    + simpl. exists c, (run ++ rest). repeat split. exact Hc.
    + cbn [ahead fst snd]. simpl. lia.
    + replace (rev (c :: run) ++ b) with (rev run ++ c :: b)
        by (simpl; now rewrite <- app_assoc).
      apply (IH Hrun).
Qed.

Lemma den_class (ic : bool) (items : list citem) (c : ascii) (b rest : text) (g : caps) :
  in_cset ic items c = true ->
  den ic (Chr items) (b, c :: rest, g) (c :: b, rest, g).
Proof. intros H. simpl. exists c, rest. repeat split. exact H. Qed.

Lemma den_class_inv (ic : bool) (items : list citem) (st st' : mstate) :
  den ic (Chr items) st st' ->
  exists c, ahead st = c :: ahead st' /\ in_cset ic items c = true.
Proof.
  simpl. intros (c & s' & Ha & Hc & ->). exists c. split; [exact Ha | exact Hc].
Qed.

(** * The two patterns of the ROI score *)

Lemma parse_roi_patterns :
  parse "\$[\d,]+.*\$[\d,]+" = Some figures_re
  /\ parse "\d+%.*roi|roi.*\d+%" = Some roi_percentage_re.
Proof. split; reflexivity. Qed.

Lemma in_figure_class (ic : bool) (c : ascii) :
  in_cset ic [CDigit; CLit ","] c = figure_char c.
Proof.
  unfold in_cset, figure_char. simpl. rewrite orb_false_r.
  destruct ic; [|reflexivity]. f_equal.
  destruct c as [[] [] [] [] [] [] [] []]; reflexivity.
Qed.

Lemma figure_char_not_newline (c : ascii) : figure_char c = true -> c <> newline.
Proof. intros H ->. discriminate H. Qed.

Lemma in_any_class (ic : bool) (c : ascii) :
  in_cset ic [CAny] c = true <-> c <> newline.
Proof.
  unfold in_cset. simpl. rewrite orb_false_r, negb_true_iff. split.
  - intros H ->. now rewrite ascii_eqb_refl in H.
  - intros H. destruct (ascii_eqb c newline) eqn:E; [|reflexivity].
    now apply ascii_eqb_eq in E.
Qed.

Lemma in_lit_class (c l : ascii) :
  in_cset false [CLit l] c = true <-> c = l.
Proof. unfold in_cset. simpl. rewrite orb_false_r. apply ascii_eqb_eq. Qed.

Lemma in_lit_class_ic (c l : ascii) :
  in_cset true [CLit l] c = true <-> to_lower c = to_lower l.
Proof. unfold in_cset. simpl. rewrite orb_false_r. apply ascii_eqb_eq. Qed.

Lemma no_newline_forall (m : text) :
  Forall (fun c => c <> newline) m <-> ~ In newline m.
Proof.
  rewrite Forall_forall. split.
  - intros H Hin. now apply (H newline Hin).
  - intros H c Hin ->. now apply H.
Qed.

Lemma forallb_any (ic : bool) (m : text) :
  ~ In newline m -> forallb (in_cset ic [CAny]) m = true.
Proof.
  intros H. apply forallb_forall. intros c Hc. apply in_any_class.
  intros ->. now apply H.
Qed.

Lemma search_figures_iff (content : text) :
  re_search "\$[\d,]+.*\$[\d,]+" false content = true <-> two_dollar_figures content.
Proof.
  rewrite (re_search_iff _ false figures_re content (proj1 parse_roi_patterns)).
  unfold two_dollar_figures, matches_at. split.
  - intros (pre & post & -> & st' & H). unfold figures_re, Plus in H. cbn [den] in H.
    destruct H as (s1 & H1 & s2 & (s2a & H2 & H2') & s3 & H3 & s4 & H4 & s5 & H5 & H5').
    apply den_class_inv in H1, H2, H4, H5.
    destruct H1 as (c1 & A1 & C1). destruct H2 as (a & A2 & C2).
    destruct H4 as (c4 & A4 & C4). destruct H5 as (b & A5 & C5).
    apply in_lit_class in C1, C4. subst c1 c4. rewrite in_figure_class in C2, C5.
    apply (den_consumes false (fun c => c <> newline) (Star (Chr [CDigit; CLit ","])))
      in H2'; [|intros c Hc; rewrite in_figure_class in Hc;
                 now apply figure_char_not_newline].
    apply (den_consumes false (fun c => c <> newline) (Star (Chr [CAny])))
      in H3; [|intros c Hc; now apply in_any_class in Hc].
    destruct H2' as (m2 & A2' & _ & F2). destruct H3 as (m3 & A3 & _ & F3).
    cbn [ahead fst snd] in A1.
    exists pre, a, (m2 ++ m3), b, (ahead s5). split; [|split; [exact C2|split; [exact C5|]]].
    + rewrite A1, A2, A2', A3, A4, A5. simpl. now rewrite <- !app_assoc.
    + apply no_newline_forall. apply Forall_app. now split.
  - intros (pre & a & mid & b & post & -> & Ha & Hb & Hmid).
    exists pre, ("$" ++ [a] ++ mid ++ "$" ++ [b] ++ post). split; [reflexivity|].
    eexists. unfold figures_re, Plus. cbn [den app].
    eexists. split; [apply den_class; reflexivity|].
    eexists. split.
    { eexists. split; [apply den_class; now rewrite in_figure_class|]. apply star_stop. }
    eexists. split; [apply (star_class_run false [CAny] mid); now apply forallb_any|].
    eexists. split; [apply den_class; reflexivity|].
    eexists. split; [apply den_class; now rewrite in_figure_class|]. apply star_stop.
Qed.

Lemma digit_not_newline (c : ascii) : is_digit c = true -> c <> newline.
Proof. intros H ->. discriminate H. Qed.

Lemma in_digit_class (ic : bool) (c : ascii) : in_cset ic [CDigit] c = is_digit c.
Proof. unfold in_cset. simpl. now rewrite orb_false_r. Qed.

(** A run of digits that is not empty ends with a digit. *)
Lemma digits_last (d : ascii) (ds : text) :
  is_digit d = true -> Forall (fun c => is_digit c = true) ds ->
  exists init last, d :: ds = init ++ [last] /\ is_digit last = true
                    /\ Forall (fun c => is_digit c = true) init.
Proof.
  intros Hd Hds. destruct (@exists_last _ (d :: ds)) as (init & last & E);
    [discriminate|].
  assert (HF : Forall (fun c => is_digit c = true) (init ++ [last])).
  { rewrite <- E. now constructor. }
  apply Forall_app in HF. destruct HF as [Hi Hl]. exists init, last.
  split; [exact E|]. split; [now inversion Hl | exact Hi].
Qed.

Lemma lower_three (w : text) (a b c : ascii) :
  lower w = [a; b; c] ->
  exists x y z, w = [x; y; z] /\ to_lower x = a /\ to_lower y = b /\ to_lower z = c.
Proof.
  destruct w as [|x [|y [|z [|]]]]; try discriminate. simpl. intros H.
  injection H as <- <- <-. now exists x, y, z.
Qed.

(** On the characters of the model, a stretch reads as a word exactly when
    the two have the same lowercase form. *)
Lemma reads_as_lower (w m : text) : reads_as w m = true <-> lower m = lower w.
Proof.
  revert m. induction w as [|l w IH]; intros [|c m]; simpl; try (split; congruence).
  rewrite andb_true_iff, IH. unfold same_letter. simpl. rewrite ascii_eqb_eq.
  split; [intros [-> ->]; reflexivity | intros H; now injection H].
Qed.

Lemma search_roi_percentage_iff (content : text) :
  re_search "\d+%.*roi|roi.*\d+%" true content = true <-> roi_percentage content.
Proof.
  rewrite (re_search_iff _ true roi_percentage_re content (proj2 parse_roi_patterns)).
  unfold roi_percentage, matches_at. split.
  - intros (pre & post & -> & st' & H). unfold roi_percentage_re, Plus in H.
    cbn [den lits] in H. destruct H as [H|H].
    + destruct H as (s1 & (s1a & H1 & H1') & s2 & H2 & s3 & H3 & s4 & H4 & s5 & H5 & H6).
      apply den_class_inv in H1, H2, H4, H5, H6.
      destruct H1 as (d1 & A1 & C1). destruct H2 as (p & A2 & C2).
      destruct H4 as (r & A4 & C4). destruct H5 as (o & A5 & C5).
      destruct H6 as (i & A6 & C6).
      rewrite in_digit_class in C1. apply in_lit_class_ic in C2, C4, C5, C6.
      assert (p = "%"%char) as ->.
      { revert C2. clear. destruct p as [[] [] [] [] [] [] [] []]; vm_compute;
          congruence. }
      apply (den_consumes true (fun c => is_digit c = true) (Star (Chr [CDigit])))
        in H1'; [|intros c Hc; now rewrite in_digit_class in Hc].
      apply (den_consumes true (fun c => c <> newline) (Star (Chr [CAny])))
        in H3; [|intros c Hc; now apply in_any_class in Hc].
      destruct H1' as (ds & A1' & _ & F1). destruct H3 as (m3 & A3 & _ & F3).
      destruct (digits_last d1 ds C1 F1) as (init & d & E & Hd & _).
      cbn [ahead fst snd] in A1.
      exists (pre ++ init), d, m3, [r; o; i], (ahead st').
      split; [exact Hd|].
      split; [apply reads_as_lower; simpl; now rewrite C4, C5, C6|].
      split; [now apply no_newline_forall|]. left.
      rewrite A1, A1', A2, A3, A4, A5, A6, app_comm_cons, E.
      simpl. now rewrite <- !app_assoc.
    + destruct H as (s1 & H1 & s2 & H2 & s3 & H3 & s4 & H4 & s5 & (s5a & H5 & H5') & H6).
      apply den_class_inv in H1, H2, H3, H5, H6.
      destruct H1 as (r & A1 & C1). destruct H2 as (o & A2 & C2).
      destruct H3 as (i & A3 & C3). destruct H5 as (d1 & A5 & C5).
      destruct H6 as (p & A6 & C6).
      rewrite in_digit_class in C5. apply in_lit_class_ic in C1, C2, C3, C6.
      assert (p = "%"%char) as ->.
      { revert C6. clear. destruct p as [[] [] [] [] [] [] [] []]; vm_compute;
          congruence. }
      apply (den_consumes true (fun c => is_digit c = true) (Star (Chr [CDigit])))
        in H5'; [|intros c Hc; now rewrite in_digit_class in Hc].
      apply (den_consumes true (fun c => c <> newline) (Star (Chr [CAny])))
        in H4; [|intros c Hc; now apply in_any_class in Hc].
      destruct H5' as (ds & A5' & _ & F5). destruct H4 as (m4 & A4 & _ & F4).
      destruct (digits_last d1 ds C5 F5) as (init & d & E & Hd & Hinit).
      cbn [ahead fst snd] in A1.
      exists pre, d, (m4 ++ init), [r; o; i], (ahead st').
      split; [exact Hd|].
      split; [apply reads_as_lower; simpl; now rewrite C1, C2, C3|].
      split.
      { apply no_newline_forall. apply Forall_app. split; [exact F4|].
        revert Hinit. apply Forall_impl. intros c. apply digit_not_newline. }
      right. rewrite A1, A2, A3, A4, A5, A5', A6.
      rewrite (app_comm_cons ds _ d1), E. simpl. now rewrite <- !app_assoc.
  - intros (pre & d & mid & w & post & Hd & Hw & Hmid & [-> | ->]);
      apply reads_as_lower in Hw; change (lower "roi") with "roi" in Hw;
      apply lower_three in Hw; destruct Hw as (r & o & i & -> & Hr & Ho & Hi).
    + exists pre, ([d] ++ "%" ++ mid ++ [r; o; i] ++ post). split; [reflexivity|].
      eexists. unfold roi_percentage_re, Plus. cbn [den lits app]. left.
      eexists. split.
      { eexists. split; [apply den_class; now rewrite in_digit_class|]. apply star_stop. }
      eexists. split; [apply den_class; reflexivity|].
      eexists. split; [apply (star_class_run true [CAny] mid); now apply forallb_any|].
      eexists. split; [apply den_class; now apply in_lit_class_ic|].
      eexists. split; [apply den_class; now apply in_lit_class_ic|].
      apply den_class; now apply in_lit_class_ic.
    + exists pre, ([r; o; i] ++ mid ++ [d] ++ "%" ++ post). split; [reflexivity|].
      eexists. unfold roi_percentage_re, Plus. cbn [den lits app]. right.
      eexists. split; [apply den_class; now apply in_lit_class_ic|].
      eexists. split; [apply den_class; now apply in_lit_class_ic|].
      eexists. split; [apply den_class; now apply in_lit_class_ic|].
      eexists. split; [apply (star_class_run true [CAny] mid); now apply forallb_any|].
      eexists. split.
      { eexists. split; [apply den_class; now rewrite in_digit_class|]. apply star_stop. }
      apply den_class; reflexivity.
Qed.

(** * The calculation pattern *)

Lemma parse_calc_pattern : parse calc_pattern = Some calc_re.
Proof. reflexivity. Qed.

Lemma replace_comma (s : text) :
  replace "," "" s = filter (fun c => negb (ascii_eqb "," c)) s.
Proof.
  unfold replace. induction s as [|c s IH]; [reflexivity|].
  cbn [replace_aux starts_with length Nat.sub app filter].
  rewrite andb_true_r. destruct (ascii_eqb "," c); cbn [negb]; now rewrite IH.
Qed.

Lemma filter_commas_figures (ip : text) :
  Forall (fun c => figure_char c = true) ip ->
  forallb is_digit (filter (fun c => negb (ascii_eqb "," c)) ip) = true.
Proof.
  induction 1 as [|c ip Hc _ IH]; [reflexivity|]. cbn [filter].
  destruct (ascii_eqb "," c) eqn:E; cbn [negb forallb]; [exact IH|].
  rewrite IH, andb_true_r.
  unfold figure_char in Hc. apply orb_true_iff in Hc. destruct Hc as [Hc|Hc];
    [exact Hc|]. apply ascii_eqb_eq in Hc. subst. discriminate E.
Qed.

Lemma filter_commas_digits (ds : text) :
  Forall (fun c => is_digit c = true) ds ->
  filter (fun c => negb (ascii_eqb "," c)) ds = ds.
Proof.
  induction 1 as [|c ds Hc _ IH]; [reflexivity|]. cbn [filter].
  destruct (ascii_eqb "," c) eqn:E.
  - apply ascii_eqb_eq in E. subst. discriminate Hc.
  - cbn [negb]. now rewrite IH.
Qed.

Lemma digits_no_point (ds : text) :
  forallb is_digit ds = true -> ~ In "."%char ds.
Proof.
  intros H Hin. rewrite forallb_forall in H. apply H in Hin. discriminate Hin.
Qed.

(** [float] reads every literal the pattern can capture. *)
Lemma py_float_decimal_literal (t : text) :
  decimal_literal t -> exists x, py_float (replace "," "" t) = Some x.
Proof.
  intros (d & ip & fp & -> & Hd & Hip & Hfp). rewrite replace_comma.
  change (d :: ip ++ fp) with ((d :: ip) ++ fp). rewrite filter_app.
  assert (Hhead : exists ip', filter (fun c => negb (ascii_eqb "," c)) (d :: ip) = d :: ip'
                              /\ forallb is_digit (d :: ip') = true).
  { cbn [filter]. destruct (ascii_eqb "," d) eqn:E.
    - apply ascii_eqb_eq in E. subst. discriminate Hd.
    - cbn [negb]. eexists. split; [reflexivity|]. cbn [forallb]. rewrite Hd.
      now apply filter_commas_figures. }
  destruct Hhead as (ip' & -> & Hdig).
  destruct Hfp as [->|(d' & ds & -> & Hds)].
  - rewrite app_nil_r. unfold py_float.
    rewrite (split_on_no_sep "." (d :: ip') (digits_no_point _ Hdig)).
    rewrite Hdig. cbn [is_empty negb andb]. eexists. reflexivity.
  - assert (Hf : filter (fun c => negb (ascii_eqb "," c)) ("."%char :: d' :: ds)
                 = "."%char :: d' :: ds).
    { change ("."%char :: d' :: ds) with ("." ++ (d' :: ds)). rewrite filter_app.
      now rewrite (filter_commas_digits _ Hds). }
    rewrite Hf. unfold py_float. rewrite split_on_app_sep.
    assert (Hds' : forallb is_digit (d' :: ds) = true).
    { apply forallb_forall. rewrite Forall_forall in Hds. exact Hds. }
    rewrite (split_on_no_sep "." (d :: ip') (digits_no_point _ Hdig)).
    rewrite (split_on_no_sep "." (d' :: ds) (digits_no_point _ Hds')).
    cbn [app]. rewrite Hdig, Hds'. cbn [is_empty negb andb app]. eexists. reflexivity.
Qed.

Lemma pow10_pos (k : nat) : exists p, (10 ^ Z.of_nat k)%Z = Zpos p.
Proof.
  assert (H : (0 < 10 ^ Z.of_nat k)%Z) by (apply Z.pow_pos_nonneg; lia).
  destruct (10 ^ Z.of_nat k)%Z as [|p|p]; try lia. now exists p.
Qed.

(** What [float] reads from a literal is the binary64 number nearest to
    the number the literal writes. *)
Lemma py_float_value (t : text) (A : float) :
  py_float (replace "," "" t) = Some A -> A = to_binary64 (decimal_value t).
Proof.
  unfold py_float, decimal_value, to_binary64.
  destruct (split_on "." (replace "," "" t)) as [|ip [|fp [|x l]]]; try discriminate.
  - destruct (_ && _); [|discriminate]. intros H. injection H as <-. reflexivity.
  - destruct (_ && _); [|discriminate]. intros H. injection H as <-.
    destruct (pow10_pos (length fp)) as [p Hp]. rewrite Hp.
    cbn. now rewrite Z.mul_1_r.
Qed.

Lemma alphabet_any (ic : bool) (r : regex) : alphabet ic (fun _ => True) r.
Proof. induction r; simpl; auto. Qed.

Lemma firstn_consumed (m x : text) :
  firstn (length (m ++ x) - length x) (m ++ x) = m.
Proof.
  rewrite length_app. replace (length m + length x - length x) with (length m) by lia.
  induction m as [|c m IH]; simpl; [now destruct x | now rewrite IH].
Qed.

(** A group captures the text its expression consumes. *)
Lemma den_group (ic : bool) (i : nat) (r : regex) (st st' : mstate) :
  den ic (Group i r) st st' ->
  exists st1 m,
    den ic r st st1 /\ ahead st = m ++ ahead st1
    /\ st' = (before st1, ahead st1, (i, m) :: captured st1).
Proof.
  simpl. intros (st1 & H1 & ->).
  destruct (den_consumes ic (fun _ => True) r (alphabet_any ic r) st st1 H1)
    as (m & Ha & _ & _).
  exists st1, m. split; [exact H1|]. split; [exact Ha|].
  rewrite Ha at 1 2. now rewrite firstn_consumed.
Qed.

Lemma figure_of_digit (c : ascii) : is_digit c = true -> figure_char c = true.
Proof. intros H. unfold figure_char. now rewrite H. Qed.

Lemma fraction_shape (st st' : mstate) :
  den false fraction_re st st' ->
  exists fp, ahead st = fp ++ ahead st'
    /\ (fp = [] \/ exists d' ds, fp = "."%char :: d' :: ds
                                 /\ Forall (fun c => is_digit c = true) (d' :: ds)).
Proof.
  unfold fraction_re, Opt, Plus, digit_re. cbn [den].
  intros [(s1 & H1 & s2 & H2 & H3) | ->].
  - apply den_class_inv in H1, H2. destruct H1 as (p & A1 & C1).
    destruct H2 as (d' & A2 & C2). apply in_lit_class in C1. subst p.
    rewrite in_digit_class in C2.
    apply (den_consumes false (fun c => is_digit c = true) (Star (Chr [CDigit])))
      in H3; [|intros c Hc; now rewrite in_digit_class in Hc].
    destruct H3 as (ds & A3 & _ & F3).
    exists ("."%char :: d' :: ds). split.
    + rewrite A1, A2, A3. reflexivity.
    + right. exists d', ds. split; [reflexivity | now constructor].
  - exists []. split; [reflexivity | now left].
Qed.

Lemma number_shape (st st' : mstate) :
  den false number_re st st' ->
  exists t, ahead st = t ++ ahead st' /\ decimal_literal t.
Proof.
  unfold number_re, Plus, digit_re. cbn [den].
  intros (s1 & (s1a & H1 & H1') & s2 & H2 & H3).
  apply den_class_inv in H1. destruct H1 as (d & A1 & C1). rewrite in_digit_class in C1.
  apply (den_consumes false (fun c => figure_char c = true) (Star (Chr [CDigit])))
    in H1'; [|intros c Hc; rewrite in_digit_class in Hc; now apply figure_of_digit].
  apply (den_consumes false (fun c => figure_char c = true)
           (Star (Seq (Chr [CLit ","]) (Times 3 (Chr [CDigit]))))) in H2.
  2:{ cbn [alphabet Times]. repeat split; auto; intros c Hc.
      - apply in_lit_class in Hc. now subst.
      - rewrite in_digit_class in Hc. now apply figure_of_digit.
      - rewrite in_digit_class in Hc. now apply figure_of_digit.
      - rewrite in_digit_class in Hc. now apply figure_of_digit. }
  apply fraction_shape in H3.
  destruct H1' as (m1 & A1' & _ & F1). destruct H2 as (m2 & A2 & _ & F2).
  destruct H3 as (fp & A3 & Hfp).
  exists (d :: (m1 ++ m2) ++ fp). split.
  - rewrite A1, A1', A2, A3. simpl. now rewrite <- !app_assoc.
  - exists d, (m1 ++ m2), fp. split; [reflexivity|]. split; [exact C1|].
    split; [|exact Hfp]. apply Forall_app. now split.
Qed.

Lemma factor_shape (st st' : mstate) :
  den false factor_re st st' ->
  exists t, ahead st = t ++ ahead st' /\ decimal_literal t.
Proof.
  unfold factor_re, Plus, digit_re. cbn [den].
  intros (s1 & (s1a & H1 & H1') & H3).
  apply den_class_inv in H1. destruct H1 as (d & A1 & C1). rewrite in_digit_class in C1.
  apply (den_consumes false (fun c => figure_char c = true) (Star (Chr [CDigit])))
    in H1'; [|intros c Hc; rewrite in_digit_class in Hc; now apply figure_of_digit].
  apply fraction_shape in H3.
  destruct H1' as (m1 & A1' & _ & F1). destruct H3 as (fp & A3 & Hfp).
  exists (d :: m1 ++ fp). split.
  - rewrite A1, A1', A3. simpl. now rewrite <- app_assoc.
  - exists d, m1, fp. repeat split; assumption.
Qed.

(** What a captured group of the calculation pattern holds. *)
Lemma group_captures_literal (i : nat) (r : regex) (st st' : mstate) :
  no_groups r = true ->
  (forall s s', den false r s s' -> exists t, ahead s = t ++ ahead s' /\ decimal_literal t) ->
  den false (Group i r) st st' ->
  exists t, decimal_literal t /\ captured st' = (i, t) :: captured st.
Proof.
  intros Hng Hshape H. apply den_group in H.
  destruct H as (st1 & m & H1 & Ha & ->).
  destruct (Hshape _ _ H1) as (t & Ha' & Ht).
  assert (m = t) as -> by (rewrite Ha' in Ha; now apply app_inv_tail in Ha).
  exists t. split; [exact Ht|]. cbn [captured snd].
  now rewrite (den_keeps_captures false r Hng _ _ H1).
Qed.

Lemma calc_re_captures (b s : text) (st' : mstate) :
  den false calc_re (b, s, []) st' ->
  exists t1 t2 t3,
    captured st' = [(3, t3); (2, t2); (1, t1)]
    /\ decimal_literal t1 /\ decimal_literal t2 /\ decimal_literal t3.
Proof.
  unfold calc_re. cbn [den].
  intros (s1 & H1 & s2 & H2 & s3 & H3 & s4 & H4 & s5 & H5 & s6 & H6 & s7 & H7
          & s8 & H8 & s9 & H9 & s10 & H10 & H11).
  apply (den_keeps_captures false (Opt (Chr [CLit "$"])) eq_refl) in H1.
  apply (group_captures_literal 1 number_re _ _ eq_refl number_shape) in H2.
  apply (den_keeps_captures false blanks_re eq_refl) in H3.
  apply (den_keeps_captures false (Chr [CLit "x"; CLit times_sign; CLit "*"]) eq_refl)
    in H4.
  apply (den_keeps_captures false blanks_re eq_refl) in H5.
  apply (group_captures_literal 2 factor_re _ _ eq_refl factor_shape) in H6.
  apply (den_keeps_captures false blanks_re eq_refl) in H7.
  apply (den_keeps_captures false (Chr [CLit "="]) eq_refl) in H8.
  apply (den_keeps_captures false blanks_re eq_refl) in H9.
  apply (den_keeps_captures false (Opt (Chr [CLit "$"])) eq_refl) in H10.
  apply (group_captures_literal 3 number_re _ _ eq_refl number_shape) in H11.
  destruct H2 as (t1 & L1 & C2). destruct H6 as (t2 & L2 & C6).
  destruct H11 as (t3 & L3 & C11).
  exists t1, t2, t3. split; [|auto].
  rewrite C11, H10, H9, H8, H7, C6, H5, H4, H3, C2, H1. reflexivity.
Qed.

Lemma findall_from_match (fuel : nat) (ic : bool) (r : regex) :
  forall (b s : text) (g : caps),
    In g (findall_from fuel ic r b s) ->
    exists b' s' st', den ic r (b', s', []) st' /\ g = captured st'.
Proof.
  induction fuel as [|fuel IH]; intros b s g Hin; simpl in Hin; [contradiction|].
  destruct (run ic r (b, s, []) Some) as [st'|] eqn:E.
  - destruct Hin as [<-|Hin].
    + apply run_sound in E. destruct E as (st1 & Hd & Hk). injection Hk as ->.
      now exists b, s, st'.
    + destruct (length (ahead st') <? length s); [now apply IH in Hin|].
      destruct s as [|c s]; [contradiction | now apply IH in Hin].
  - destruct s as [|c s]; [contradiction | now apply IH in Hin].
Qed.

(** Every match of the calculation pattern hands three literals that
    [float] reads. *)
Lemma findall_calc_literals (line m0 m1 m2 : text) :
  In (m0, m1, m2) (re_findall3 calc_pattern line) ->
  decimal_literal m0 /\ decimal_literal m1 /\ decimal_literal m2.
Proof.
  unfold re_findall3. rewrite parse_calc_pattern. intros Hin.
  apply in_map_iff in Hin. destruct Hin as (g & Hg & Hin).
  apply findall_from_match in Hin. destruct Hin as (b' & s' & st' & Hd & ->).
  apply calc_re_captures in Hd. destruct Hd as (t1 & t2 & t3 & Hc & L1 & L2 & L3).
  rewrite Hc in Hg. simpl in Hg. injection Hg as <- <- <-. auto.
Qed.

(** * The shape of a formatted number *)

Lemma digits_of_small (z : Z) :
  (0 <= z <= 9)%Z -> exists d, digits_of_Z z = [d] /\ is_digit d = true.
Proof.
  intros H.
  assert (Hz : (z = 0 \/ z = 1 \/ z = 2 \/ z = 3 \/ z = 4 \/ z = 5 \/ z = 6
                \/ z = 7 \/ z = 8 \/ z = 9)%Z) by lia.
  repeat (destruct Hz as [->|Hz]; [eexists; split; reflexivity|]).
  subst. eexists. split; reflexivity.
Qed.

(** A finite number is written with a point and two decimals. *)
Lemma format_two_decimals (s : bool) (m : positive) (e : Z) :
  exists int_part d1 d2,
    format_comma_2f (S754_finite s m e) = int_part ++ "." ++ [d1; d2]
    /\ is_digit d1 = true /\ is_digit d2 = true.
Proof.
  unfold format_comma_2f, two_digits.
  set (h := hundredths m e).
  pose proof (Z.mod_pos_bound h 100 eq_refl) as Hb.
  destruct (digits_of_small ((h mod 100) / 10)) as (d1 & E1 & D1).
  { split; [apply Z.div_pos; lia | apply Z.lt_succ_r, Z.div_lt_upper_bound; lia]. }
  destruct (digits_of_small ((h mod 100) mod 10)) as (d2 & E2 & D2).
  { pose proof (Z.mod_pos_bound (h mod 100) 10 eq_refl). lia. }
  rewrite E1, E2.
  exists ((if s then "-" else "") ++ with_commas (digits_of_Z (h / 100))), d1, d2.
  split; [now rewrite <- app_assoc | split; assumption].
Qed.

(** * The claims *)

(** C1. For every text, every context and every reading of the clock, both
    operations of the class succeed, and in the success record the overall
    score, the four quality sub-scores, the proposal readiness score and the
    four strategy sub-scores all lie between 0 and 100. *)
Theorem scores_in_range (content : text) (context : option Context) (clock : datetime) :
  (exists r, quality_assurance_review ClarityCPA content clock = Return (Success r)
     /\ in_range (overall_score r)
     /\ in_range (grammar (quality_dimensions r))
     /\ in_range (clarity (quality_dimensions r))
     /\ in_range (professionalism (quality_dimensions r))
     /\ float_in_range (completeness (quality_dimensions r)))
  /\
  (exists r, strategic_analysis ClarityCPA content context clock = Return (Success r)
     /\ float_in_range (proposal_readiness_score r)
     /\ in_range (value_proposition (proposal_strength_assessment r))
     /\ in_range (credibility (proposal_strength_assessment r))
     /\ in_range (urgency (proposal_strength_assessment r))
     /\ in_range (roi_clarity (proposal_strength_assessment r))).
Proof.
  split.
  - eexists. split; [reflexivity|].
    cbn [overall_score quality_dimensions grammar clarity professionalism completeness].
    split; [apply clamp_in_range|].
    split; [unfold _score_grammar, in_range; lia|].
    split; [apply score_clarity_in_range|].
    split; [apply clamp_in_range|].
    apply percentage_in_range; [simpl; lia | apply count_in_le].
  - eexists. split; [reflexivity|].
    cbn [proposal_readiness_score proposal_strength_assessment value_proposition
         credibility urgency roi_clarity].
    split.
    { unfold _analyze_proposal_strength. apply percentage_in_range.
      - rewrite length_map. simpl. lia.
      - apply filter_length_le. }
    split; [unfold _score_value_proposition, in_range; lia|].
    split; [unfold _score_credibility, in_range; lia|].
    split; [|apply score_roi_clarity_in_range].
    unfold _score_urgency, in_range.
    pose proof (weighted_hits_bounds 20
      ["urgent"; "critical"; "immediate"; "deadline"; "asap"; "emergency"]
      (lower content)). lia.
Qed.

(** The class as written raises nothing. *)
Lemma the_class_never_raises : faults_are_Exceptions ClarityCPA.
Proof. intros c e x. simpl. tauto. Qed.





(** With the corrupted rule table the review is the failure record. *)
Example corrupted_rules_review :
  quality_assurance_review corrupted_rules "Quarterly report" noon
  = Return (Failure "unterminated character set at position 2").
Proof. reflexivity. Qed.

(** C3, the claim as stated fails: in the line "1 x 1 = 1.01" the product
    and the result differ by 0.01, which does not exceed 0.01, and the
    detector emits a record all the same: it compares in binary64, where
    the number read from "1.01" is more than 0.01 above 1. *)
Lemma one_cent_is_reported :
  ~ QArith_base.Qlt one_hundredth
      (Qabs.Qabs (QArith_base.Qminus
                    (QArith_base.Qmult (decimal_value "1") (decimal_value "1"))
                    (decimal_value "1.01")))
  /\ re_findall3 calc_pattern "1 x 1 = 1.01" = [("1", "1", "1.01")]
  /\ calculation_errors (_detect_errors "1 x 1 = 1.01")
     = [CalculationDefect 1 (calc_expression "1" "1" "1.01") "1.00"
          "Should be 1.00, not 1.01"].
Proof.
  split; [vm_compute; discriminate|]. split; vm_compute; reflexivity.
Qed.

(** C3, amended. The calculation records of a document are those of its
    lines, in order, and those of a line are those of the successive
    matches of the pattern in it.  For every match, the three captured
    texts are decimal literals; with [A], [B], [C] the binary64 numbers
    nearest to the numbers they write, the match gives one record exactly
    when [|A * B - C|], computed in binary64, exceeds the binary64 number
    nearest to 0.01, and none otherwise; the record holds the expression
    and [A * B] with thousands separators and two decimals.  So
    "100 x 5 = 600" gives exactly one record, with expected value
    "500.00", and "100 x 5 = 500" none; "2 x 1 = 2.01" gives none and
    "1 x 1 = 1.01" one; separators are read and written
    ("1,250 x 4 = 4,000" expects "5,000.00"), and the expected value is
    rounded to two decimals ("0.125 x 1 = 0" expects "0.12"). *)
Theorem calculation_check :
  (forall content,
     calculation_errors (_detect_errors content)
     = flat_map (fun ln => flat_map (calculation_hit (fst ln))
                             (re_findall3 calc_pattern (snd ln)))
                (numbered_lines content))
  /\ (forall n line m0 m1 m2,
        In (m0, m1, m2) (re_findall3 calc_pattern line) ->
        let A := to_binary64 (decimal_value m0) in
        let B := to_binary64 (decimal_value m1) in
        let C := to_binary64 (decimal_value m2) in
        (decimal_literal m0 /\ decimal_literal m1 /\ decimal_literal m2)
        /\ calculation_hit n (m0, m1, m2)
           = if fltb one_hundredth_binary64 (fabs (fsub (fmul A B) C))
             then [CalculationDefect n (calc_expression m0 m1 m2)
                     (format_comma_2f (fmul A B))
                     ("Should be " ++ format_comma_2f (fmul A B) ++ ", not " ++ m2)]
             else [])
  /\ calculation_errors (_detect_errors "100 x 5 = 600")
     = [CalculationDefect 1 (calc_expression "100" "5" "600") "500.00"
          "Should be 500.00, not 600"]
  /\ calculation_errors (_detect_errors "100 x 5 = 500") = []
  /\ calculation_errors (_detect_errors "2 x 1 = 2.01") = []
  /\ calculation_errors (_detect_errors "1 x 1 = 1.01")
     = [CalculationDefect 1 (calc_expression "1" "1" "1.01") "1.00"
          "Should be 1.00, not 1.01"]
  /\ calculation_errors (_detect_errors "1,250 x 4 = 4,000")
     = [CalculationDefect 1 (calc_expression "1,250" "4" "4,000") "5,000.00"
          "Should be 5,000.00, not 4,000"]
  /\ calculation_errors (_detect_errors "0.125 x 1 = 0")
     = [CalculationDefect 1 (calc_expression "0.125" "1" "0") "0.12"
          "Should be 0.12, not 0"].
Proof.
  split; [|split].
  - intros content. rewrite detect_errors_eq. reflexivity.
  - intros n line m0 m1 m2 Hin A B C.
    destruct (findall_calc_literals line m0 m1 m2 Hin) as (L0 & L1 & L2).
    split; [now repeat split|].
    destruct (py_float_decimal_literal m0 L0) as [A' HA].
    destruct (py_float_decimal_literal m1 L1) as [B' HB].
    destruct (py_float_decimal_literal m2 L2) as [C' HC].
    unfold calculation_hit, check_calculation. rewrite HA, HB, HC.
    apply py_float_value in HA, HB, HC. subst A' B' C'. fold A B C.
    change tolerance with one_hundredth_binary64.
    destruct (fltb one_hundredth_binary64 (fabs (fsub (fmul A B) C))); reflexivity.
  - repeat split; vm_compute; reflexivity.
Qed.

(** An instance: the match of the line "1,250 x 4 = 4,000". *)
Lemma calculation_check_witness :
  In ("1,250", "4", "4,000") (re_findall3 calc_pattern "1,250 x 4 = 4,000")
  /\ (decimal_literal "1,250" /\ decimal_literal "4" /\ decimal_literal "4,000")
  /\ calculation_hit 1 ("1,250", "4", "4,000")
     = if fltb one_hundredth_binary64
            (fabs (fsub (fmul (to_binary64 (decimal_value "1,250"))
                              (to_binary64 (decimal_value "4")))
                        (to_binary64 (decimal_value "4,000"))))
       then [CalculationDefect 1 (calc_expression "1,250" "4" "4,000")
               (format_comma_2f (fmul (to_binary64 (decimal_value "1,250"))
                                      (to_binary64 (decimal_value "4"))))
               ("Should be "
                ++ format_comma_2f (fmul (to_binary64 (decimal_value "1,250"))
                                         (to_binary64 (decimal_value "4")))
                ++ ", not " ++ "4,000")]
       else [].
Proof.
  assert (H : In ("1,250", "4", "4,000") (re_findall3 calc_pattern "1,250 x 4 = 4,000"))
    by (vm_compute; left; reflexivity).
  split; [exact H|].
  exact (proj1 (proj2 calculation_check) 1 "1,250 x 4 = 4,000" "1,250" "4" "4,000" H).
Defined.

(** Thousands separators are read in the first and the last literal and
    written in the expected value. *)
Example separators :
  calculation_errors (_detect_errors "Total: $1,250.50 * 1000 = $1,250,000")
  = [CalculationDefect 1 (calc_expression "1,250.50" "1000" "1,250,000")
       "1,250,500.00" "Should be 1,250,500.00, not 1,250,000"].
Proof. vm_compute. reflexivity. Qed.

(** The multiplier takes no separator: such a line is not a match of the
    pattern, and nothing is checked in it. *)
Example separator_in_the_multiplier :
  re_findall3 calc_pattern "2 x 1,000 = 3,000" = [].
Proof. vm_compute. reflexivity. Qed.

(** A literal starts with a digit: of ".5" the pattern takes "5", and the
    line is checked as "5 x 4 = 2". *)
Example leading_point :
  calculation_errors (_detect_errors ".5 x 4 = 2")
  = [CalculationDefect 1 (calc_expression "5" "4" "2") "20.00"
       "Should be 20.00, not 2"].
Proof. vm_compute. reflexivity. Qed.

(** C4, the claim as stated fails: the review carries the reading of the
    clock, so two calls with the same text at different instants return
    different records. *)
Lemma review_depends_on_the_clock :
  quality_assurance_review ClarityCPA "Quarterly report" noon
  <> quality_assurance_review ClarityCPA "Quarterly report" just_after_noon.
Proof.
  intros H.
  apply (f_equal (fun o : outcome (AnalysisResult QualityReview) =>
                    match o with
                    | Return (Success r) => length (timestamp r)
                    | _ => 0
                    end)) in H.
  vm_compute in H. discriminate H.
Qed.

(** C4, amended. Two calls of [strategic_analysis] with the same text and
    the same context return the same result whatever the clock reads; two
    calls of [quality_assurance_review] with the same text return success
    records that agree on every field except [timestamp], which holds the
    reading of the clock at each call. *)
Theorem results_identical_up_to_timestamp
    (content : text) (context : option Context) (clock1 clock2 : datetime) :
  strategic_analysis ClarityCPA content context clock1
  = strategic_analysis ClarityCPA content context clock2
  /\ exists r,
       quality_assurance_review ClarityCPA content clock1
       = Return (Success (with_timestamp r (isoformat clock1)))
       /\ quality_assurance_review ClarityCPA content clock2
          = Return (Success (with_timestamp r (isoformat clock2))).
Proof.
  split; [reflexivity|].
  exists {| overall_score := _calculate_quality_score content (_detect_errors content);
            document_type := _classify_document content;
            reviewer := name ClarityCPA;
            errors_found := _detect_errors content;
            improvement_recommendations :=
              _generate_recommendations content (_detect_errors content);
            quality_dimensions :=
              {| grammar := _score_grammar content;
                 clarity := _score_clarity content;
                 professionalism := _score_professionalism content;
                 completeness := _score_completeness content |};
            timestamp := [] |}.
  split; reflexivity.
Qed.

(** C5, the claim as stated fails: the ROI pattern asks for digits followed
    by a percent sign, so a multiple such as "9.3x ROI" next to two dollar
    figures scores 75, not 95. *)
Lemma multiple_of_roi_scores_75 :
  let content := "Invest $350,000 to recover $3,250,000: a 9.3x ROI" in
  two_dollar_figures content
  /\ occurs "9.3x ROI" content
  /\ _score_roi_clarity content = 75%Z.
Proof.
  split; [|split].
  - apply search_figures_iff. reflexivity.
  - apply contains_iff. reflexivity.
  - reflexivity.
Qed.

(** Two dollar figures on different lines are not seen either. *)
Example figures_on_two_lines :
  _score_roi_clarity ("Investment: $350,000" ++ [newline] ++ "Recovery: $3,250,000")
  = 30%Z.
Proof. reflexivity. Qed.

(** C5, amended. The score has four tiers: 95 for a text with two dollar
    figures on one line and, on one line, a digit followed by a percent
    sign together with a stretch that [re.IGNORECASE] reads as "roi" (as
    in "250% ROI"); 75 for a text with two dollar figures on one line and
    no such percentage; 60 for a text without two dollar figures on one
    line whose lowercased form contains "roi"; 30 for a text with
    neither. *)
Theorem roi_clarity_tiers (content : text) :
  (two_dollar_figures content -> roi_percentage content ->
     _score_roi_clarity content = 95%Z)
  /\ (two_dollar_figures content -> ~ roi_percentage content ->
        _score_roi_clarity content = 75%Z)
  /\ (~ two_dollar_figures content -> occurs "roi" (lower content) ->
        _score_roi_clarity content = 60%Z)
  /\ (~ two_dollar_figures content -> ~ occurs "roi" (lower content) ->
        _score_roi_clarity content = 30%Z).
Proof.
  unfold _score_roi_clarity.
  pose proof (search_figures_iff content) as Hf.
  pose proof (search_roi_percentage_iff content) as Hp.
  pose proof (contains_iff "roi" (lower content)) as Hr.
  destruct (re_search "\$[\d,]+.*\$[\d,]+" false content);
    destruct (re_search "\d+%.*roi|roi.*\d+%" true content);
    destruct (contains "roi" (lower content));
    repeat split; intros; try reflexivity; exfalso;
    intuition congruence.
Qed.

(** An instance of each tier. *)
Lemma roi_clarity_tiers_witness :
  (two_dollar_figures "From $350,000 to $3,250,000: a 250% ROI"
   /\ roi_percentage "From $350,000 to $3,250,000: a 250% ROI"
   /\ _score_roi_clarity "From $350,000 to $3,250,000: a 250% ROI" = 95%Z)
  /\ (two_dollar_figures "From $350,000 to $3,250,000"
      /\ ~ roi_percentage "From $350,000 to $3,250,000"
      /\ _score_roi_clarity "From $350,000 to $3,250,000" = 75%Z)
  /\ (~ two_dollar_figures "A strong ROI"
      /\ occurs "roi" (lower "A strong ROI")
      /\ _score_roi_clarity "A strong ROI" = 60%Z)
  /\ (~ two_dollar_figures "A strong case"
      /\ ~ occurs "roi" (lower "A strong case")
      /\ _score_roi_clarity "A strong case" = 30%Z).
Proof.
  assert (Hyes : forall c, re_search "\$[\d,]+.*\$[\d,]+" false c = true ->
                   two_dollar_figures c) by (intros c; apply search_figures_iff).
  assert (Hno : forall c, re_search "\$[\d,]+.*\$[\d,]+" false c = false ->
                  ~ two_dollar_figures c).
  { intros c H Ht. apply search_figures_iff in Ht. congruence. }
  assert (Pno : forall c, re_search "\d+%.*roi|roi.*\d+%" true c = false ->
                  ~ roi_percentage c).
  { intros c H Ht. apply search_roi_percentage_iff in Ht. congruence. }
  assert (A1 : two_dollar_figures "From $350,000 to $3,250,000: a 250% ROI")
    by (apply Hyes; reflexivity).
  assert (A2 : roi_percentage "From $350,000 to $3,250,000: a 250% ROI")
    by (apply search_roi_percentage_iff; reflexivity).
  assert (B1 : two_dollar_figures "From $350,000 to $3,250,000")
    by (apply Hyes; reflexivity).
  assert (B2 : ~ roi_percentage "From $350,000 to $3,250,000")
    by (apply Pno; reflexivity).
  assert (C1 : ~ two_dollar_figures "A strong ROI") by (apply Hno; reflexivity).
  assert (C2 : occurs "roi" (lower "A strong ROI"))
    by (apply contains_iff; reflexivity).
  assert (D1 : ~ two_dollar_figures "A strong case") by (apply Hno; reflexivity).
  assert (D2 : ~ occurs "roi" (lower "A strong case"))
    by (apply contains_false_iff; reflexivity).
  split; [|split; [|split]].
  - split; [exact A1|split; [exact A2|]].
    exact (proj1 (roi_clarity_tiers _) A1 A2).
  - split; [exact B1|split; [exact B2|]].
    exact (proj1 (proj2 (roi_clarity_tiers _)) B1 B2).
  - split; [exact C1|split; [exact C2|]].
    exact (proj1 (proj2 (proj2 (roi_clarity_tiers _))) C1 C2).
  - split; [exact D1|split; [exact D2|]].
    exact (proj2 (proj2 (proj2 (roi_clarity_tiers _))) D1 D2).
Defined.

(** C6, the claim as stated fails: a vocabulary word counts once however
    often it is written.  A document with four occurrences of "urgent", 40
    points at 10 points per occurrence, has an urgency sum of 10 and does
    not get the "urgency" motivator. *)
Lemma urgent_repeated_is_no_motivator :
  let content := "urgent urgent urgent urgent" in
  (10 * occurrences "urgent" (lower content) > 20)
  /\ weighted_hits 10 urgency_words (lower content) = 10%Z
  /\ ~ In "urgency" (primary_motivators (_analyze_client_psychology content [])).
Proof.
  split; [|split].
  - vm_compute. lia.
  - reflexivity.
  - vm_compute. intuition discriminate.
Qed.

(** The same for any number of repetitions. *)
Lemma urgent_repeated_n_times (n : nat) (context : Context) :
  primary_motivators
    (_analyze_client_psychology (concat (repeat "urgent " n)) context) = [].
Proof.
  assert (Hlow : lower (concat (repeat "urgent " n)) = concat (repeat "urgent " n)).
  { induction n as [|n IH]; simpl; [reflexivity|].
    unfold lower in *. simpl. now rewrite IH. }
  assert (Hno : forall c word, In c word -> ~ In c "urgent " ->
                  contains word (concat (repeat "urgent " n)) = false).
  { intros c word Hc Hs. apply contains_false_iff.
    apply (not_occurs_missing_char c); [exact Hc|].
    intros Hin. apply Hs. now apply (concat_repeat_incl "urgent " n). }
  assert (Hchar : forall c : ascii, In c "urgent " ->
            c = "u"%char \/ c = "r"%char \/ c = "g"%char \/ c = "e"%char
            \/ c = "n"%char \/ c = "t"%char \/ c = " "%char).
  { simpl. intuition auto. }
  unfold _analyze_client_psychology, weighted_hits, count_in, urgency_words,
    fear_words, gain_words. rewrite Hlow. cbn [filter].
  rewrite (Hno "c"%char "critical"), (Hno "m"%char "immediate"),
    (Hno "c"%char "crisis"), (Hno "c"%char "emergency"),
    (Hno "i"%char "risk"), (Hno "l"%char "loss"), (Hno "f"%char "failure"),
    (Hno "d"%char "decline"), (Hno "h"%char "threat"),
    (Hno "o"%char "growth"), (Hno "i"%char "increase"), (Hno "i"%char "improve"),
    (Hno "b"%char "benefit"), (Hno "a"%char "advantage");
    try (simpl; tauto);
    try (intros Hin; apply Hchar in Hin; intuition discriminate).
  destruct (contains "urgent" (concat (repeat "urgent " n))); reflexivity.
Qed.

(** C6, amended. "urgency" is among the primary motivators exactly when at
    least three different words of the urgency vocabulary occur in the
    lowercased document, each word counting once; in particular a document
    whose only urgency word is "urgent" does not get it.  A document with
    no trigger word has no primary motivator and the triggers "clarity"
    and "trust". *)
Theorem motivators_need_three_distinct_words (content : text) (context : Context) :
  let insights := _analyze_client_psychology content context in
  (In "urgency" (primary_motivators insights)
     <-> 3 <= count_in urgency_words (lower content))
  /\ ((forall word, In word ["critical"; "immediate"; "crisis"; "emergency"] ->
         ~ occurs word (lower content)) ->
      ~ In "urgency" (primary_motivators insights))
  /\ ((forall word, In word (urgency_words ++ fear_words ++ gain_words) ->
         ~ occurs word (lower content)) ->
      primary_motivators insights = []
      /\ psychological_triggers insights = ["clarity"; "trust"]).
Proof.
  intros insights.
  assert (Hiff : In "urgency" (primary_motivators insights)
                 <-> 3 <= count_in urgency_words (lower content)).
  { unfold insights, _analyze_client_psychology. cbn [primary_motivators].
    rewrite !in_app_iff, !in_when. unfold weighted_hits. split.
    - intros [[H _]|[[_ H]|[_ H]]]; try discriminate. apply Z.ltb_lt in H. lia.
    - intros H. left. split; [|reflexivity]. apply Z.ltb_lt. lia. }
  split; [exact Hiff|split].
  - intros Hnone Hin. apply Hiff in Hin. revert Hin.
    unfold count_in, urgency_words. cbn [filter].
    rewrite (proj2 (contains_false_iff "critical" (lower content))),
      (proj2 (contains_false_iff "immediate" (lower content))),
      (proj2 (contains_false_iff "crisis" (lower content))),
      (proj2 (contains_false_iff "emergency" (lower content)));
      try (apply Hnone; simpl; tauto).
    destruct (contains "urgent" (lower content)); simpl; lia.
  - intros Hnone. unfold insights, _analyze_client_psychology, weighted_hits.
    rewrite !count_in_none.
    + split; reflexivity.
    + intros w Hw. apply Hnone. rewrite !in_app_iff. tauto.
    + intros w Hw. apply Hnone. rewrite !in_app_iff. tauto.
    + intros w Hw. apply Hnone. rewrite !in_app_iff. tauto.
Qed.

(** Instances: a document that only repeats "urgent", and one with no
    trigger word. *)
Lemma motivators_need_three_distinct_words_witness :
  ((forall word, In word ["critical"; "immediate"; "crisis"; "emergency"] ->
      ~ occurs word (lower "Urgent! Urgent! Urgent!"))
   /\ ~ In "urgency"
          (primary_motivators (_analyze_client_psychology "Urgent! Urgent! Urgent!" [])))
  /\ ((forall word, In word (urgency_words ++ fear_words ++ gain_words) ->
         ~ occurs word (lower "Minutes of the meeting"))
      /\ primary_motivators (_analyze_client_psychology "Minutes of the meeting" []) = []
      /\ psychological_triggers (_analyze_client_psychology "Minutes of the meeting" [])
         = ["clarity"; "trust"]).
Proof.
  assert (H1 : forall word, In word ["critical"; "immediate"; "crisis"; "emergency"] ->
                 ~ occurs word (lower "Urgent! Urgent! Urgent!")).
  { intros word Hin. apply contains_false_iff. simpl in Hin.
    repeat (destruct Hin as [<-|Hin]; [reflexivity|]). contradiction. }
  assert (H2 : forall word, In word (urgency_words ++ fear_words ++ gain_words) ->
                 ~ occurs word (lower "Minutes of the meeting")).
  { intros word Hin. apply contains_false_iff. simpl in Hin.
    repeat (destruct Hin as [<-|Hin]; [reflexivity|]). contradiction. }
  split.
  - split; [exact H1|].
    exact (proj1 (proj2 (motivators_need_three_distinct_words
                           "Urgent! Urgent! Urgent!" [])) H1).
  - split; [exact H2|].
    exact (proj2 (proj2 (motivators_need_three_distinct_words
                           "Minutes of the meeting" [])) H2).
Defined.

(** Three different urgency words do give the motivator. *)
Example three_urgency_words :
  primary_motivators
    (_analyze_client_psychology "An urgent and critical matter: immediate action" [])
  = ["urgency"].
Proof. vm_compute. reflexivity. Qed.

(** C7, the claim as stated fails: a second instance of a misspelling put
    into a line that already has one adds no record and leaves the overall
    score where it was, at 95. *)
Lemma second_instance_in_a_line_changes_nothing :
  let before := "We acheive results" in
  let after := before ++ ", " ++ "acheive" in
  length (spelling_errors (_detect_errors after))
  = length (spelling_errors (_detect_errors before))
  /\ _calculate_quality_score after (_detect_errors after) = 95%Z
  /\ _calculate_quality_score before (_detect_errors before) = 95%Z.
Proof. repeat split; vm_compute; reflexivity. Qed.

(** C7, amended. Appending a misspelling of the table as a new last line
    adds exactly one record, at the end of [spelling_errors], and no record
    of another kind; the overall score does not rise; and it falls, unless
    it is already 0, whenever the points before the clamp did not exceed
    100 and the new line does not earn the length bonus. *)
Theorem misspelling_on_a_new_line (content : text) (rule : text * text) :
  In rule spelling_patterns ->
  let word := spelling_text (fst rule) in
  let content' := content ++ newline :: word in
  let errors := _detect_errors content in
  let errors' := _detect_errors content' in
  let score := _calculate_quality_score content errors in
  let score' := _calculate_quality_score content' errors' in
  spelling_errors errors'
  = spelling_errors errors
    ++ [PatternDefect (S (length (split_on newline content))) word (snd rule) word]
  /\ grammar_errors errors' = grammar_errors errors
  /\ calculation_errors errors' = calculation_errors errors
  /\ (score' <= score)%Z
  /\ ((quality_points content errors <= 100)%Z ->
      (500 <? length content') = (500 <? length content) ->
      (score' < score)%Z \/ score = 0%Z).
Proof.
  intros Hin word content' errors errors' score score'.
  destruct (misspelling_alone_in_a_line rule (S (length (split_on newline content))) Hin)
    as (Hnl & Hsp & Hgr & Hca & Hdollar & Hfin & Hlow).
  fold word in Hnl, Hsp, Hgr, Hca, Hdollar, Hfin, Hlow.
  assert (Hsp' : spelling_errors errors'
                 = spelling_errors errors
                   ++ [PatternDefect (S (length (split_on newline content))) word
                         (snd rule) word]).
  { unfold errors', errors, content'. rewrite !detect_errors_eq. cbn [spelling_errors].
    rewrite (numbered_lines_new_line content word Hnl), flat_map_app.
    cbn [flat_map]. now rewrite Hsp, app_nil_r. }
  assert (Hgr' : grammar_errors errors' = grammar_errors errors).
  { unfold errors', errors, content'. rewrite !detect_errors_eq. cbn [grammar_errors].
    rewrite (numbered_lines_new_line content word Hnl), flat_map_app.
    cbn [flat_map]. now rewrite Hgr, !app_nil_r. }
  assert (Hca' : calculation_errors errors' = calculation_errors errors).
  { unfold errors', errors, content'. rewrite !detect_errors_eq. cbn [calculation_errors].
    rewrite (numbered_lines_new_line content word Hnl), flat_map_app.
    cbn [flat_map]. now rewrite Hca, !app_nil_r. }
  assert (Htot : total_errors errors' = S (total_errors errors)).
  { unfold total_errors, items. cbn [fold_right snd]. rewrite Hsp', Hgr', Hca'.
    unfold errors', errors. rewrite !detect_errors_eq.
    cbn [consistency_errors logic_errors]. rewrite length_app. simpl. lia. }
  assert (Hfinb : contains "$" content'
                  && any_in ["roi"; "investment"; "return"] (lower content')
                  = contains "$" content
                    && any_in ["roi"; "investment"; "return"] (lower content)).
  { unfold content'. rewrite lower_app. change (lower (newline :: word))
      with (newline :: lower word). rewrite Hlow.
    unfold any_in in Hfin |- *. cbn [existsb] in Hfin |- *.
    rewrite !contains_app_sep
      by (try discriminate; vm_compute; intuition discriminate).
    rewrite Hdollar.
    rewrite Hlow in Hfin. apply orb_false_iff in Hfin. destruct Hfin as [-> Hfin].
    apply orb_false_iff in Hfin. destruct Hfin as [-> Hfin].
    apply orb_false_iff in Hfin. destruct Hfin as [-> _].
    now rewrite !orb_false_r. }
  assert (Hlen : length content <= length content').
  { unfold content'. rewrite length_app. lia. }
  assert (Hbonus : (bonus content <= bonus content' <= bonus content + 5)%Z
                   /\ ((500 <? length content') = (500 <? length content) ->
                       bonus content' = bonus content)).
  { unfold bonus. rewrite Hfinb. split.
    - destruct (500 <? length content) eqn:E1;
        destruct (500 <? length content') eqn:E2;
        destruct (contains "$" content && any_in _ (lower content)); try lia;
        apply Nat.ltb_lt in E1; apply Nat.ltb_ge in E2; lia.
    - now intros ->. }
  destruct Hbonus as [Hb1 Hb2].
  split; [exact Hsp'|]. split; [exact Hgr'|]. split; [exact Hca'|].
  unfold score, score', _calculate_quality_score.
  rewrite (quality_points_eq content), (quality_points_eq content'), Htot.
  split.
  - apply clamp_mono. lia.
  - intros Hq Hl. rewrite (Hb2 Hl). unfold clamp. unfold errors in *. lia.
Qed.

(** An instance: "recieve" appended to a one-line document. *)
Lemma misspelling_on_a_new_line_witness :
  In ("\brecieve\b", "receive") spelling_patterns
  /\ let word := "recieve" in
     let content := "We acheive results" in
     let content' := content ++ newline :: word in
     let errors := _detect_errors content in
     let errors' := _detect_errors content' in
     let score := _calculate_quality_score content errors in
     let score' := _calculate_quality_score content' errors' in
     spelling_errors errors'
     = spelling_errors errors
       ++ [PatternDefect (S (length (split_on newline content))) word "receive" word]
     /\ grammar_errors errors' = grammar_errors errors
     /\ calculation_errors errors' = calculation_errors errors
     /\ (score' <= score)%Z
     /\ ((quality_points content errors <= 100)%Z ->
         (500 <? length content') = (500 <? length content) ->
         (score' < score)%Z \/ score = 0%Z).
Proof.
  assert (H : In ("\brecieve\b", "receive") spelling_patterns) by (simpl; tauto).
  split; [exact H|].
  exact (misspelling_on_a_new_line "We acheive results" ("\brecieve\b", "receive") H).
Defined.

(** With both bonuses the points stay above 100 and the score stays at the
    ceiling. *)
Example misspelling_under_the_ceiling :
  let content := "The return on a $500 stake" in
  _calculate_quality_score content (_detect_errors content) = 100%Z
  /\ _calculate_quality_score (content ++ newline :: "recieve")
       (_detect_errors (content ++ newline :: "recieve")) = 100%Z.
Proof. split; vm_compute; reflexivity. Qed.

(** C8. Classification goes through the categories in order and stops at
    the first that has a keyword in the lowercased text: a text that
    contains "investment" and "proposal" is a business proposal, as is any
    text that mentions a proposal keyword; failing that, a report keyword
    makes it a business report; failing both, a communication keyword makes
    it a business communication; and a text that mentions no keyword of any
    category is a general business document. *)
Theorem classification_by_priority (content : text) :
  (occurs "investment" content -> occurs "proposal" content ->
     _classify_document content = "business_proposal")
  /\ (mentions proposal_keywords content ->
        _classify_document content = "business_proposal")
  /\ (~ mentions proposal_keywords content -> mentions report_keywords content ->
        _classify_document content = "business_report")
  /\ (~ mentions proposal_keywords content -> ~ mentions report_keywords content ->
      mentions communication_keywords content ->
        _classify_document content = "business_communication")
  /\ (~ mentions proposal_keywords content -> ~ mentions report_keywords content ->
      ~ mentions communication_keywords content ->
        _classify_document content = "general_business_document").
Proof.
  assert (Hp : mentions proposal_keywords content ->
               _classify_document content = "business_proposal").
  { intros H. apply any_in_lower_iff in H. unfold _classify_document.
    unfold proposal_keywords in H. now rewrite H. }
  split; [|split; [exact Hp|split; [|split]]].
  - intros _ H. apply Hp. exists "proposal". split; [simpl; tauto|].
    apply occurs_lower; [reflexivity | exact H].
  - intros H1 H2. apply any_in_lower_false in H1. apply any_in_lower_iff in H2.
    unfold _classify_document. unfold proposal_keywords in H1.
    unfold report_keywords in H2. now rewrite H1, H2.
  - intros H1 H2 H3. apply any_in_lower_false in H1. apply any_in_lower_false in H2.
    apply any_in_lower_iff in H3. unfold _classify_document.
    unfold proposal_keywords in H1. unfold report_keywords in H2.
    unfold communication_keywords in H3. now rewrite H1, H2, H3.
  - intros H1 H2 H3. apply any_in_lower_false in H1. apply any_in_lower_false in H2.
    apply any_in_lower_false in H3. unfold _classify_document.
    unfold proposal_keywords in H1. unfold report_keywords in H2.
    unfold communication_keywords in H3. now rewrite H1, H2, H3.
Qed.

(** Instances: a proposal, a report and a general document. *)
Lemma classification_by_priority_witness :
  (occurs "investment" "An investment proposal"
   /\ occurs "proposal" "An investment proposal"
   /\ _classify_document "An investment proposal" = "business_proposal")
  /\ (~ mentions proposal_keywords "Quarterly Report"
      /\ mentions report_keywords "Quarterly Report"
      /\ _classify_document "Quarterly Report" = "business_report")
  /\ (~ mentions proposal_keywords "Hello world"
      /\ ~ mentions report_keywords "Hello world"
      /\ ~ mentions communication_keywords "Hello world"
      /\ _classify_document "Hello world" = "general_business_document").
Proof.
  assert (Hno : forall words content,
            any_in words (lower content) = false -> ~ mentions words content).
  { intros words content H Hm. apply any_in_lower_iff in Hm. congruence. }
  assert (A1 : occurs "investment" "An investment proposal")
    by (apply contains_iff; reflexivity).
  assert (A2 : occurs "proposal" "An investment proposal")
    by (apply contains_iff; reflexivity).
  assert (B1 : ~ mentions proposal_keywords "Quarterly Report")
    by (apply Hno; reflexivity).
  assert (B2 : mentions report_keywords "Quarterly Report")
    by (apply any_in_lower_iff; reflexivity).
  assert (C1 : ~ mentions proposal_keywords "Hello world") by (apply Hno; reflexivity).
  assert (C2 : ~ mentions report_keywords "Hello world") by (apply Hno; reflexivity).
  assert (C3 : ~ mentions communication_keywords "Hello world")
    by (apply Hno; reflexivity).
  split; [|split].
  - split; [exact A1|split; [exact A2|]].
    exact (proj1 (classification_by_priority "An investment proposal") A1 A2).
  - split; [exact B1|split; [exact B2|]].
    exact (proj1 (proj2 (proj2 (classification_by_priority "Quarterly Report"))) B1 B2).
  - split; [exact C1|split; [exact C2|split; [exact C3|]]].
    exact (proj2 (proj2 (proj2 (proj2 (classification_by_priority "Hello world"))))
             C1 C2 C3).
Defined.

(** C9, the claim as stated fails: the record of "accurate" is there, but
    the five points it costs are taken before the clamp, and the bonus
    for a dollar sign next to "return" absorbs them.  The document scores
    100 with the record, as it does with the record left out and as the
    same document without the word does. *)
Lemma accurate_can_cost_nothing :
  let content := "An accurate return on a $500 stake" in
  (exists r,
     quality_assurance_review ClarityCPA content noon = Return (Success r)
     /\ spelling_errors (errors_found r)
        = [PatternDefect 1 "accurate" "accurate" content]
     /\ overall_score r = 100%Z)
  /\ _calculate_quality_score content (with_spelling (_detect_errors content) [])
     = 100%Z
  /\ _calculate_quality_score "A return on a $500 stake"
       (_detect_errors "A return on a $500 stake") = 100%Z.
Proof.
  split; [|split].
  - eexists. split; [reflexivity|]. split; vm_compute; reflexivity.
  - vm_compute. reflexivity.
  - vm_compute. reflexivity.
Qed.

(** C9, amended. Every document in which "accurate" stands as a whole
    word, in any case, gets a spelling record for the line the word is
    in, with the text and the suggestion "accurate".  The record costs 5
    points before the clamp: with [points] the sum of 100 and the bonuses
    less 5 for every other record, the overall score is the clamp to
    [0,100] of [points - 5], where it would be the clamp of [points]
    without the record; so the score is 5 lower than without the record
    when [points] lies between 5 and 100, and the clamp can absorb the
    deduction otherwise. *)
Theorem accurate_is_flagged (pre w post : text) (clock : datetime) :
  lower w = "accurate" -> word_boundaries pre post ->
  exists r n line l1 l2,
    quality_assurance_review ClarityCPA (pre ++ w ++ post) clock = Return (Success r)
    /\ nth_error (split_on newline (pre ++ w ++ post)) n = Some line
    /\ spelling_errors (errors_found r)
       = l1 ++ PatternDefect (S n) "accurate" "accurate" (strip line) :: l2
    /\ let without := with_spelling (errors_found r) (l1 ++ l2) in
       let points :=
         (100 + bonus (pre ++ w ++ post) - 5 * Z.of_nat (total_errors without))%Z in
       overall_score r = clamp 0 100 (points - 5)
       /\ _calculate_quality_score (pre ++ w ++ post) without = clamp 0 100 points
       /\ ((5 <= points <= 100)%Z ->
           overall_score r
           = (_calculate_quality_score (pre ++ w ++ post) without - 5)%Z).
Proof.
  intros Hw [Hb Ha].
  assert (Hnl : ~ In newline w).
  { intros Hin. apply in_lower in Hin. rewrite Hw in Hin. simpl in Hin.
    intuition discriminate. }
  destruct (line_of_occurrence pre w post Hnl) as (n & l & h & Hline & Hl & Hh).
  assert (Hfound : re_search "\baccurate\b" true (l ++ w ++ h) = true).
  { apply (re_search_iff "\baccurate\b" true (Seq WordB (lits "accurate" WordB))).
    - apply parse_word_rules.
    - exists l, (w ++ h). split; [reflexivity|].
      apply word_rule_found; auto; discriminate. }
  assert (Hin : In (PatternDefect (S n) "accurate" "accurate" (strip (l ++ w ++ h)))
                   (spelling_errors (_detect_errors (pre ++ w ++ post)))).
  { rewrite detect_errors_eq. cbn [spelling_errors]. apply in_flat_map.
    exists (S n, l ++ w ++ h). split.
    - unfold numbered_lines. apply in_enumerate. split; [lia|].
      replace (S n - 1) with n by lia. exact Hline.
    - unfold spelling_hits. apply in_flat_map.
      exists ("\baccurate\b", "accurate"). split; [simpl; tauto|].
      unfold pattern_hit. cbn [fst snd]. rewrite Hfound. now left. }
  apply in_split in Hin. destruct Hin as (l1 & l2 & Hsplit).
  eexists. exists n, (l ++ w ++ h), l1, l2.
  split; [reflexivity|]. split; [exact Hline|]. split; [exact Hsplit|].
  cbn [overall_score errors_found]. unfold _calculate_quality_score.
  rewrite !quality_points_eq, (total_errors_with_spelling _ l1 l2 _ Hsplit).
  split; [f_equal; lia|]. split; [reflexivity|].
  intros Hrange. unfold clamp. lia.
Qed.

(** An instance: the word capitalised, inside a sentence. *)
Lemma accurate_is_flagged_witness :
  lower "Accurate" = "accurate"
  /\ word_boundaries "Figures are " " to the cent."
  /\ exists r n line l1 l2,
       quality_assurance_review ClarityCPA
         ("Figures are " ++ "Accurate" ++ " to the cent.") noon = Return (Success r)
       /\ nth_error (split_on newline ("Figures are " ++ "Accurate" ++ " to the cent.")) n
          = Some line
       /\ spelling_errors (errors_found r)
          = l1 ++ PatternDefect (S n) "accurate" "accurate" (strip line) :: l2
       /\ let without := with_spelling (errors_found r) (l1 ++ l2) in
          let points :=
            (100 + bonus ("Figures are " ++ "Accurate" ++ " to the cent.")
             - 5 * Z.of_nat (total_errors without))%Z in
          overall_score r = clamp 0 100 (points - 5)
          /\ _calculate_quality_score
               ("Figures are " ++ "Accurate" ++ " to the cent.") without
             = clamp 0 100 points
          /\ ((5 <= points <= 100)%Z ->
              overall_score r
              = (_calculate_quality_score
                   ("Figures are " ++ "Accurate" ++ " to the cent.") without - 5)%Z).
Proof.
  split; [reflexivity|]. split; [split; reflexivity|].
  apply (accurate_is_flagged "Figures are " "Accurate" " to the cent." noon).
  - reflexivity.
  - split; reflexivity.
Defined.

(** The correctly spelled sentence scores 95. *)
Example accurate_costs_five_points :
  _detect_errors "Figures are accurate to the cent."
  = {| spelling_errors :=
         [PatternDefect 1 "accurate" "accurate" "Figures are accurate to the cent."];
       grammar_errors := []; consistency_errors := [];
       calculation_errors := []; logic_errors := [] |}
  /\ _calculate_quality_score "Figures are accurate to the cent."
       (_detect_errors "Figures are accurate to the cent.") = 95%Z.
Proof. split; vm_compute; reflexivity. Qed.

(** C10. For every document, every rule of the spelling table or of the
    grammar table, and every line: the inventory holds at most one record
    of that rule for that line; it holds exactly one when the pattern is
    found in the line, however many times, and none otherwise; and over
    the whole document the rule has as many records as there are lines
    in which its pattern is found. *)
Theorem one_record_per_line_and_rule
    (content : text) (k : rule_kind) (rule : text * text) (i : nat) :
  In rule (rule_table k) ->
  let found :=
    records_of (rule_display k) rule (kind_errors k (_detect_errors content)) in
  length (records_at (S i) found) <= 1
  /\ (forall line, nth_error (split_on newline content) i = Some line ->
        records_at (S i) found
        = if re_search (fst rule) true line
          then [PatternDefect (S i) (rule_display k (fst rule)) (snd rule) (strip line)]
          else [])
  /\ length found
     = length (filter (fun line => re_search (fst rule) true line)
                      (split_on newline content)).
Proof.
  intros Hin found.
  assert (Hfound : found
            = flat_map (fun ln => pattern_hit (rule_display k) (fst ln) (snd ln) rule)
                       (numbered_lines content)).
  { unfold found. rewrite kind_errors_eq.
    apply records_of_lines; [apply rule_texts_distinct | exact Hin]. }
  assert (Hat : records_at (S i) found
            = match nth_error (split_on newline content) i with
              | Some line => pattern_hit (rule_display k) (S i) line rule
              | None => []
              end).
  { rewrite Hfound. unfold numbered_lines. rewrite records_at_enumerate.
    replace (S i - 1) with i by lia. reflexivity. }
  split; [|split].
  - rewrite Hat. destruct (nth_error _ i); [apply length_pattern_hit | simpl; lia].
  - intros line Hline. rewrite Hat, Hline. reflexivity.
  - rewrite Hfound, length_pattern_hits. unfold numbered_lines.
    apply (filter_enumerate_length (fun line => re_search (fst rule) true line)).
Qed.

(** An instance: a misspelling twice in the first line and once in the
    second. *)
Lemma one_record_per_line_and_rule_witness :
  In ("\bacheive\b", "achieve") (rule_table Spelling)
  /\ let found :=
       records_of (rule_display Spelling) ("\bacheive\b", "achieve")
         (kind_errors Spelling
            (_detect_errors ("acheive and acheive" ++ [newline] ++ "acheive"))) in
     length (records_at 1 found) <= 1
     /\ (forall line,
           nth_error (split_on newline ("acheive and acheive" ++ [newline] ++ "acheive")) 0
           = Some line ->
           records_at 1 found
           = if re_search "\bacheive\b" true line
             then [PatternDefect 1 (rule_display Spelling "\bacheive\b") "achieve"
                     (strip line)]
             else [])
     /\ length found
        = length (filter (fun line => re_search "\bacheive\b" true line)
                         (split_on newline ("acheive and acheive" ++ [newline] ++ "acheive"))).
Proof.
  split.
  - simpl. left. reflexivity.
  - apply (one_record_per_line_and_rule
             ("acheive and acheive" ++ [newline] ++ "acheive") Spelling
             ("\bacheive\b", "achieve") 0).
    simpl. left. reflexivity.
Defined.

(** A pattern twice in one line gives one record; once in each of two
    lines gives two. *)
Example twice_in_one_line :
  spelling_errors (_detect_errors "acheive and acheive")
  = [PatternDefect 1 "acheive" "achieve" "acheive and acheive"].
Proof. vm_compute. reflexivity. Qed.

Example once_in_two_lines :
  spelling_errors (_detect_errors ("acheive and" ++ [newline] ++ "acheive"))
  = [PatternDefect 1 "acheive" "achieve" "acheive and";
     PatternDefect 2 "acheive" "achieve" "acheive"].
Proof. vm_compute. reflexivity. Qed.


(** * The demonstration of [main.py] *)

Example demo_quality_review :
  exists r,
    quality_assurance_review ClarityCPA sample_text noon = Return (Success r)
    /\ overall_score r = 90%Z
    /\ document_type r = "business_proposal"
    /\ map defect_line (spelling_errors (errors_found r)) = [4; 4; 4; 4; 8]
    /\ grammar_errors (errors_found r) = []
    /\ calculation_errors (errors_found r) = []
    /\ improvement_recommendations r
       = ["Use spell-check tools to catch common spelling mistakes"]
    /\ grammar (quality_dimensions r) = 100%Z
    /\ clarity (quality_dimensions r) = 85%Z
    /\ professionalism (quality_dimensions r) = 88%Z
    /\ completeness (quality_dimensions r) = percentage 4 6.
Proof.
  eexists. split; [vm_compute; reflexivity|].
  repeat split; vm_compute; reflexivity.
Qed.

Example demo_strategic_analysis :
  exists r,
    strategic_analysis ClarityCPA business_proposal
      (Some [("company", "Healthcare Company"); ("urgency", "high");
             ("industry", "Healthcare")]) noon
    = Return (Success r)
    /\ proposal_readiness_score r = percentage 6 7
    /\ proposal_strength_assessment r
       = {| value_proposition := 30; credibility := 30;
            urgency := 20; roi_clarity := 60 |}
    /\ primary_motivators (client_psychology_insights r) = []
    /\ strategic_recommendations r
       = ["Add client testimonials or case study references";
          "Expand content with more detailed implementation plan";
          "Include risk mitigation strategies";
          "Add competitive differentiation section"].
Proof.
  eexists. split; [vm_compute; reflexivity|].
  repeat split; vm_compute; reflexivity.
Qed.

(** * Beyond the claims: the rest of the engine *)

(** ** The overall score *)

Lemma bonus_bounds (content : text) : (0 <= bonus content <= 15)%Z.
Proof.
  unfold bonus. destruct (500 <? length content);
    destruct (contains "$" content && any_in _ (lower content)); lia.
Qed.

Lemma bonus_multiple (content : text) : exists k, bonus content = (5 * k)%Z.
Proof.
  unfold bonus. destruct (500 <? length content);
    destruct (contains "$" content && any_in _ (lower content)).
  - now exists 3%Z.
  - now exists 1%Z.
  - now exists 2%Z.
  - now exists 0%Z.
Qed.

(** X1. The overall score as a function of the number of records: an
    inventory without records scores 100 whatever the text, so a score
    below 100 means that a record was found; from 23 records on the score
    is 0 whatever the bonuses; an inventory with more records never scores
    higher for the same text; and the score is a multiple of 5. *)
Theorem quality_score_by_record_count (content : text) (errors : DefectInventory) :
  (total_errors errors = 0 -> _calculate_quality_score content errors = 100%Z)
  /\ ((_calculate_quality_score content errors < 100)%Z -> 1 <= total_errors errors)
  /\ (23 <= total_errors errors -> _calculate_quality_score content errors = 0%Z)
  /\ (forall errors', total_errors errors <= total_errors errors' ->
        (_calculate_quality_score content errors'
         <= _calculate_quality_score content errors)%Z)
  /\ (exists k, _calculate_quality_score content errors = (5 * k)%Z).
Proof.
  unfold _calculate_quality_score. rewrite quality_points_eq.
  pose proof (bonus_bounds content) as Hb.
  destruct (bonus_multiple content) as [kb Hkb].
  split; [|split; [|split; [|split]]].
  - intros ->. unfold clamp. lia.
  - unfold clamp. lia.
  - intros H. unfold clamp. lia.
  - intros errors' H. rewrite quality_points_eq. apply clamp_mono. lia.
  - unfold clamp.
    destruct (Z.le_gt_cases (100 + bonus content - 5 * Z.of_nat (total_errors errors)) 0).
    + exists 0%Z. lia.
    + destruct (Z.le_gt_cases 100
                  (100 + bonus content - 5 * Z.of_nat (total_errors errors))).
      * exists 20%Z. lia.
      * exists (20 + kb - Z.of_nat (total_errors errors))%Z. lia.
Qed.

(** Instances: the empty inventory, and an inventory of 23 records. *)
Lemma quality_score_by_record_count_witness :
  (total_errors empty_inventory = 0
   /\ _calculate_quality_score "Net 30 days" empty_inventory = 100%Z)
  /\ (23 <= total_errors
              (with_spelling empty_inventory
                 (repeat (PatternDefect 1 "acheive" "achieve" "acheive") 23))
      /\ _calculate_quality_score "Net 30 days"
           (with_spelling empty_inventory
              (repeat (PatternDefect 1 "acheive" "achieve" "acheive") 23)) = 0%Z).
Proof.
  assert (H0 : total_errors empty_inventory = 0) by reflexivity.
  assert (H23 : 23 <= total_errors
                   (with_spelling empty_inventory
                      (repeat (PatternDefect 1 "acheive" "achieve" "acheive") 23)))
    by (vm_compute; lia).
  split.
  - split; [exact H0|].
    exact (proj1 (quality_score_by_record_count "Net 30 days" empty_inventory) H0).
  - split; [exact H23|].
    exact (proj1 (proj2 (proj2 (quality_score_by_record_count "Net 30 days" _))) H23).
Defined.

(** ** Professional tone *)

(** X2. The two clamps of the professionalism score never act: the score is
    85, plus 3 for each professional word found, minus 10 for each
    informal word found, and it stays between 35 and 100. *)
Theorem professionalism_is_linear (content : text) :
  _score_professionalism content
  = (85 + 3 * Z.of_nat (count_in professional_words (lower content))
     - 10 * Z.of_nat (count_in informal_words (lower content)))%Z
  /\ (35 <= _score_professionalism content <= 100)%Z.
Proof.
  unfold _score_professionalism, clamp.
  pose proof (count_in_le professional_words (lower content)) as Hp.
  pose proof (count_in_le informal_words (lower content)) as Hi.
  change (length professional_words) with 5 in Hp.
  change (length informal_words) with 5 in Hi.
  fold professional_words informal_words. lia.
Qed.

(** ** The strength sub-scores *)

Lemma count_in_all (words : list text) (s : text) :
  count_in words s = length words <-> forall word, In word words -> occurs word s.
Proof.
  unfold count_in. induction words as [|w words IH]; simpl.
  - split; [intros _ word [] | reflexivity].
  - pose proof (filter_length_le (fun word => contains word s) words) as Hle.
    destruct (contains w s) eqn:E; simpl.
    + split.
      * intros H word [<-|Hin]; [now apply contains_iff|].
        apply IH; [lia | exact Hin].
      * intros H. f_equal. apply IH. intros word Hin. apply H. now right.
    + split; [lia|]. intros H. exfalso.
      assert (Ho : occurs w s) by (apply H; now left).
      apply contains_iff in Ho. congruence.
Qed.

(** X3. The three word-count sub-scores.  Credibility is 15 per factor
    found with a floor of 30, and never exceeds 90: its cap at 100 never
    acts.  The value proposition score reaches 100 exactly when all seven
    indicators occur, and the urgency score exactly when at least five of
    its six words occur. *)
Theorem strength_sub_scores (content : text) :
  (_score_credibility content
   = Z.max 30 (15 * Z.of_nat (count_in credibility_factors (lower content)))
   /\ (30 <= _score_credibility content <= 90)%Z)
  /\ (_score_value_proposition content = 100%Z
      <-> forall word, In word value_indicators -> occurs word (lower content))
  /\ (_score_urgency content = 100%Z
      <-> 5 <= count_in urgency_indicators (lower content)).
Proof.
  split; [|split].
  - unfold _score_credibility, weighted_hits. fold credibility_factors.
    pose proof (count_in_le credibility_factors (lower content)) as H.
    change (length credibility_factors) with 6 in H. lia.
  - rewrite <- count_in_all. unfold _score_value_proposition, weighted_hits.
    fold value_indicators.
    pose proof (count_in_le value_indicators (lower content)) as H.
    change (length value_indicators) with 7 in H |- *. lia.
  - unfold _score_urgency, weighted_hits. fold urgency_indicators.
    pose proof (count_in_le urgency_indicators (lower content)) as H. lia.
Qed.

(** An instance: five of the six urgency words. *)
Lemma strength_sub_scores_witness :
  5 <= count_in urgency_indicators
         (lower "URGENT and critical: immediate action before the deadline, ASAP")
  /\ _score_urgency "URGENT and critical: immediate action before the deadline, ASAP"
     = 100%Z.
Proof.
  assert (H : 5 <= count_in urgency_indicators
                     (lower "URGENT and critical: immediate action before the deadline, ASAP"))
    by (vm_compute; lia).
  split; [exact H|].
  exact (proj2 (proj2 (proj2 (strength_sub_scores
           "URGENT and critical: immediate action before the deadline, ASAP"))) H).
Defined.

(** ** Client psychology *)

(** X4. The persuasion score is ten times the number of trigger words
    found, capped at 100.  The triggers are "authority", "scarcity" and
    "social_proof" exactly when six or more trigger words are found; a
    primary motivator needs a persuasion score of 30 at least, and two
    primary motivators always come with the authority triggers. *)
Theorem persuasion_and_triggers (content : text) (context : Context) :
  let insights := _analyze_client_psychology content context in
  let found := count_in urgency_words (lower content)
               + count_in fear_words (lower content)
               + count_in gain_words (lower content) in
  persuasion_score insights = Z.min 100 (10 * Z.of_nat found)
  /\ (psychological_triggers insights = ["authority"; "scarcity"; "social_proof"]
      <-> 6 <= found)
  /\ (primary_motivators insights <> [] -> (30 <= persuasion_score insights)%Z)
  /\ (2 <= length (primary_motivators insights) ->
      psychological_triggers insights = ["authority"; "scarcity"; "social_proof"]).
Proof.
  intros insights found. unfold insights, _analyze_client_psychology, weighted_hits.
  cbn [persuasion_score psychological_triggers primary_motivators].
  set (u := count_in urgency_words (lower content)) in *.
  set (f := count_in fear_words (lower content)) in *.
  set (g := count_in gain_words (lower content)) in *.
  assert (Hmin : Z.min 100 (10 * Z.of_nat u + 10 * Z.of_nat f + 10 * Z.of_nat g)
                 = Z.min 100 (10 * Z.of_nat found)) by (unfold found; f_equal; lia).
  rewrite Hmin.
  assert (Htrig : (50 <? Z.min 100 (10 * Z.of_nat found))%Z = true <-> 6 <= found).
  { rewrite Z.ltb_lt. lia. }
  split; [reflexivity|]. split; [|split].
  - destruct (50 <? Z.min 100 (10 * Z.of_nat found))%Z.
    + split; [intros _; now apply Htrig | reflexivity].
    + split; [discriminate|]. intros H. apply Htrig in H. discriminate.
  - destruct (20 <? 10 * Z.of_nat u)%Z eqn:Eu;
      destruct (20 <? 10 * Z.of_nat f)%Z eqn:Ef;
      destruct (20 <? 10 * Z.of_nat g)%Z eqn:Eg; unfold when; cbn [app]; intros H;
      try congruence;
      rewrite ?Z.ltb_lt in *; unfold found; lia.
  - destruct (20 <? 10 * Z.of_nat u)%Z eqn:Eu;
      destruct (20 <? 10 * Z.of_nat f)%Z eqn:Ef;
      destruct (20 <? 10 * Z.of_nat g)%Z eqn:Eg; unfold when; cbn [app length];
      intros H; try lia;
      rewrite ?Z.ltb_lt in Eu, Ef, Eg;
      (assert (Hsix : 6 <= found) by (unfold found; lia));
      apply Htrig in Hsix; now rewrite Hsix.
Qed.

(** An instance: six trigger words, three of urgency and three of fear. *)
Lemma persuasion_and_triggers_witness :
  let content := "Urgent: a critical and immediate risk of loss and failure" in
  2 <= length (primary_motivators (_analyze_client_psychology content []))
  /\ psychological_triggers (_analyze_client_psychology content [])
     = ["authority"; "scarcity"; "social_proof"].
Proof.
  assert (H : 2 <= length (primary_motivators
                             (_analyze_client_psychology
                                "Urgent: a critical and immediate risk of loss and failure"
                                []))) by (vm_compute; lia).
  split; [exact H|].
  exact (proj2 (proj2 (proj2 (persuasion_and_triggers
           "Urgent: a critical and immediate risk of loss and failure" []))) H).
Defined.

(** ** What the handler lets through *)



(** X6. An exception that is not an instance of [Exception] leaves the
    review from any helper, not only from the first: if detection returns
    and the scoring helper is interrupted, the review raises. *)
Theorem interruption_is_not_caught (self : Engine) (content : text)
    (clock : datetime) (errors : DefectInventory) (e : exn) :
  call_detect_errors self content = Return errors ->
  call_calculate_quality_score self content errors = Raise e ->
  is_Exception e = false ->
  quality_assurance_review self content clock = Raise e.
Proof.
  intros H1 H2 He. unfold quality_assurance_review, try_except, bind, call.
  now rewrite H1, H2, He.
Qed.

Lemma interruption_is_not_caught_witness :
  call_detect_errors interrupted_scoring "Quarterly report"
  = Return (_detect_errors "Quarterly report")
  /\ call_calculate_quality_score interrupted_scoring "Quarterly report"
       (_detect_errors "Quarterly report") = Raise interrupted
  /\ is_Exception interrupted = false
  /\ quality_assurance_review interrupted_scoring "Quarterly report" noon
     = Raise interrupted.
Proof.
  split; [reflexivity|]. split; [reflexivity|]. split; [reflexivity|].
  apply (interruption_is_not_caught interrupted_scoring "Quarterly report" noon
           (_detect_errors "Quarterly report") interrupted); reflexivity.
Defined.

(** ** Detection, line by line *)

Lemma pattern_hit_shift (display : text -> text) (n k : nat) (line : text)
    (rule : text * text) :
  pattern_hit display (n + k) line rule
  = map (shift_line k) (pattern_hit display n line rule).
Proof. unfold pattern_hit. now destruct (re_search _ _ _). Qed.

Lemma calculation_hit_shift (n k : nat) (m : text * text * text) :
  calculation_hit (n + k) m = map (shift_line k) (calculation_hit n m).
Proof.
  unfold calculation_hit, check_calculation. destruct m as [[m0 m1] m2].
  destruct (py_float (replace "," "" m0)); [|reflexivity].
  destruct (py_float (replace "," "" m1)); [|reflexivity].
  destruct (py_float (replace "," "" m2)); [|reflexivity].
  now destruct (fltb _ _).
Qed.

Lemma flat_map_map {X Y Z} (f : Y -> Z) (g : X -> list Y) (l : list X) :
  flat_map (fun x => map f (g x)) l = map f (flat_map g l).
Proof. induction l as [|x l IH]; simpl; [reflexivity|]. now rewrite IH, map_app. Qed.

Lemma hits_shift (k : nat) (ln : nat * text) :
  spelling_hits (fst ln + k, snd ln) = map (shift_line k) (spelling_hits ln)
  /\ grammar_hits (fst ln + k, snd ln) = map (shift_line k) (grammar_hits ln)
  /\ calculation_hits (fst ln + k, snd ln) = map (shift_line k) (calculation_hits ln).
Proof.
  unfold spelling_hits, grammar_hits, calculation_hits. cbn [fst snd].
  rewrite <- !flat_map_map. split; [|split]; apply flat_map_ext; intros x.
  - apply pattern_hit_shift.
  - apply pattern_hit_shift.
  - apply calculation_hit_shift.
Qed.

Lemma flat_map_enumerate_shift (hits : nat * text -> list DefectRecord) (k : nat) :
  (forall ln, hits (fst ln + k, snd ln) = map (shift_line k) (hits ln)) ->
  forall (l : list text) (start : nat),
    flat_map hits (enumerate (start + k) l)
    = map (shift_line k) (flat_map hits (enumerate start l)).
Proof.
  intros H. induction l as [|x l IH]; intros start; simpl; [reflexivity|].
  rewrite map_app, <- (H (start, x)). f_equal. apply (IH (S start)).
Qed.

Lemma detect_errors_app (a b : text) :
  _detect_errors (a ++ newline :: b)
  = join_inventories (_detect_errors a) (shift_lines (line_count a) (_detect_errors b)).
Proof.
  rewrite !detect_errors_eq. unfold join_inventories, shift_lines, numbered_lines, line_count.
  cbn [spelling_errors grammar_errors consistency_errors calculation_errors logic_errors
       map app].
  rewrite split_on_app_sep, enumerate_app, !flat_map_app.
  set (k := length (split_on newline a)).
  rewrite <- (flat_map_enumerate_shift spelling_hits k
                (fun ln => proj1 (hits_shift k ln)) (split_on newline b) 1).
  rewrite <- (flat_map_enumerate_shift grammar_hits k
                (fun ln => proj1 (proj2 (hits_shift k ln))) (split_on newline b) 1).
  rewrite <- (flat_map_enumerate_shift calculation_hits k
                (fun ln => proj2 (proj2 (hits_shift k ln))) (split_on newline b) 1).
  reflexivity.
Qed.

Lemma total_errors_join (e1 e2 : DefectInventory) :
  total_errors (join_inventories e1 e2) = total_errors e1 + total_errors e2.
Proof.
  unfold total_errors, items, join_inventories. cbn [fold_right snd].
  cbn [spelling_errors grammar_errors consistency_errors calculation_errors logic_errors].
  rewrite !length_app. lia.
Qed.

Lemma total_errors_shift (k : nat) (e : DefectInventory) :
  total_errors (shift_lines k e) = total_errors e.
Proof.
  unfold total_errors, items, shift_lines. cbn [fold_right snd].
  cbn [spelling_errors grammar_errors consistency_errors calculation_errors logic_errors].
  now rewrite !length_map.
Qed.

(** X7. Detection works line by line: the inventory of two texts joined by
    a newline is the inventory of the first followed, kind by kind, by
    the inventory of the second with its line numbers moved down by the
    number of lines of the first.  The number of records of the whole is
    the sum of the numbers of records of the parts. *)
Theorem detection_is_line_by_line (a b : text) :
  _detect_errors (a ++ newline :: b)
  = join_inventories (_detect_errors a) (shift_lines (line_count a) (_detect_errors b))
  /\ total_errors (_detect_errors (a ++ newline :: b))
     = total_errors (_detect_errors a) + total_errors (_detect_errors b).
Proof.
  split; [apply detect_errors_app|].
  now rewrite detect_errors_app, total_errors_join, total_errors_shift.
Qed.

Lemma join_empty (e : DefectInventory) : join_inventories e empty_inventory = e.
Proof.
  destruct e. unfold join_inventories. simpl. now rewrite !app_nil_r.
Qed.

Lemma bonus_trailing_newline (content : text) :
  bonus (content ++ [newline])
  = Z.add (bonus content) (if length content =? 500 then 5%Z else 0%Z).
Proof.
  unfold bonus. rewrite lower_app, length_app.
  rewrite (contains_app_sep newline "$" content []);
    [|vm_compute; intuition discriminate | discriminate].
  assert (Hany : any_in ["roi"; "investment"; "return"] (lower content ++ lower [newline])
                 = any_in ["roi"; "investment"; "return"] (lower content)).
  { unfold any_in. cbn [existsb]. change (lower [newline]) with [newline].
    rewrite !(contains_app_sep newline _ (lower content) []);
      try discriminate; try (vm_compute; intuition discriminate).
    change (contains "roi" []) with false. change (contains "investment" []) with false.
    change (contains "return" []) with false. now rewrite !orb_false_r. }
  rewrite Hany. change (contains "$" []) with false. rewrite orb_false_r.
  cbn [length].
  destruct (Nat.eqb_spec (length content) 500) as [E|E];
    destruct (Nat.ltb_spec 500 (length content + 1));
    destruct (Nat.ltb_spec 500 (length content));
    destruct (contains "$" content && any_in ["roi"; "investment"; "return"] (lower content));
    lia.
Qed.

(** X8. A newline at the end of a text adds no record, and a newline at
    the start moves every record one line down.  The overall score of the
    text with a newline at its end is that of the text, or 5 more: it can
    only differ when the text has exactly 500 characters, through the
    length bonus. *)
Theorem newline_at_the_ends (content : text) :
  _detect_errors (content ++ [newline]) = _detect_errors content
  /\ _detect_errors (newline :: content) = shift_lines 1 (_detect_errors content)
  /\ (_calculate_quality_score content (_detect_errors content)
      <= _calculate_quality_score (content ++ [newline])
           (_detect_errors (content ++ [newline]))
      <= _calculate_quality_score content (_detect_errors content) + 5)%Z
  /\ (length content <> 500 ->
      _calculate_quality_score (content ++ [newline])
        (_detect_errors (content ++ [newline]))
      = _calculate_quality_score content (_detect_errors content)).
Proof.
  assert (H1 : _detect_errors (content ++ [newline]) = _detect_errors content).
  { rewrite detect_errors_app. change (_detect_errors []) with empty_inventory.
    change (shift_lines (line_count content) empty_inventory) with empty_inventory.
    apply join_empty. }
  split; [exact H1|]. split.
  { change (newline :: content) with ([] ++ newline :: content).
    rewrite detect_errors_app. change (_detect_errors []) with empty_inventory.
    change (line_count []) with 1.
    destruct (shift_lines 1 (_detect_errors content)). reflexivity. }
  rewrite H1. unfold _calculate_quality_score. rewrite !quality_points_eq.
  rewrite bonus_trailing_newline. unfold clamp. split.
  - destruct (length content =? 500); lia.
  - intros Hne. apply Nat.eqb_neq in Hne. rewrite Hne. f_equal. f_equal. lia.
Qed.

(** An instance: a text of twelve characters. *)
Lemma newline_at_the_ends_witness :
  length "Net 30 days." <> 500
  /\ _calculate_quality_score ("Net 30 days." ++ [newline])
       (_detect_errors ("Net 30 days." ++ [newline]))
     = _calculate_quality_score "Net 30 days." (_detect_errors "Net 30 days.").
Proof.
  assert (H : length "Net 30 days." <> 500) by (simpl; lia).
  split; [exact H|].
  exact (proj2 (proj2 (proj2 (newline_at_the_ends "Net 30 days."))) H).
Defined.

(** ** Where the records come from *)

Lemma lines_ascend_weaken (lo lo' : nat) (l : list DefectRecord) :
  lo' <= lo -> lines_ascend lo l -> lines_ascend lo' l.
Proof. destruct l as [|d l]; simpl; [tauto|]. intros H [H1 H2]. split; [lia | exact H2]. Qed.

Lemma lines_ascend_app (n lo : nat) (l1 l2 : list DefectRecord) :
  lo <= n -> Forall (fun d => defect_line d = n) l1 -> lines_ascend n l2 ->
  lines_ascend lo (l1 ++ l2).
Proof.
  revert lo. induction l1 as [|d l1 IH]; intros lo Hlo H1 H2; simpl.
  - now apply (lines_ascend_weaken n).
  - inversion H1 as [|? ? Hd Hl1]; subst. split; [exact Hlo|].
    apply IH; [lia | exact Hl1 | exact H2].
Qed.

Lemma lines_ascend_enumerate (hits : nat * text -> list DefectRecord) :
  (forall ln, Forall (fun d => defect_line d = fst ln) (hits ln)) ->
  forall (l : list text) (start : nat),
    lines_ascend start (flat_map hits (enumerate start l)).
Proof.
  intros H. induction l as [|x l IH]; intros start; simpl; [exact I|].
  apply (lines_ascend_app start); [lia | apply (H (start, x)) |].
  apply (lines_ascend_weaken (S start)); [lia | apply IH].
Qed.

Lemma pattern_hit_line_number (display : text -> text) (ln : nat * text)
    (rules : list (text * text)) :
  Forall (fun d => defect_line d = fst ln)
         (flat_map (pattern_hit display (fst ln) (snd ln)) rules).
Proof.
  apply Forall_forall. intros d Hd. apply in_flat_map in Hd.
  destruct Hd as (rule & _ & Hd). unfold pattern_hit in Hd.
  destruct (re_search _ _ _); [|contradiction]. destruct Hd as [<-|[]]. reflexivity.
Qed.

Lemma calculation_hit_record (n : nat) (m : text * text * text) (d : DefectRecord) :
  In d (calculation_hit n m) -> defect_line d = n /\ is_pattern_record d = false.
Proof.
  unfold calculation_hit, check_calculation. destruct m as [[m0 m1] m2].
  destruct (py_float (replace "," "" m0)); [|contradiction].
  destruct (py_float (replace "," "" m1)); [|contradiction].
  destruct (py_float (replace "," "" m2)); [|contradiction].
  destruct (fltb _ _); [|contradiction]. intros [<-|[]]. now split.
Qed.

Lemma calculation_hits_line_number (ln : nat * text) :
  Forall (fun d => defect_line d = fst ln) (calculation_hits ln).
Proof.
  apply Forall_forall. intros d Hd. apply in_flat_map in Hd.
  destruct Hd as (m & _ & Hd). now apply calculation_hit_record in Hd.
Qed.

(** X9. Every record of an inventory traces back to a line.  The
    consistency and logic lists stay empty; in each of the three other
    lists the line numbers never go down; a spelling or grammar record
    carries the number of a line in which the pattern of a rule of its
    table is found, with that rule's suggestion and the line stripped of
    its surrounding blanks; and a calculation record is of the calculation
    shape and carries the number of a line of the document. *)
Theorem records_trace_back (content : text) :
  let errors := _detect_errors content in
  (consistency_errors errors = [] /\ logic_errors errors = [])
  /\ (forall k, lines_ascend 1 (kind_errors k errors))
  /\ lines_ascend 1 (calculation_errors errors)
  /\ (forall k d, In d (kind_errors k errors) ->
        exists i line rule,
          nth_error (split_on newline content) i = Some line
          /\ In rule (rule_table k)
          /\ re_search (fst rule) true line = true
          /\ d = PatternDefect (S i) (rule_display k (fst rule)) (snd rule) (strip line))
  /\ (forall d, In d (calculation_errors errors) ->
        is_pattern_record d = false
        /\ 1 <= defect_line d <= line_count content).
Proof.
  intros errors. unfold errors.
  split; [rewrite detect_errors_eq; now split|].
  split; [|split; [|split]].
  - intros k. rewrite kind_errors_eq. unfold numbered_lines.
    apply (lines_ascend_enumerate
             (fun ln => flat_map (pattern_hit (rule_display k) (fst ln) (snd ln))
                                 (rule_table k))).
    intros ln. apply pattern_hit_line_number.
  - rewrite detect_errors_eq. cbn [calculation_errors]. unfold numbered_lines.
    apply lines_ascend_enumerate. apply calculation_hits_line_number.
  - intros k d Hd. rewrite kind_errors_eq in Hd. apply in_flat_map in Hd.
    destruct Hd as ([n line] & Hln & Hd). apply in_flat_map in Hd.
    destruct Hd as (rule & Hrule & Hd). cbn [fst snd] in Hd.
    unfold numbered_lines in Hln. apply in_enumerate in Hln. destruct Hln as [Hn Hline].
    unfold pattern_hit in Hd. destruct (re_search (fst rule) true line) eqn:E;
      [|contradiction].
    destruct Hd as [<-|[]]. exists (n - 1), line, rule.
    split; [exact Hline|]. split; [exact Hrule|]. split; [exact E|].
    now replace (S (n - 1)) with n by lia.
  - intros d Hd. rewrite detect_errors_eq in Hd. cbn [calculation_errors] in Hd.
    apply in_flat_map in Hd. destruct Hd as ([n line] & Hln & Hd).
    unfold calculation_hits in Hd. apply in_flat_map in Hd.
    destruct Hd as (m & _ & Hd). cbn [fst] in Hd.
    apply calculation_hit_record in Hd. destruct Hd as [-> Hshape].
    split; [exact Hshape|].
    unfold numbered_lines in Hln. apply in_enumerate in Hln. destruct Hln as [Hn Hline].
    split; [exact Hn|]. unfold line_count.
    assert (Hlt : n - 1 < length (split_on newline content)).
    { apply nth_error_Some. congruence. }
    lia.
Qed.

(** An instance: the record of the second line of a text. *)
Lemma records_trace_back_witness :
  let d := PatternDefect 2 "acheive" "achieve" "we acheive" in
  In d (kind_errors Spelling (_detect_errors ("Summary" ++ newline :: "  we acheive ")))
  /\ exists i line rule,
       nth_error (split_on newline ("Summary" ++ newline :: "  we acheive ")) i = Some line
       /\ In rule (rule_table Spelling)
       /\ re_search (fst rule) true line = true
       /\ d = PatternDefect (S i) (rule_display Spelling (fst rule)) (snd rule)
                (strip line).
Proof.
  assert (H : In (PatternDefect 2 "acheive" "achieve" "we acheive")
                 (kind_errors Spelling
                    (_detect_errors ("Summary" ++ newline :: "  we acheive "))))
    by (vm_compute; now left).
  split; [exact H|].
  exact (proj1 (proj2 (proj2 (proj2
           (records_trace_back ("Summary" ++ newline :: "  we acheive ")))))
           Spelling _ H).
Defined.

(** ** Sentences and words *)

Lemma length_split_on (sep : ascii) (s : text) :
  length (split_on sep s) = S (length (filter (fun c => ascii_eqb c sep) s)).
Proof.
  induction s as [|c s IH]; simpl; [reflexivity|].
  destruct (ascii_eqb c sep); simpl; [now rewrite IH|].
  destruct (split_on sep s) as [|h t] eqn:E; [discriminate IH | exact IH].
Qed.

(** Splitting at the periods and then at the blanks gives the words of the
    text in which the periods are blanks. *)
Lemma split_ws_fragments (s cur : text) :
  match split_on "." s with
  | h :: t => split_ws_aux h cur ++ concat (map split_ws t)
  | [] => []
  end
  = split_ws_aux (periods_as_blanks s) cur.
Proof.
  revert cur. induction s as [|c s IH]; intros cur.
  - simpl. now rewrite app_nil_r.
  - cbn [split_on periods_as_blanks map]. fold (periods_as_blanks s).
    destruct (ascii_eqb c ".") eqn:E.
    + cbn [split_ws_aux]. change (is_space " ") with true.
      specialize (IH []). destruct (split_on "." s) as [|h t] eqn:Es.
      * exfalso. exact (split_on_nonempty _ _ Es).
      * cbn [map concat]. unfold split_ws at 1. rewrite IH.
        destruct cur; reflexivity.
    + destruct (split_on "." s) as [|h t] eqn:Es.
      * exfalso. exact (split_on_nonempty _ _ Es).
      * cbn [split_ws_aux]. destruct (is_space c).
        -- specialize (IH []). destruct cur; cbn [app]; now rewrite IH.
        -- apply IH.
Qed.

Lemma list_sum_lengths {X} (l : list (list X)) :
  list_sum (map (@length X) l) = length (concat l).
Proof.
  induction l as [|x l IH]; simpl; [reflexivity|]. now rewrite length_app, IH.
Qed.

Lemma words_of_fragments (content : text) :
  list_sum (map (fun s => length (split_ws s)) (split_on "." content))
  = length (split_ws (periods_as_blanks content)).
Proof.
  rewrite <- (map_map split_ws (@length text)), list_sum_lengths.
  unfold split_ws at 2. rewrite <- split_ws_fragments.
  destruct (split_on "." content) as [|h t] eqn:E; reflexivity.
Qed.

Lemma split_ws_aux_trailing_blank (s cur : text) :
  split_ws_aux (s ++ " ") cur = split_ws_aux s cur.
Proof.
  revert cur. induction s as [|c s IH]; intros cur.
  - simpl. destruct cur; reflexivity.
  - cbn [app split_ws_aux]. destruct (is_space c).
    + destruct cur; now rewrite IH.
    + apply IH.
Qed.

Lemma score_clarity_eq (content : text) :
  _score_clarity content
  = clarity_tier (length (split_ws (periods_as_blanks content))) (S (periods content)).
Proof.
  unfold _score_clarity, clarity_tier, periods.
  rewrite words_of_fragments, length_split_on.
  destruct (split_on "." content) eqn:E; [|reflexivity].
  exfalso. exact (split_on_nonempty _ _ E).
Qed.

(** X10. The clarity score compares the number of words of the text, its
    periods read as blanks, with the number of periods plus one: the case
    of a text without sentence fragments never arises.  A period at the
    end of a text adds a fragment and no word, so that a single sentence
    of 15 to 19 words scores 95 without its final period and 70 with
    it. *)
Theorem clarity_by_words_and_periods (content : text) :
  let words := length (split_ws (periods_as_blanks content)) in
  _score_clarity content = clarity_tier words (S (periods content))
  /\ _score_clarity (content ++ ".") = clarity_tier words (S (S (periods content)))
  /\ (periods content = 0 -> 15 <= words <= 19 ->
      _score_clarity content = 95%Z /\ _score_clarity (content ++ ".") = 70%Z).
Proof.
  intros words.
  assert (H2 : _score_clarity (content ++ ".")
               = clarity_tier words (S (S (periods content)))).
  { rewrite score_clarity_eq. unfold words, periods, periods_as_blanks, split_ws.
    rewrite filter_app, map_app, length_app. cbn [map filter length].
    change (ascii_eqb "." ".") with true. cbn [length].
    change [" "%char] with " ". rewrite split_ws_aux_trailing_blank.
    f_equal. lia. }
  split; [apply score_clarity_eq|]. split; [exact H2|].
  intros Hp Hw. rewrite H2, score_clarity_eq. fold words. rewrite Hp.
  unfold clarity_tier.
  destruct (Nat.leb_spec (15 * 1) words); [|lia].
  destruct (Nat.leb_spec words (20 * 1)); [|lia].
  destruct (Nat.leb_spec (15 * 2) words); [lia|].
  destruct (Nat.leb_spec (10 * 2) words); [lia|]. now split.
Qed.

(** An instance: a sentence of fifteen words. *)
Lemma clarity_by_words_and_periods_witness :
  let content :=
    "We will review the draft budget and send our notes to the board on Friday" in
  periods content = 0
  /\ 15 <= length (split_ws (periods_as_blanks content)) <= 19
  /\ _score_clarity content = 95%Z
  /\ _score_clarity (content ++ ".") = 70%Z.
Proof.
  assert (Hp : periods
                 "We will review the draft budget and send our notes to the board on Friday"
               = 0) by reflexivity.
  assert (Hw : 15 <= length (split_ws (periods_as_blanks
                 "We will review the draft budget and send our notes to the board on Friday"))
               <= 19) by (vm_compute; lia).
  split; [exact Hp|]. split; [exact Hw|].
  exact (proj2 (proj2 (clarity_by_words_and_periods
           "We will review the draft budget and send our notes to the board on Friday"))
           Hp Hw).
Defined.

(** ** The review: how its fields agree *)

Lemma in_recommendations (content : text) (errors : DefectInventory) (x : text) :
  In x (_generate_recommendations content errors)
  <-> (5 < total_errors errors /\ x = advice_proofreading)
      \/ (calculation_errors errors <> [] /\ x = advice_calculations)
      \/ (spelling_errors errors <> [] /\ x = advice_spelling)
      \/ (grammar_errors errors <> [] /\ x = advice_grammar)
      \/ (length content < 200 /\ x = advice_expand)
      \/ (~ mentions ["timeline"; "deadline"; "schedule"] content /\ x = advice_timelines).
Proof.
  assert (Hemp : forall l : list DefectRecord, negb (is_empty l) = true <-> l <> []).
  { intros [|d l]; simpl; split; congruence. }
  unfold _generate_recommendations. rewrite !in_app_iff, !in_when.
  rewrite !Hemp, Nat.ltb_lt, Nat.ltb_lt, negb_true_iff.
  rewrite <- not_true_iff_false, any_in_lower_iff. reflexivity.
Qed.

Lemma advice_distinct :
  NoDup [advice_proofreading; advice_calculations; advice_spelling; advice_grammar;
         advice_expand; advice_timelines].
Proof. repeat constructor; simpl; intuition discriminate. Qed.

Lemma NoDup_when_app (b : bool) (x : text) (l : list text) :
  NoDup (x :: l) -> NoDup (when b x ++ l).
Proof. destruct b; simpl; [tauto|]. now inversion 1. Qed.

Lemma NoDup_skip (x : text) (l l' : list text) :
  NoDup (x :: l) -> (NoDup l -> NoDup l' /\ incl l' l) ->
  forall b, NoDup (when b x ++ l') /\ incl (when b x ++ l') (x :: l).
Proof.
  intros Hx H b. inversion Hx as [|? ? Hnotin Hl]; subst.
  destruct (H Hl) as [Hl' Hincl]. destruct b; simpl.
  - split.
    + constructor; [|exact Hl']. intros Hin. apply Hnotin. now apply Hincl.
    + intros y [<-|Hy]; [now left | right; now apply Hincl].
  - split; [exact Hl'|]. intros y Hy. right. now apply Hincl.
Qed.

Lemma total_errors_detected (content : text) :
  total_errors (_detect_errors content)
  = length (spelling_errors (_detect_errors content))
    + length (grammar_errors (_detect_errors content))
    + length (calculation_errors (_detect_errors content)).
Proof.
  rewrite detect_errors_eq. unfold total_errors, items. cbn [fold_right snd].
  cbn [spelling_errors grammar_errors consistency_errors calculation_errors logic_errors
       length]. lia.
Qed.

(** ** The two scores that are ratios *)

Lemma percentage_values (n k : nat) :
  (n = 6 \/ n = 7) -> k <= n ->
  (percentage k n = float_of_Z 100 <-> k = n)
  /\ (percentage k n = float_of_Z 0 <-> k = 0)
  /\ (forall k', k < k' <= n -> fltb (percentage k n) (percentage k' n) = true).
Proof.
  intros [-> | ->] Hk.
  - do 7 (destruct k as [|k]; [
      split; [|split]; [
        split; [vm_compute; try discriminate; reflexivity | try discriminate; reflexivity] |
        split; [vm_compute; try discriminate; reflexivity | try discriminate; reflexivity] |
        intros k' Hk';
        do 7 (destruct k' as [|k']; [try lia; vm_compute; reflexivity|]); lia ] |]).
    lia.
  - do 8 (destruct k as [|k]; [
      split; [|split]; [
        split; [vm_compute; try discriminate; reflexivity | try discriminate; reflexivity] |
        split; [vm_compute; try discriminate; reflexivity | try discriminate; reflexivity] |
        intros k' Hk';
        do 8 (destruct k' as [|k']; [try lia; vm_compute; reflexivity|]); lia ] |]).
    lia.
Qed.

Lemma percentage_mono (k k' : nat) :
  k <= k' <= 6 -> fleb (percentage k 6) (percentage k' 6) = true.
Proof.
  intros H.
  do 7 (destruct k as [|k]; [
    do 7 (destruct k' as [|k']; [try lia; vm_compute; reflexivity|]); lia |]).
  lia.
Qed.

Lemma percentage_mono_7 (k k' : nat) :
  k <= k' <= 7 -> fleb (percentage k 7) (percentage k' 7) = true.
Proof.
  intros H.
  do 8 (destruct k as [|k]; [
    do 8 (destruct k' as [|k']; [try lia; vm_compute; reflexivity|]); lia |]).
  lia.
Qed.

Lemma factors_found_le (content : text) : factors_found content <= 7.
Proof.
  unfold factors_found.
  etransitivity; [apply filter_length_le|]. now rewrite length_map.
Qed.

Lemma filter_all {X} (f : X -> bool) (l : list X) :
  length (filter f l) = length l <-> forall x, In x l -> f x = true.
Proof.
  induction l as [|y l IH]; simpl.
  - split; [intros _ x [] | reflexivity].
  - pose proof (filter_length_le f l) as Hle. destruct (f y) eqn:E; simpl.
    + split.
      * intros H x [<-|Hin]; [exact E|]. apply IH; [lia | exact Hin].
      * intros H. f_equal. apply IH. intros x Hin. apply H. now right.
    + split; [lia|]. intros H. rewrite H in E; [discriminate | now left].
Qed.

Lemma filter_none {X} (f : X -> bool) (l : list X) :
  length (filter f l) = 0 <-> forall x, In x l -> f x = false.
Proof.
  induction l as [|y l IH]; simpl.
  - split; [intros _ x [] | reflexivity].
  - destruct (f y) eqn:E; simpl.
    + split; [discriminate|]. intros H. rewrite H in E; [discriminate | now left].
    + rewrite IH. split.
      * intros H x [<-|Hin]; [exact E | now apply H].
      * intros H x Hin. apply H. now right.
Qed.

Lemma score_completeness_full (content : text) :
  _score_completeness content = float_of_Z 100
  <-> forall word, In word sections -> occurs word (lower content).
Proof.
  pose proof (count_in_le sections (lower content)) as Hle.
  change (length sections) with 6 in Hle.
  destruct (percentage_values 6 _ (or_introl eq_refl) Hle) as (C1 & _).
  change (_score_completeness content)
    with (percentage (count_in sections (lower content)) 6).
  rewrite C1. apply (count_in_all sections).
Qed.

(** X11. The two scores that come out of a division.  The completeness
    score is 100.0 exactly when all six section words occur in the
    lowercased text and 0.0 exactly when none does; the readiness score is
    100.0 exactly when all seven patterns are found and 0.0 exactly when
    none is; and of two texts, the one with more section words, or more
    patterns found, has the strictly higher score. *)
Theorem ratio_scores (content : text) :
  (_score_completeness content = float_of_Z 100
   <-> forall word, In word sections -> occurs word (lower content))
  /\ (_score_completeness content = float_of_Z 0
      <-> forall word, In word sections -> ~ occurs word (lower content))
  /\ (_analyze_proposal_strength content = float_of_Z 100
      <-> forall pattern, In pattern strength_factors ->
                          re_search pattern true content = true)
  /\ (_analyze_proposal_strength content = float_of_Z 0
      <-> forall pattern, In pattern strength_factors ->
                          re_search pattern true content = false)
  /\ (forall content',
        count_in sections (lower content) < count_in sections (lower content') ->
        fltb (_score_completeness content) (_score_completeness content') = true)
  /\ (forall content',
        factors_found content < factors_found content' ->
        fltb (_analyze_proposal_strength content) (_analyze_proposal_strength content')
        = true).
Proof.
  assert (Hc : forall c, _score_completeness c = percentage (count_in sections (lower c)) 6)
    by reflexivity.
  assert (Hs : forall c, _analyze_proposal_strength c = percentage (factors_found c) 7)
    by reflexivity.
  pose proof (count_in_le sections (lower content)) as Hle.
  change (length sections) with 6 in Hle.
  pose proof (factors_found_le content) as Hle'.
  destruct (percentage_values 6 _ (or_introl eq_refl) Hle) as (C1 & C2 & C3).
  destruct (percentage_values 7 _ (or_intror eq_refl) Hle') as (S1 & S2 & S3).
  split; [apply score_completeness_full|].
  rewrite !Hc, !Hs, C2, S1, S2.
  split; [|split; [|split; [|split]]].
  - unfold count_in. rewrite filter_none. split; intros H word Hin.
    + apply contains_false_iff. now apply H.
    + apply contains_false_iff. now apply H.
  - unfold factors_found. change 7 with (length strength_factors).
    rewrite <- (length_map (fun pattern => re_search pattern true content) strength_factors).
    rewrite filter_all. split.
    + intros H pattern Hin. apply (H (re_search pattern true content)).
      now apply (in_map (fun pattern => re_search pattern true content)).
    + intros H b Hb. apply in_map_iff in Hb. destruct Hb as (p & <- & Hin). now apply H.
  - unfold factors_found. rewrite filter_none. split.
    + intros H pattern Hin.
      apply (H (re_search pattern true content)).
      now apply (in_map (fun pattern => re_search pattern true content)).
    + intros H b Hb. apply in_map_iff in Hb. destruct Hb as (p & <- & Hin). now apply H.
  - intros content' Hlt. rewrite Hc. apply C3.
    pose proof (count_in_le sections (lower content')) as H.
    change (length sections) with 6 in H. lia.
  - intros content' Hlt. rewrite Hs. apply S3.
    pose proof (factors_found_le content'). lia.
Qed.

(** An instance: one section word against two. *)
Lemma ratio_scores_witness :
  count_in sections (lower "The problem") < count_in sections (lower "Problem and solution")
  /\ fltb (_score_completeness "The problem") (_score_completeness "Problem and solution")
     = true.
Proof.
  assert (H : count_in sections (lower "The problem")
              < count_in sections (lower "Problem and solution")) by (vm_compute; lia).
  split; [exact H|].
  exact (proj1 (proj2 (proj2 (proj2 (proj2 (ratio_scores "The problem")))))
           "Problem and solution" H).
Defined.

(** ** Advice *)

Lemma length_when_app (b : bool) (x : text) (l : list text) :
  length (when b x ++ l) <= S (length l).
Proof. destruct b; simpl; lia. Qed.

(** X12. The advice of the review.  Whatever the inventory, the list goes
    through the six pieces of advice in their order, so that it holds at
    most six entries and none twice.  For the inventory detected in the
    text itself, the advice to proofread never comes alone: one of the
    three pieces of advice about a kind of record comes with it; and the
    list is empty exactly when the text has no record, is 200 characters
    long at least and mentions a timeline, a deadline or a schedule. *)
Theorem advice_follows_the_inventory (content : text) (errors : DefectInventory) :
  (NoDup (_generate_recommendations content errors)
   /\ length (_generate_recommendations content errors) <= 6)
  /\ (In advice_proofreading (_generate_recommendations content (_detect_errors content)) ->
      In advice_calculations (_generate_recommendations content (_detect_errors content))
      \/ In advice_spelling (_generate_recommendations content (_detect_errors content))
      \/ In advice_grammar (_generate_recommendations content (_detect_errors content)))
  /\ (_generate_recommendations content (_detect_errors content) = []
      <-> total_errors (_detect_errors content) = 0
          /\ 200 <= length content
          /\ mentions ["timeline"; "deadline"; "schedule"] content).
Proof.
  split; [split|split].
  - pose proof advice_distinct as Hd. unfold _generate_recommendations.
    fold advice_proofreading advice_calculations advice_spelling advice_grammar
         advice_expand advice_timelines.
    refine (proj1 (NoDup_skip _ _ _ Hd _ _)). intros Hd1.
    refine (NoDup_skip _ _ _ Hd1 _ _). intros Hd2.
    refine (NoDup_skip _ _ _ Hd2 _ _). intros Hd3.
    refine (NoDup_skip _ _ _ Hd3 _ _). intros Hd4.
    refine (NoDup_skip _ _ _ Hd4 _ _). intros Hd5.
    destruct (negb _); simpl;
      (split; [first [exact Hd5 | apply NoDup_nil] | first [apply incl_refl | intros y []]]).
  - unfold _generate_recommendations.
    repeat (etransitivity; [apply length_when_app|]; apply le_n_S).
    unfold when. destruct (negb _); simpl; lia.
  - rewrite !in_recommendations. intros H.
    assert (Hmany : 5 < total_errors (_detect_errors content)).
    { destruct H as [[H _]|[[_ H]|[[_ H]|[[_ H]|[[_ H]|[_ H]]]]]];
        [exact H | discriminate H..]. }
    rewrite total_errors_detected in Hmany.
    destruct (calculation_errors (_detect_errors content)) as [|d l] eqn:Ec.
    + destruct (spelling_errors (_detect_errors content)) as [|d' l'] eqn:Es.
      * right. right. right. right. right. left. split; [|reflexivity].
        intros E. rewrite E in Hmany. simpl in Hmany. lia.
      * right. left. right. right. left. split; [discriminate | reflexivity].
    + left. right. left. split; [discriminate | reflexivity].
  - split.
    + intros Hnil.
      assert (Hnot : forall x, ~ In x (_generate_recommendations content
                                         (_detect_errors content))).
      { intros x. rewrite Hnil. intros []. }
      rewrite total_errors_detected. split; [|split].
      * destruct (spelling_errors (_detect_errors content)) eqn:Es;
          [|exfalso; apply (Hnot advice_spelling); apply in_recommendations;
            right; right; left; rewrite Es; split; [discriminate | reflexivity]].
        destruct (grammar_errors (_detect_errors content)) eqn:Eg;
          [|exfalso; apply (Hnot advice_grammar); apply in_recommendations;
            right; right; right; left; rewrite Eg; split; [discriminate | reflexivity]].
        destruct (calculation_errors (_detect_errors content)) eqn:Ec;
          [|exfalso; apply (Hnot advice_calculations); apply in_recommendations;
            right; left; rewrite Ec; split; [discriminate | reflexivity]].
        reflexivity.
      * destruct (Nat.le_gt_cases 200 (length content)) as [H|H]; [exact H|].
        exfalso. apply (Hnot advice_expand). apply in_recommendations.
        right. right. right. right. left. now split.
      * destruct (any_in ["timeline"; "deadline"; "schedule"] (lower content)) eqn:E;
          [now apply any_in_lower_iff|].
        exfalso. apply (Hnot advice_timelines). apply in_recommendations.
        right. right. right. right. right. split; [|reflexivity].
        intros Hm. apply any_in_lower_iff in Hm. congruence.
    + intros (Htot & Hlen & Hm). rewrite total_errors_detected in Htot.
      destruct (_generate_recommendations content (_detect_errors content)) as [|x l] eqn:E;
        [reflexivity|].
      exfalso. assert (Hin : In x (_generate_recommendations content
                                     (_detect_errors content))) by (rewrite E; now left).
      apply in_recommendations in Hin.
      destruct Hin as [[H _]|[[H _]|[[H _]|[[H _]|[[H _]|[H _]]]]]].
      * rewrite total_errors_detected in H. lia.
      * apply H. apply length_zero_iff_nil. lia.
      * apply H. apply length_zero_iff_nil. lia.
      * apply H. apply length_zero_iff_nil. lia.
      * lia.
      * contradiction.
Qed.

(** An instance: six misspellings on six lines. *)
Lemma advice_follows_the_inventory_witness :
  let content := concat (repeat ("acheive" ++ [newline]) 6) in
  In advice_proofreading (_generate_recommendations content (_detect_errors content))
  /\ (In advice_calculations (_generate_recommendations content (_detect_errors content))
      \/ In advice_spelling (_generate_recommendations content (_detect_errors content))
      \/ In advice_grammar (_generate_recommendations content (_detect_errors content))).
Proof.
  assert (H : In advice_proofreading
                 (_generate_recommendations (concat (repeat ("acheive" ++ [newline]) 6))
                    (_detect_errors (concat (repeat ("acheive" ++ [newline]) 6)))))
    by (vm_compute; now left).
  split; [exact H|].
  exact (proj1 (proj2 (advice_follows_the_inventory
                         (concat (repeat ("acheive" ++ [newline]) 6)) empty_inventory)) H).
Defined.

(** X13. The fields of a review agree with each other.  The review of the
    class as written always succeeds, and in its findings: the grammar
    dimension is 100 less 10 for each grammar record of the inventory,
    with a floor of 0; the advice about grammar is given exactly when the
    grammar dimension is below 100; an overall score below 100 comes with
    advice about a kind of record; and a completeness of 100.0 comes with
    the type "business_proposal" and without the advice about
    timelines. *)
Theorem review_fields_agree (content : text) (clock : datetime) :
  exists r,
    quality_assurance_review ClarityCPA content clock = Return (Success r)
    /\ errors_found r = _detect_errors content
    /\ grammar (quality_dimensions r)
       = Z.max 0 (100 - 10 * Z.of_nat (length (grammar_errors (errors_found r))))
    /\ (In advice_grammar (improvement_recommendations r)
        <-> (grammar (quality_dimensions r) < 100)%Z)
    /\ ((overall_score r < 100)%Z ->
        In advice_calculations (improvement_recommendations r)
        \/ In advice_spelling (improvement_recommendations r)
        \/ In advice_grammar (improvement_recommendations r))
    /\ (completeness (quality_dimensions r) = float_of_Z 100 ->
        document_type r = "business_proposal"
        /\ ~ In advice_timelines (improvement_recommendations r)).
Proof.
  eexists. split; [reflexivity|].
  cbn [errors_found quality_dimensions grammar completeness overall_score document_type
       improvement_recommendations].
  split; [reflexivity|]. split; [unfold _score_grammar; f_equal; lia|].
  split; [|split].
  - rewrite in_recommendations. unfold _score_grammar. split.
    + intros [[_ H]|[[_ H]|[[_ H]|[[H _]|[[_ H]|[_ H]]]]]]; try discriminate H.
      destruct (grammar_errors (_detect_errors content)); [congruence | simpl length; lia].
    + intros H. right. right. right. left. split; [|reflexivity].
      intros E. rewrite E in H. simpl in H. lia.
  - unfold _calculate_quality_score. rewrite quality_points_eq, total_errors_detected.
    pose proof (bonus_bounds content) as Hb. unfold clamp. intros H.
    rewrite !in_recommendations.
    destruct (calculation_errors (_detect_errors content)) as [|d l] eqn:Ec.
    + destruct (spelling_errors (_detect_errors content)) as [|d' l'] eqn:Es.
      * right. right. right. right. right. left. split; [|reflexivity].
        intros E. rewrite E in H. cbn [length Nat.add] in H. lia.
      * right. left. right. right. left. split; [discriminate | reflexivity].
    + left. right. left. split; [discriminate | reflexivity].
  - intros H0. pose proof (proj1 (score_completeness_full content) H0) as H. split.
    + unfold _classify_document.
      assert (Hany : any_in ["proposal"; "executive summary"; "investment"] (lower content)
                     = true).
      { apply any_in_iff. exists "investment". split; [simpl; tauto|].
        apply H. simpl. tauto. }
      now rewrite Hany.
    + rewrite in_recommendations.
      intros [[_ E]|[[_ E]|[[_ E]|[[_ E]|[[_ E]|[E _]]]]]]; try discriminate E.
      apply E. exists "timeline". split; [simpl; tauto|]. apply H. simpl. tauto.
Qed.

(** An instance: a review with a score of 95. *)
Lemma review_fields_agree_witness :
  exists r,
    quality_assurance_review ClarityCPA "We acheive more" noon = Return (Success r)
    /\ (overall_score r < 100)%Z
    /\ (In advice_calculations (improvement_recommendations r)
        \/ In advice_spelling (improvement_recommendations r)
        \/ In advice_grammar (improvement_recommendations r)).
Proof.
  destruct (review_fields_agree "We acheive more" noon)
    as (r & Hr & _ & _ & _ & Hscore & _).
  exists r. split; [exact Hr|].
  assert (H : (overall_score r < 100)%Z).
  { apply (f_equal (fun o => match o with
                             | Return (Success x) => overall_score x
                             | _ => 0%Z
                             end)) in Hr.
    rewrite <- Hr. vm_compute. reflexivity. }
  split; [exact H | exact (Hscore H)].
Defined.

(** ** Keywords: the two ways the engine looks for them *)

(** On the characters of the model, what [re.IGNORECASE] reads as a word
    is what has the lowercase form of the word. *)
Lemma occurs_ic_iff (w content : text) :
  occurs_ic w content <-> occurs (lower w) (lower content).
Proof.
  unfold occurs_ic, occurs. split.
  - intros (pre & m & post & -> & Hm). apply reads_as_lower in Hm.
    exists (lower pre), (lower post). now rewrite !lower_app, Hm.
  - intros (pre & post & H). unfold lower in H.
    apply map_eq_app in H. destruct H as (pre' & rest & -> & Hpre & H).
    apply map_eq_app in H. destruct H as (m & post' & -> & Hm & Hpost).
    exists pre', m, post'. split; [reflexivity | now apply reads_as_lower].
Qed.

Lemma den_word_re (w : text) :
  w <> [] ->
  forall st st',
    den true (word_re w) st st'
    <-> exists m, lower m = lower w /\ ahead st = m ++ ahead st'
                  /\ st' = (rev m ++ before st, ahead st', captured st).
Proof.
  induction w as [|c w IH]; intros Hne st st'; [congruence|].
  destruct w as [|c' w].
  - cbn [word_re den]. split.
    + intros (x & s' & Ha & Hx & ->). apply in_lit_class_ic in Hx.
      exists [x]. cbn [lower map]. split; [now rewrite Hx|]. split; [exact Ha | reflexivity].
    + intros (m & Hm & Ha & ->). destruct m as [|x [|y m]]; try discriminate Hm.
      injection Hm as Hx. exists x, (ahead st'). split; [exact Ha|].
      split; [now apply in_lit_class_ic | reflexivity].
  - change (word_re (c :: c' :: w)) with (Seq (Chr [CLit c]) (word_re (c' :: w))).
    cbn [den]. split.
    + intros (mid & (x & s' & Ha & Hx & ->) & H). apply in_lit_class_ic in Hx.
      apply IH in H; [|discriminate]. destruct H as (m & Hm & Ha' & ->).
      cbn [ahead before captured fst snd] in *. exists (x :: m).
      split; [|split; [now rewrite Ha, Ha'|]].
      { change (lower (x :: m)) with (to_lower x :: lower m).
        change (lower (c :: c' :: w)) with (to_lower c :: lower (c' :: w)).
        now rewrite Hx, Hm. }
      cbn [rev]. now rewrite <- app_assoc.
    + intros (m & Hm & Ha & ->). destruct m as [|x m]; [discriminate Hm|].
      change (lower (x :: m)) with (to_lower x :: lower m) in Hm.
      change (lower (c :: c' :: w)) with (to_lower c :: lower (c' :: w)) in Hm.
      injection Hm as Hx Hm.
      exists (x :: before st, m ++ ahead st', captured st). split.
      * exists x, (m ++ ahead st'). split; [exact Ha|].
        split; [now apply in_lit_class_ic | reflexivity].
      * apply IH; [discriminate|]. exists m. cbn [ahead before captured fst snd].
        split; [exact Hm|]. split; [reflexivity|].
        cbn [rev]. now rewrite <- app_assoc.
Qed.

Lemma den_any_word_re (more : list text) :
  forall w, Forall (fun x => x <> []) (w :: more) ->
  forall st st',
    den true (any_word_re w more) st st'
    <-> exists x m, In x (w :: more) /\ lower m = lower x /\ ahead st = m ++ ahead st'
                    /\ st' = (rev m ++ before st, ahead st', captured st).
Proof.
  induction more as [|w' more IH]; intros w Hne st st'; inversion Hne as [|? ? Hw Hmore]; subst.
  - cbn [any_word_re]. rewrite (den_word_re w Hw). split.
    + intros (m & H). exists w, m. split; [now left | exact H].
    + intros (x & m & [<-|[]] & H). now exists m.
  - cbn [any_word_re den]. rewrite (den_word_re w Hw), (IH w' Hmore). split.
    + intros [(m & H) | (x & m & Hin & H)].
      * exists w, m. split; [now left | exact H].
      * exists x, m. split; [now right | exact H].
    + intros (x & m & [<-|Hin] & H).
      * left. now exists m.
      * right. exists x, m. now split.
Qed.

(** An alternation of keywords is found with [re.IGNORECASE] exactly when
    a stretch of the text reads as one of the keywords. *)
Lemma search_any_word (pattern w : text) (more : list text) (content : text) :
  parse pattern = Some (any_word_re w more) ->
  Forall (fun x => x <> []) (w :: more) ->
  (re_search pattern true content = true
   <-> exists x, In x (w :: more) /\ occurs_ic x content).
Proof.
  intros Hp Hne. rewrite (re_search_iff pattern true _ content Hp). unfold matches_at. split.
  - intros (pre & post & -> & st' & H). apply (den_any_word_re more w Hne) in H.
    destruct H as (x & m & Hin & Hm & Ha & _). exists x. split; [exact Hin|].
    cbn [ahead fst snd] in Ha. exists pre, m, (ahead st').
    split; [now rewrite Ha | now apply reads_as_lower].
  - intros (x & Hin & pre & m & post & -> & Hm). apply reads_as_lower in Hm.
    exists pre, (m ++ post).
    split; [reflexivity|]. exists (rev m ++ rev pre, post, []).
    apply (den_any_word_re more w Hne).
    exists x, m. split; [exact Hin|]. split; [exact Hm|].
    cbn [ahead before captured fst snd]. split; reflexivity.
Qed.

Lemma keyword_factors_parse (pattern : text) (words : list text) :
  In (pattern, words) keyword_factors ->
  exists w more,
    words = w :: more /\ parse pattern = Some (any_word_re w more)
    /\ Forall (fun x => x <> []) (w :: more)
    /\ Forall (fun x => lower x = x) (w :: more).
Proof.
  intros Hin. simpl in Hin.
  repeat (destruct Hin as [Hin|Hin];
          [injection Hin as <- <-; eexists; eexists; split; [reflexivity|];
           split; [reflexivity|]; split;
           repeat constructor; discriminate|]).
  contradiction.
Qed.

(** On the characters of the model the search of a keyword factor and the
    test of its keywords on the lowercased text give the same answer. *)
Lemma keyword_factor_found (pattern : text) (words : list text) (content : text) :
  In (pattern, words) keyword_factors ->
  re_search pattern true content = any_in words (lower content).
Proof.
  intros Hin. apply eq_true_iff_eq. rewrite any_in_iff.
  destruct (keyword_factors_parse pattern words Hin) as (w & more & -> & Hp & Hne & Hlow).
  rewrite (search_any_word pattern w more content Hp Hne).
  rewrite Forall_forall in Hlow. split.
  - intros (x & Hx & Hocc). exists x. split; [exact Hx|].
    apply occurs_ic_iff in Hocc. now rewrite (Hlow x Hx) in Hocc.
  - intros (x & Hx & Hocc). exists x. split; [exact Hx|].
    apply occurs_ic_iff. now rewrite (Hlow x Hx).
Qed.

(** X14. Five of the seven strength factors are alternations of keywords.
    Such a factor is found exactly when a stretch of the text reads as
    one of its keywords, letter by letter as [re.IGNORECASE] compares
    them; and whenever one of the keywords stands in the lowercased text,
    which is how the scores look for keywords, the factor is found. *)
Theorem keyword_factors_are_word_tests (pattern : text) (words : list text)
    (content : text) :
  In (pattern, words) keyword_factors ->
  In pattern strength_factors
  /\ (re_search pattern true content = true
      <-> exists word, In word words /\ occurs_ic word content)
  /\ (mentions words content -> re_search pattern true content = true).
Proof.
  intros Hin. split; [|split].
  - simpl in Hin. unfold strength_factors.
    repeat (destruct Hin as [Hin|Hin]; [injection Hin as <- _; simpl; tauto|]).
    contradiction.
  - destruct (keyword_factors_parse pattern words Hin) as (w & more & -> & Hp & Hne & _).
    apply (search_any_word pattern w more content Hp Hne).
  - intros Hm. rewrite (keyword_factor_found pattern words content Hin).
    now apply any_in_lower_iff.
Qed.

(** An instance: the factor of urgency. *)
Lemma keyword_factors_are_word_tests_witness :
  In ("urgent|critical|immediate|asap", ["urgent"; "critical"; "immediate"; "asap"])
     keyword_factors
  /\ mentions ["urgent"; "critical"; "immediate"; "asap"] "Reply ASAP"
  /\ re_search "urgent|critical|immediate|asap" true "Reply ASAP" = true.
Proof.
  assert (H : In ("urgent|critical|immediate|asap",
                  ["urgent"; "critical"; "immediate"; "asap"]) keyword_factors)
    by (simpl; tauto).
  assert (Hm : mentions ["urgent"; "critical"; "immediate"; "asap"] "Reply ASAP").
  { exists "asap". split; [simpl; tauto|]. apply contains_iff. reflexivity. }
  split; [exact H|]. split; [exact Hm|].
  exact (proj2 (proj2 (keyword_factors_are_word_tests _ _ "Reply ASAP" H)) Hm).
Defined.

(** ** Percentages and dollar figures *)

Lemma search_percent_iff (content : text) :
  re_search "\d+%" false content = true <-> percent_figure content.
Proof.
  assert (Hp : parse "\d+%" = Some percent_re) by reflexivity.
  rewrite (re_search_iff _ false percent_re content Hp).
  unfold percent_figure, matches_at. split.
  - intros (pre & post & -> & st' & H). unfold percent_re, Plus in H. cbn [den] in H.
    destruct H as (s1 & (s1a & H1 & H1') & H2).
    apply den_class_inv in H1, H2.
    destruct H1 as (d1 & A1 & C1). destruct H2 as (p & A2 & C2).
    rewrite in_digit_class in C1. apply in_lit_class in C2. subst p.
    apply (den_consumes false (fun c => is_digit c = true) (Star (Chr [CDigit])))
      in H1'; [|intros c Hc; now rewrite in_digit_class in Hc].
    destruct H1' as (ds & A1' & _ & F1).
    destruct (digits_last d1 ds C1 F1) as (init & d & E & Hd & _).
    cbn [ahead fst snd] in A1.
    exists (pre ++ init), d, (ahead st'). split; [exact Hd|].
    rewrite A1, A1', A2, app_comm_cons, E. simpl. now rewrite <- !app_assoc.
  - intros (pre & d & post & Hd & ->). exists pre, ([d] ++ "%" ++ post).
    split; [reflexivity|]. eexists. unfold percent_re, Plus. cbn [den app].
    eexists. split.
    { eexists. split; [apply den_class; now rewrite in_digit_class|]. apply star_stop. }
    apply den_class. reflexivity.
Qed.

Lemma roi_percentage_parts (content : text) :
  roi_percentage content -> occurs "roi" (lower content) /\ percent_figure content.
Proof.
  intros (pre & d & mid & w & post & Hd & Hw & _ & [-> | ->]);
    apply reads_as_lower in Hw; change (lower "roi") with "roi" in Hw; split.
  - exists (lower (pre ++ [d] ++ "%" ++ mid)), (lower post).
    rewrite <- Hw, <- !lower_app. f_equal. now rewrite <- !app_assoc.
  - exists pre, d, (mid ++ w ++ post). now split.
  - exists (lower pre), (lower (mid ++ [d] ++ "%" ++ post)).
    now rewrite <- Hw, <- !lower_app.
  - exists (pre ++ w ++ mid), d, post. split; [exact Hd|]. now rewrite <- !app_assoc.
Qed.

Lemma two_dollar_figures_dollar (content : text) :
  two_dollar_figures content -> occurs "$" content.
Proof. intros (pre & a & mid & b & post & -> & _). now exists pre, ([a] ++ mid ++ "$" ++ [b] ++ post). Qed.

Lemma in_strategic_recommendations (content : text) (context : Context) (x : text) :
  In x (_generate_strategic_recommendations content context)
  <-> (~ occurs "roi" (lower content) /\ x = advice_roi)
      \/ (~ percent_figure content /\ x = advice_percentages)
      \/ ((~ occurs "testimonial" (lower content) /\ ~ occurs "reference" (lower content))
          /\ x = advice_testimonials)
      \/ (length (split_ws content) < 300 /\ x = advice_plan)
      \/ x = advice_risk \/ x = advice_differentiation.
Proof.
  unfold _generate_strategic_recommendations. rewrite !in_app_iff, !in_when.
  rewrite andb_true_iff, !negb_true_iff, !contains_false_iff, Nat.ltb_lt.
  rewrite <- not_true_iff_false, search_percent_iff.
  cbn [In]. unfold advice_risk, advice_differentiation. intuition congruence.
Qed.

Lemma in_opportunities (content : text) (x : text) :
  In x (_identify_optimization_opportunities content)
  <-> ((occurs "$" content /\ occurs "roi" (lower content)) /\ x = opportunity_roi)
      \/ (re_search "\d+\s*(day|week)" false content = true /\ x = opportunity_timeline)
      \/ (occurs "agent" (lower content) /\ x = opportunity_agents)
      \/ x = opportunity_urgency \/ x = opportunity_social_proof.
Proof.
  unfold _identify_optimization_opportunities. rewrite !in_app_iff, !in_when.
  rewrite andb_true_iff, !contains_iff.
  cbn [In]. unfold opportunity_urgency, opportunity_social_proof. intuition congruence.
Qed.

(** ** With and without IGNORECASE *)

Lemma in_cset_ic (items : list citem) (c : ascii) :
  in_cset false items c = true -> in_cset true items c = true.
Proof.
  unfold in_cset. rewrite !existsb_exists. intros (it & Hin & H). exists it.
  split; [exact Hin|]. destruct it; try exact H. simpl in H |- *.
  apply ascii_eqb_eq in H. subst. apply ascii_eqb_refl.
Qed.

Lemma star_steps_mono (R R' : mstate -> mstate -> Prop) :
  (forall st st', R st st' -> R' st st') ->
  forall st st', star_steps R st st' -> star_steps R' st st'.
Proof.
  intros H st st' Hs. induction Hs as [st | st st1 st2 H1 Hlt _ IH].
  - apply star_stop.
  - apply star_step with (st1 := st1); [now apply H | exact Hlt | exact IH].
Qed.

(** What matches with the case respected matches with the case ignored. *)
Lemma den_ic (r : regex) :
  forall st st', den false r st st' -> den true r st st'.
Proof.
  induction r as [|items|r1 IH1 r2 IH2|r1 IH1 r2 IH2|r1 IH1|i r1 IH1|];
    intros st st' H; cbn [den] in H |- *.
  - exact H.
  - destruct H as (c & s' & Ha & Hc & ->). exists c, s'.
    split; [exact Ha|]. split; [now apply in_cset_ic | reflexivity].
  - destruct H as (mid & H1 & H2). exists mid. split; [now apply IH1 | now apply IH2].
  - destruct H as [H|H]; [left; now apply IH1 | right; now apply IH2].
  - revert st st' H. apply star_steps_mono. exact IH1.
  - destruct H as (st1 & H1 & ->). exists st1. split; [now apply IH1 | reflexivity].
  - exact H.
Qed.

Lemma re_search_ic (pattern : text) (content : text) :
  re_search pattern false content = true -> re_search pattern true content = true.
Proof.
  destruct (parse pattern) as [r|] eqn:Hp.
  - rewrite !(re_search_iff pattern _ r content Hp).
    intros (pre & post & Hc & st' & H). exists pre, post. split; [exact Hc|].
    exists st'. now apply den_ic.
  - unfold re_search. now rewrite Hp.
Qed.

(** ** The strength factors against the other fields *)

Lemma proposal_strength_zero (content : text) :
  _analyze_proposal_strength content = float_of_Z 0
  <-> forall pattern, In pattern strength_factors ->
                      re_search pattern true content = false.
Proof.
  pose proof (factors_found_le content) as Hle.
  destruct (percentage_values 7 _ (or_intror eq_refl) Hle) as (_ & S2 & _).
  change (_analyze_proposal_strength content) with (percentage (factors_found content) 7).
  rewrite S2. unfold factors_found. rewrite filter_none. split.
  - intros H pattern Hin. apply (H (re_search pattern true content)).
    now apply (in_map (fun pattern => re_search pattern true content)).
  - intros H b Hb. apply in_map_iff in Hb. destruct Hb as (p & <- & Hin). now apply H.
Qed.

Lemma timeline_factor_found (content : text) :
  re_search "\d+\s*(day|week)" false content = true ->
  re_search "\d+\s*(days?|weeks?|months?)|timeline|schedule" true content = true.
Proof.
  intros H. apply re_search_ic in H.
  destruct (parse "\d+\s*(day|week)") as [r1|] eqn:Hp1; [|discriminate Hp1].
  destruct (parse "\d+\s*(days?|weeks?|months?)|timeline|schedule") as [r3|] eqn:Hp3;
    [|discriminate Hp3].
  rewrite (re_search_iff _ true r1 content Hp1) in H.
  rewrite (re_search_iff _ true r3 content Hp3).
  destruct H as (pre & post & Hc & st' & H). exists pre, post. split; [exact Hc|].
  injection Hp1 as <-. injection Hp3 as <-. unfold matches_at. cbn [den] in H |- *.
  destruct H as (m1 & Hdigits & m2 & Hblanks & st1 & Hword & ->).
  eexists. left. exists m1. split; [exact Hdigits|]. exists m2. split; [exact Hblanks|].
  exists st1. split; [|reflexivity].
  destruct Hword as [(a & Ha & b & Hb & Hy) | (a & Ha & b & Hb & c & Hc' & Hk)].
  - left. exists a. split; [exact Ha|]. exists b. split; [exact Hb|].
    exists st1. split; [exact Hy | now right].
  - right. left. exists a. split; [exact Ha|]. exists b. split; [exact Hb|].
    exists c. split; [exact Hc'|]. exists st1. split; [exact Hk | now right].
Qed.

Lemma investment_factor_found (content : text) :
  two_dollar_figures content ->
  re_search "\$[\d,]+|investment|cost|price" true content = true.
Proof.
  intros (pre & a & mid & b & post & -> & Ha & _).
  assert (Hp : parse "\$[\d,]+|investment|cost|price"
               = Some (Alt (Seq (Chr [CLit "$"]) (Plus (Chr [CDigit; CLit ","])))
                           (any_word_re "investment" ["cost"; "price"])))
    by reflexivity.
  rewrite (re_search_iff _ true _ _ Hp).
  exists pre, ("$" ++ [a] ++ mid ++ "$" ++ [b] ++ post). split; [reflexivity|].
  eexists. unfold Plus. cbn [den app]. left.
  eexists. split; [apply den_class; reflexivity|].
  eexists. split; [apply den_class; now rewrite in_figure_class|]. apply star_stop.
Qed.

Lemma roi_factor_found (content : text) :
  occurs "roi" (lower content) -> re_search "roi|return|benefit|value" true content = true.
Proof.
  intros H.
  rewrite (keyword_factor_found _ ["roi"; "return"; "benefit"; "value"] content)
    by (simpl; tauto).
  apply any_in_iff. exists "roi". split; [now left | exact H].
Qed.

Lemma two_factors_found (content : text) :
  re_search "\$[\d,]+|investment|cost|price" true content = true ->
  re_search "roi|return|benefit|value" true content = true ->
  2 <= factors_found content.
Proof.
  intros H4 H5. unfold factors_found, strength_factors. cbn [map filter].
  rewrite H4, H5.
  destruct (re_search "problem|challenge|issue|pain" true content);
    destruct (re_search "solution|approach|strategy|method" true content);
    destruct (re_search "\d+\s*(days?|weeks?|months?)|timeline|schedule" true content);
    destruct (re_search "team|experience|expert|professional" true content);
    destruct (re_search "urgent|critical|immediate|asap" true content);
    cbn [length filter]; lia.
Qed.

(** X15. The fields of a strategic analysis agree on the return on
    investment.  The analysis of the class as written always succeeds, and
    in its findings: with an ROI clarity of 75 or 95 the opportunity to
    highlight the ROI is given exactly when the advice to add ROI
    calculations is not, and the readiness score is not 0.0; an ROI
    clarity of 95 comes without the advice to include percentages and
    with a readiness of 2/7 of 100 at least; an ROI clarity of 60 comes
    without the advice to add ROI calculations; an ROI clarity of 30 comes
    with that advice and without that opportunity; and a readiness score
    of 0.0 comes with an ROI clarity of 30. *)
Theorem roi_fields_agree (content : text) (context : option Context) (clock : datetime) :
  exists r,
    strategic_analysis ClarityCPA content context clock = Return (Success r)
    /\ ((75 <= roi_clarity (proposal_strength_assessment r))%Z ->
        (In opportunity_roi (optimization_opportunities r)
         <-> ~ In advice_roi (strategic_recommendations r))
        /\ proposal_readiness_score r <> float_of_Z 0)
    /\ (roi_clarity (proposal_strength_assessment r) = 95%Z ->
        ~ In advice_percentages (strategic_recommendations r)
        /\ fleb (percentage 2 7) (proposal_readiness_score r) = true)
    /\ (roi_clarity (proposal_strength_assessment r) = 60%Z ->
        ~ In advice_roi (strategic_recommendations r))
    /\ (roi_clarity (proposal_strength_assessment r) = 30%Z ->
        In advice_roi (strategic_recommendations r)
        /\ ~ In opportunity_roi (optimization_opportunities r))
    /\ (proposal_readiness_score r = float_of_Z 0 ->
        roi_clarity (proposal_strength_assessment r) = 30%Z).
Proof.
  eexists. split; [reflexivity|].
  cbn [proposal_strength_assessment roi_clarity strategic_recommendations
       optimization_opportunities proposal_readiness_score].
  assert (Hroi : ~ In advice_roi (_generate_strategic_recommendations content
                                    (context_or_empty context))
                 <-> occurs "roi" (lower content)).
  { rewrite in_strategic_recommendations. split.
    - intros H. destruct (contains "roi" (lower content)) eqn:E;
        [now apply contains_iff|].
      exfalso. apply H. left. split; [now apply contains_false_iff | reflexivity].
    - intros Ho [[H _]|[[_ H]|[[_ H]|[[_ H]|[H|H]]]]]; try discriminate H. now apply H. }
  assert (Hfigures : two_dollar_figures content ->
            (In opportunity_roi (_identify_optimization_opportunities content)
             <-> ~ In advice_roi (_generate_strategic_recommendations content
                                    (context_or_empty context)))
            /\ _analyze_proposal_strength content <> float_of_Z 0).
  { intros Hfig. split.
    - rewrite Hroi, in_opportunities. split.
      + intros [[[_ Ho] _]|[[_ H]|[[_ H]|[H|H]]]]; try discriminate H. exact Ho.
      + intros Ho. left. split; [|reflexivity].
        split; [now apply two_dollar_figures_dollar | exact Ho].
    - intros H0.
      apply proposal_strength_zero
        with (pattern := "\$[\d,]+|investment|cost|price") in H0;
        [|unfold strength_factors; simpl; tauto].
      rewrite (investment_factor_found content Hfig) in H0. discriminate. }
  unfold _score_roi_clarity.
  destruct (re_search "\$[\d,]+.*\$[\d,]+" false content) eqn:Efig.
  - apply search_figures_iff in Efig. destruct (Hfigures Efig) as [Hopp Hready].
    destruct (re_search "\d+%.*roi|roi.*\d+%" true content) eqn:Epct.
    + apply search_roi_percentage_iff in Epct.
      destruct (roi_percentage_parts content Epct) as [Ho Hp].
      split; [now intros _|]. split; [|split; [discriminate|split; [discriminate|]]].
      * intros _. split.
        -- rewrite in_strategic_recommendations.
           intros [[_ H]|[[H _]|[[_ H]|[[_ H]|[H|H]]]]]; try discriminate H.
           now apply H.
        -- apply percentage_mono_7. split; [|apply factors_found_le].
           apply two_factors_found;
             [now apply investment_factor_found | now apply roi_factor_found].
      * intros H0. now exfalso.
    + split; [now intros _|].
      split; [discriminate|split; [discriminate|split; [discriminate|]]].
      intros H0. now exfalso.
  - destruct (contains "roi" (lower content)) eqn:Er.
    + apply contains_iff in Er.
      split; [intros H; exfalso; lia|].
      split; [discriminate|split; [|split; [discriminate|]]].
      * intros _. now apply Hroi.
      * intros H0. exfalso.
        apply proposal_strength_zero with (pattern := "roi|return|benefit|value") in H0;
          [|unfold strength_factors; simpl; tauto].
        rewrite (roi_factor_found content Er) in H0. discriminate.
    + apply contains_false_iff in Er.
      split; [intros H; exfalso; lia|].
      split; [discriminate|split; [discriminate|split; [|reflexivity]]].
      intros _. split.
      * apply in_strategic_recommendations. left. now split.
      * rewrite in_opportunities.
        intros [[[_ H] _]|[[_ H]|[[_ H]|[H|H]]]]; try discriminate H. now apply Er.
Qed.

(** An instance: an analysis with an ROI clarity of 95. *)
Lemma roi_fields_agree_witness :
  exists r,
    strategic_analysis ClarityCPA "Invest $5,000, earn $20,000: an ROI of 300%" None noon
    = Return (Success r)
    /\ roi_clarity (proposal_strength_assessment r) = 95%Z
    /\ ~ In advice_percentages (strategic_recommendations r)
    /\ fleb (percentage 2 7) (proposal_readiness_score r) = true.
Proof.
  destruct (roi_fields_agree "Invest $5,000, earn $20,000: an ROI of 300%" None noon)
    as (r & Hr & _ & H95 & _).
  exists r. split; [exact Hr|].
  assert (H : roi_clarity (proposal_strength_assessment r) = 95%Z).
  { apply (f_equal (fun o => match o with
                             | Return (Success x) =>
                                 roi_clarity (proposal_strength_assessment x)
                             | _ => 0%Z
                             end)) in Hr.
    rewrite <- Hr. vm_compute. reflexivity. }
  split; [exact H | exact (H95 H)].
Defined.

Lemma any_in_false (words : list text) (s : text) :
  any_in words s = false -> forall word, In word words -> contains word s = false.
Proof.
  unfold any_in. intros H word Hin.
  destruct (contains word s) eqn:E; [|reflexivity].
  assert (Ht : existsb (fun word => contains word s) words = true)
    by (apply existsb_exists; now exists word).
  congruence.
Qed.

Lemma keyword_factor_missing (pattern : text) (words : list text) (content : text) :
  In (pattern, words) keyword_factors ->
  _analyze_proposal_strength content = float_of_Z 0 ->
  forall word, In word words -> contains word (lower content) = false.
Proof.
  intros Hin H0. apply any_in_false.
  rewrite <- (keyword_factor_found pattern words content Hin).
  apply (proj1 (proposal_strength_zero content) H0).
  simpl in Hin. unfold strength_factors.
  repeat (destruct Hin as [Hin|Hin]; [injection Hin as <- _; simpl; tauto|]).
  contradiction.
Qed.

(** X16. The fields of a strategic analysis agree on urgency.  In the
    findings of an analysis: when "urgency" is a primary motivator the
    urgency score is 40 at least; an urgency score of 60 or more, or
    "urgency" among the motivators, rules out a readiness score of 0.0;
    and a readiness score of 0.0 comes with an urgency score of 40 at
    most, a value proposition score of 75 at most, a credibility score of
    60 at most and without "urgency" among the motivators. *)
Theorem urgency_fields_agree (content : text) (context : option Context)
    (clock : datetime) :
  exists r,
    strategic_analysis ClarityCPA content context clock = Return (Success r)
    /\ (In "urgency" (primary_motivators (client_psychology_insights r)) ->
        (40 <= urgency (proposal_strength_assessment r))%Z
        /\ proposal_readiness_score r <> float_of_Z 0)
    /\ ((60 <= urgency (proposal_strength_assessment r))%Z ->
        proposal_readiness_score r <> float_of_Z 0)
    /\ (proposal_readiness_score r = float_of_Z 0 ->
        (urgency (proposal_strength_assessment r) <= 40)%Z
        /\ (value_proposition (proposal_strength_assessment r) <= 75)%Z
        /\ (credibility (proposal_strength_assessment r) <= 60)%Z
        /\ ~ In "urgency" (primary_motivators (client_psychology_insights r))).
Proof.
  eexists. split; [reflexivity|].
  cbn [proposal_strength_assessment urgency value_proposition credibility
       client_psychology_insights proposal_readiness_score].
  assert (Hmot : In "urgency" (primary_motivators
                                 (_analyze_client_psychology content
                                    (context_or_empty context)))
                 <-> 3 <= count_in urgency_words (lower content)).
  { unfold _analyze_client_psychology. cbn [primary_motivators].
    rewrite !in_app_iff, !in_when. unfold weighted_hits. rewrite Z.ltb_lt. split.
    - intros [[H _]|[[_ H]|[_ H]]]; try discriminate H. lia.
    - intros H. left. split; [lia | reflexivity]. }
  assert (Hfactor : 3 <= count_in urgency_words (lower content)
                    \/ 3 <= count_in urgency_indicators (lower content) ->
                    _analyze_proposal_strength content <> float_of_Z 0).
  { intros Hcount H0.
    pose proof (keyword_factor_missing "urgent|critical|immediate|asap"
                  ["urgent"; "critical"; "immediate"; "asap"] content) as Hmiss.
    specialize (Hmiss ltac:(simpl; tauto) H0).
    assert (H1 : contains "urgent" (lower content) = false)
      by (apply Hmiss; simpl; tauto).
    assert (H2 : contains "critical" (lower content) = false)
      by (apply Hmiss; simpl; tauto).
    assert (H3 : contains "immediate" (lower content) = false)
      by (apply Hmiss; simpl; tauto).
    assert (H4 : contains "asap" (lower content) = false)
      by (apply Hmiss; simpl; tauto).
    unfold count_in, urgency_words, urgency_indicators in Hcount.
    cbn [filter] in Hcount. rewrite H1, H2, H3, H4 in Hcount.
    destruct (contains "crisis" (lower content));
      destruct (contains "emergency" (lower content));
      destruct (contains "deadline" (lower content));
      cbn [length] in Hcount; lia. }
  split; [|split].
  - rewrite Hmot. intros H. split; [|apply Hfactor; now left].
    unfold _score_urgency, weighted_hits. revert H.
    unfold count_in, urgency_words. cbn [filter].
    destruct (contains "critical" (lower content));
      destruct (contains "urgent" (lower content));
      destruct (contains "immediate" (lower content));
      destruct (contains "crisis" (lower content));
      destruct (contains "emergency" (lower content));
      destruct (contains "deadline" (lower content));
      destruct (contains "asap" (lower content));
      cbn [length]; lia.
  - intros H. apply Hfactor. right. revert H.
    unfold _score_urgency, weighted_hits. fold urgency_indicators. lia.
  - intros H0. split; [|split; [|split]].
    + destruct (Z.le_gt_cases (_score_urgency content) 40) as [H|H]; [exact H|].
      exfalso. apply Hfactor; [|exact H0]. right. revert H.
      unfold _score_urgency, weighted_hits. fold urgency_indicators. lia.
    + pose proof (keyword_factor_missing "roi|return|benefit|value"
                    ["roi"; "return"; "benefit"; "value"] content
                    ltac:(simpl; tauto) H0) as Hmiss.
      assert (H1 : contains "roi" (lower content) = false)
        by (apply Hmiss; simpl; tauto).
      assert (H2 : contains "benefit" (lower content) = false)
        by (apply Hmiss; simpl; tauto).
      unfold _score_value_proposition, weighted_hits, count_in. cbn [filter].
      rewrite H1, H2.
      destruct (contains "save" (lower content));
        destruct (contains "reduce" (lower content));
        destruct (contains "increase" (lower content));
        destruct (contains "improve" (lower content));
        destruct (contains "optimize" (lower content));
        cbn [length]; lia.
    + pose proof (keyword_factor_missing "team|experience|expert|professional"
                    ["team"; "experience"; "expert"; "professional"] content
                    ltac:(simpl; tauto) H0) as Hmiss.
      assert (H1 : contains "experience" (lower content) = false)
        by (apply Hmiss; simpl; tauto).
      assert (H2 : contains "expert" (lower content) = false)
        by (apply Hmiss; simpl; tauto).
      unfold _score_credibility, weighted_hits, count_in. cbn [filter].
      rewrite H1, H2.
      destruct (contains "proven" (lower content));
        destruct (contains "track record" (lower content));
        destruct (contains "certified" (lower content));
        destruct (contains "years" (lower content));
        cbn [length]; lia.
    + rewrite Hmot. intros H. apply Hfactor; [now left | exact H0].
Qed.

(** An instance: three urgency words. *)
Lemma urgency_fields_agree_witness :
  exists r,
    strategic_analysis ClarityCPA "Urgent: a critical crisis" None noon
    = Return (Success r)
    /\ In "urgency" (primary_motivators (client_psychology_insights r))
    /\ (40 <= urgency (proposal_strength_assessment r))%Z
    /\ proposal_readiness_score r <> float_of_Z 0.
Proof.
  destruct (urgency_fields_agree "Urgent: a critical crisis" None noon)
    as (r & Hr & Hmot & _).
  exists r. split; [exact Hr|].
  assert (H : In "urgency" (primary_motivators (client_psychology_insights r))).
  { apply (f_equal (fun o => match o with
                             | Return (Success x) =>
                                 primary_motivators (client_psychology_insights x)
                             | _ => []
                             end)) in Hr.
    rewrite <- Hr. vm_compute. now left. }
  split; [exact H | exact (Hmot H)].
Defined.

(** ** Strategic advice and opportunities *)

Lemma strategic_advice_distinct :
  NoDup [advice_roi; advice_percentages; advice_testimonials; advice_plan;
         advice_risk; advice_differentiation].
Proof. repeat constructor; simpl; intuition discriminate. Qed.

Lemma opportunities_distinct :
  NoDup [opportunity_roi; opportunity_timeline; opportunity_agents;
         opportunity_urgency; opportunity_social_proof].
Proof. repeat constructor; simpl; intuition discriminate. Qed.

(** X17. The two lists of a strategic analysis.  Each goes through its
    entries in a fixed order and ends with its two standing entries, so
    that the recommendations number two to six, the opportunities two to
    five, and neither list holds an entry twice.  The advice to include
    percentages is given exactly when no digit of the text is followed by
    a percent sign.  The opportunity to highlight the ROI is never given
    together with the advice to add ROI calculations, and the opportunity
    of a rapid timeline is never given with a readiness score of 0.0. *)
Theorem advice_and_opportunities (content : text) (context : Context) :
  let recommendations := _generate_strategic_recommendations content context in
  let opportunities := _identify_optimization_opportunities content in
  (exists front, recommendations = front ++ [advice_risk; advice_differentiation]
                 /\ length front <= 4)
  /\ (exists front, opportunities = front ++ [opportunity_urgency; opportunity_social_proof]
                    /\ length front <= 3)
  /\ NoDup recommendations /\ NoDup opportunities
  /\ (In advice_percentages recommendations <-> ~ percent_figure content)
  /\ (In opportunity_roi opportunities -> ~ In advice_roi recommendations)
  /\ (In opportunity_timeline opportunities ->
      _analyze_proposal_strength content <> float_of_Z 0).
Proof.
  intros recommendations opportunities.
  split; [|split; [|split; [|split; [|split; [|split]]]]].
  - unfold recommendations, _generate_strategic_recommendations.
    eexists. rewrite !app_assoc. split; [reflexivity|].
    rewrite !length_app. unfold when.
    destruct (negb (contains "roi" (lower content)));
      destruct (negb (re_search "\d+%" false content));
      destruct (negb (contains "testimonial" (lower content))
                && negb (contains "reference" (lower content)));
      destruct (length (split_ws content) <? 300); simpl; lia.
  - unfold opportunities, _identify_optimization_opportunities.
    eexists. rewrite !app_assoc. split; [reflexivity|].
    rewrite !length_app. unfold when.
    destruct (contains "$" content && contains "roi" (lower content));
      destruct (re_search "\d+\s*(day|week)" false content);
      destruct (contains "agent" (lower content)); simpl; lia.
  - pose proof strategic_advice_distinct as Hd.
    unfold recommendations, _generate_strategic_recommendations.
    fold advice_roi advice_percentages advice_testimonials advice_plan.
    refine (proj1 (NoDup_skip _ _ _ Hd _ _)). intros Hd1.
    refine (NoDup_skip _ _ _ Hd1 _ _). intros Hd2.
    refine (NoDup_skip _ _ _ Hd2 _ _). intros Hd3.
    refine (NoDup_skip _ _ _ Hd3 _ _). intros Hd4.
    split; [exact Hd4 | apply incl_refl].
  - pose proof opportunities_distinct as Hd.
    unfold opportunities, _identify_optimization_opportunities.
    fold opportunity_roi opportunity_timeline opportunity_agents.
    refine (proj1 (NoDup_skip _ _ _ Hd _ _)). intros Hd1.
    refine (NoDup_skip _ _ _ Hd1 _ _). intros Hd2.
    refine (NoDup_skip _ _ _ Hd2 _ _). intros Hd3.
    split; [exact Hd3 | apply incl_refl].
  - unfold recommendations. rewrite in_strategic_recommendations. split.
    + intros [[_ H]|[[H _]|[[_ H]|[[_ H]|[H|H]]]]]; try discriminate H. exact H.
    + intros H. right. left. now split.
  - unfold recommendations, opportunities.
    rewrite in_strategic_recommendations, in_opportunities.
    intros [[[_ Ho] _]|[[_ H]|[[_ H]|[H|H]]]]; try discriminate H.
    intros [[Hn _]|[[_ H]|[[_ H]|[[_ H]|[H|H]]]]]; try discriminate H. now apply Hn.
  - unfold opportunities. rewrite in_opportunities.
    intros [[_ H]|[[Hs _]|[[_ H]|[H|H]]]]; try discriminate H.
    intros H0.
    apply proposal_strength_zero
      with (pattern := "\d+\s*(days?|weeks?|months?)|timeline|schedule") in H0;
      [|unfold strength_factors; simpl; tauto].
    rewrite (timeline_factor_found content Hs) in H0. discriminate.
Qed.

(** An instance: a text with a timeline in weeks. *)
Lemma advice_and_opportunities_witness :
  In opportunity_timeline (_identify_optimization_opportunities "Delivery in 6 weeks")
  /\ _analyze_proposal_strength "Delivery in 6 weeks" <> float_of_Z 0.
Proof.
  assert (H : In opportunity_timeline
                 (_identify_optimization_opportunities "Delivery in 6 weeks"))
    by (vm_compute; now left).
  split; [exact H|].
  exact (proj2 (proj2 (proj2 (proj2 (proj2 (proj2
           (advice_and_opportunities "Delivery in 6 weeks" [])))))) H).
Defined.

(** ** Misspellings are whole words *)

Lemma den_lits_inv (w : text) :
  forall (b s : text) (g : caps) (r : regex) (st' : mstate),
    den true (lits w r) (b, s, g) st' ->
    exists m rest, s = m ++ rest /\ lower m = lower w
                   /\ den true r (rev m ++ b, rest, g) st'.
Proof.
  induction w as [|c w IH]; intros b s g r st' H.
  - exists [], s. repeat split. exact H.
  - cbn [lits den] in H. destruct H as (mid & (x & s' & Ha & Hx & ->) & H).
    cbn [ahead before captured fst snd] in *. apply in_lit_class_ic in Hx.
    apply IH in H. destruct H as (m & rest & -> & Hm & H).
    exists (x :: m), rest. split; [exact Ha|]. split.
    + change (lower (x :: m)) with (to_lower x :: lower m).
      change (lower (c :: w)) with (to_lower c :: lower w). now rewrite Hx, Hm.
    + cbn [rev]. now rewrite <- app_assoc.
Qed.

Lemma forallb_is_word_lower (m w : text) :
  lower m = lower w -> forallb is_word w = true -> forallb is_word m = true.
Proof.
  revert w. induction m as [|x m IH]; intros w Hl Hw; [reflexivity|].
  destruct w as [|c w]; [discriminate|].
  change (lower (x :: m)) with (to_lower x :: lower m) in Hl.
  change (lower (c :: w)) with (to_lower c :: lower w) in Hl.
  injection Hl as Hx Hl. simpl in Hw |- *. apply andb_true_iff in Hw.
  destruct Hw as [Hc Hw]. rewrite <- (is_word_to_lower x), Hx, is_word_to_lower, Hc.
  simpl. now apply (IH w).
Qed.

Lemma head_is_word_rev_app (m b : text) :
  m <> [] -> forallb is_word m = true -> head_is_word (rev m ++ b) = true.
Proof.
  intros Hne Hm. destruct (rev m) as [|c r] eqn:E.
  - exfalso. apply Hne. apply (f_equal (@rev ascii)) in E.
    now rewrite rev_involutive in E.
  - simpl. rewrite forallb_forall in Hm. apply Hm. apply in_rev. rewrite E. now left.
Qed.

(** The pattern [\bw\b] matches right after [pre] exactly when a whole
    word that reads as [w] starts there. *)
Lemma word_rule_iff (w pre post : text) :
  w <> [] -> forallb is_word w = true ->
  (matches_at true (Seq WordB (lits w WordB)) pre post
   <-> exists m rest, post = m ++ rest /\ lower m = lower w /\ word_boundaries pre rest).
Proof.
  intros Hne Hw. split.
  - intros (st' & H). cbn [den] in H. destruct H as (mid & [Hb ->] & H).
    apply den_lits_inv in H. destruct H as (m & rest & -> & Hm & H).
    cbn [den] in H. destruct H as [He _].
    assert (Hmw : forallb is_word m = true) by now apply (forallb_is_word_lower m w).
    assert (Hmne : m <> []) by (destruct m, w; simpl in *; congruence).
    exists m, rest. split; [reflexivity|]. split; [exact Hm|]. split.
    + unfold at_boundary in Hb. cbn [before ahead fst snd] in Hb.
      destruct m as [|x m]; [congruence|]. simpl in Hb, Hmw.
      apply andb_true_iff in Hmw. destruct Hmw as [Hx _]. rewrite Hx in Hb.
      now destruct (head_is_word (rev pre)).
    + unfold at_boundary in He. cbn [before ahead fst snd] in He.
      rewrite (head_is_word_rev_app m (rev pre) Hmne Hmw) in He.
      now destruct (head_is_word rest).
  - intros (m & rest & -> & Hm & [Hb Ha]). now apply word_rule_found.
Qed.

Lemma spelling_rules_are_words (rule : text * text) :
  In rule spelling_patterns ->
  let w := spelling_text (fst rule) in
  parse (fst rule) = Some (Seq WordB (lits w WordB))
  /\ w <> [] /\ forallb is_word w = true /\ lower w = w.
Proof.
  intros Hin. simpl in Hin.
  repeat (destruct Hin as [<-|Hin];
          [split; [reflexivity|]; split; [discriminate|]; split; reflexivity|]).
  contradiction.
Qed.

Lemma spelling_rule_found (rule : text * text) (line : text) :
  In rule spelling_patterns ->
  (re_search (fst rule) true line = true <-> whole_word (spelling_text (fst rule)) line).
Proof.
  intros Hin. destruct (spelling_rules_are_words rule Hin) as (Hp & Hne & Hw & Hl).
  rewrite (re_search_iff _ true _ line Hp). unfold whole_word. split.
  - intros (pre & post & -> & H). apply (word_rule_iff _ pre post Hne Hw) in H.
    destruct H as (m & rest & -> & Hm & Hb). exists pre, m, rest.
    split; [reflexivity|]. split; [now apply reads_as_lower | exact Hb].
  - intros (pre & m & post & -> & Hm & Hb). exists pre, (m ++ post).
    split; [reflexivity|]. apply (word_rule_iff _ pre (m ++ post) Hne Hw).
    exists m, post. split; [reflexivity|].
    split; [now apply reads_as_lower | exact Hb].
Qed.

(** ** A line in its document *)

Lemma nth_split_on (sep : ascii) (s : text) :
  forall (n : nat) (line : text),
    nth_error (split_on sep s) n = Some line ->
    exists a b, s = a ++ line ++ b
                /\ (n = 0 -> a = [])
                /\ (n <> 0 -> exists a', a = a' ++ [sep])
                /\ (b = [] \/ exists b', b = sep :: b').
Proof.
  induction s as [|c s IH]; intros n line H.
  - destruct n as [|n]; simpl in H; [|destruct n; discriminate].
    injection H as <-. exists [], []. split; [reflexivity|]. split; [reflexivity|].
    split; [congruence | now left].
  - simpl in H. destruct (ascii_eqb c sep) eqn:E.
    + apply ascii_eqb_eq in E. subst c. destruct n as [|n]; simpl in H.
      * injection H as <-. exists [], (sep :: s). split; [reflexivity|].
        split; [reflexivity|]. split; [congruence | right; now exists s].
      * apply IH in H. destruct H as (a & b & -> & Ha0 & Ha & Hb).
        exists (sep :: a), b. split; [reflexivity|]. split; [discriminate|].
        split; [|exact Hb]. intros _. destruct n as [|n].
        -- rewrite (Ha0 eq_refl). now exists [].
        -- destruct (Ha ltac:(discriminate)) as (a' & ->). now exists (sep :: a').
    + destruct (split_on sep s) as [|h t] eqn:Es.
      * exfalso. exact (split_on_nonempty _ _ Es).
      * destruct n as [|n]; simpl in H.
        -- injection H as <-. destruct (IH 0 h eq_refl) as (a & b & Hs & Ha0 & _ & Hb).
           rewrite (Ha0 eq_refl) in Hs. exists [], b.
           split; [simpl in *; now rewrite Hs|]. split; [reflexivity|].
           split; [congruence | exact Hb].
        -- destruct (IH (S n) line H) as (a & b & -> & _ & Ha & Hb).
           exists (c :: a), b. split; [reflexivity|]. split; [discriminate|].
           split; [|exact Hb]. intros _.
           destruct (Ha ltac:(discriminate)) as (a' & ->). now exists (c :: a').
Qed.

Lemma is_word_newline : is_word newline = false.
Proof. reflexivity. Qed.

(** A whole word of a line is a whole word of the document, and a whole
    word of the document lies in one of its lines. *)
Lemma whole_word_line (w content : text) :
  w <> [] -> forallb is_word w = true -> lower w = w ->
  (whole_word w content
   <-> exists n line, nth_error (split_on newline content) n = Some line
                      /\ whole_word w line).
Proof.
  intros Hne Hw Hl. split.
  - intros (pre & m & post & -> & Hm & [Hb Ha]).
    assert (Hmw : forallb is_word m = true).
    { apply (forallb_is_word_lower m w); [now apply reads_as_lower | exact Hw]. }
    assert (Hnl : ~ In newline m).
    { intros Hin. rewrite forallb_forall in Hmw. specialize (Hmw _ Hin).
      rewrite is_word_newline in Hmw. discriminate. }
    destruct (line_of_occurrence pre m post Hnl) as (n & l & h & Hline & Hl' & Hh).
    exists n, (l ++ m ++ h). split; [exact Hline|]. exists l, m, h.
    split; [reflexivity|]. split; [exact Hm|]. split; [now apply Hl' | now apply Hh].
  - intros (n & line & Hline & pre & m & post & -> & Hm & [Hb Ha]).
    destruct (nth_split_on newline content n _ Hline) as (a & b & -> & Ha0 & Hea & Hsb).
    exists (a ++ pre), m, (post ++ b). split; [now rewrite <- !app_assoc|].
    split; [exact Hm|]. split.
    + rewrite rev_app_distr. destruct (rev pre) as [|x r] eqn:E; [|exact Hb].
      cbn [app]. destruct n as [|n].
      * now rewrite (Ha0 eq_refl).
      * destruct (Hea ltac:(discriminate)) as (a' & ->).
        rewrite rev_app_distr. reflexivity.
    + destruct post as [|x post]; [|exact Ha].
      cbn [app]. destruct Hsb as [-> | (b' & ->)]; reflexivity.
Qed.

Lemma spelling_rule_of_text (rule rule' : text * text) :
  In rule spelling_patterns -> In rule' spelling_patterns ->
  spelling_text (fst rule') = spelling_text (fst rule) -> rule' = rule.
Proof.
  intros Hin Hin' H. simpl in Hin, Hin'.
  repeat (destruct Hin as [<-|Hin]; [
    repeat (destruct Hin' as [<-|Hin']; [first [reflexivity | discriminate H]|]);
    contradiction |]).
  contradiction.
Qed.

(** X18. Misspellings are whole words.  For every rule of the spelling
    table: the pattern is found in a line exactly when a stretch of the
    line reads as the word of the rule, letter by letter as
    [re.IGNORECASE] compares them, with no word character right before or
    right after it; and the inventory of a document holds a record of
    the rule exactly when such a stretch stands somewhere in the
    document. *)
Theorem misspellings_are_whole_words (rule : text * text) (content : text) :
  In rule spelling_patterns ->
  let w := spelling_text (fst rule) in
  (forall line, re_search (fst rule) true line = true <-> whole_word w line)
  /\ ((exists n original,
         In (PatternDefect n w (snd rule) original)
            (spelling_errors (_detect_errors content)))
      <-> whole_word w content).
Proof.
  intros Hin w.
  split; [intros line; now apply spelling_rule_found|].
  destruct (spelling_rules_are_words rule Hin) as (_ & Hne & Hw & Hl).
  rewrite (whole_word_line w content Hne Hw Hl).
  rewrite detect_errors_eq. cbn [spelling_errors]. split.
  - intros (n & original & Hd). apply in_flat_map in Hd.
    destruct Hd as ([k line] & Hln & Hd). unfold spelling_hits in Hd.
    apply in_flat_map in Hd. destruct Hd as (rule' & Hin' & Hd).
    cbn [fst snd] in Hd. unfold pattern_hit in Hd.
    destruct (re_search (fst rule') true line) eqn:E; [|contradiction].
    destruct Hd as [Hd|[]]. injection Hd as -> Ht _ _.
    assert (rule' = rule) as -> by now apply spelling_rule_of_text.
    unfold numbered_lines in Hln. apply in_enumerate in Hln. destruct Hln as [_ Hline].
    exists (n - 1), line. split; [exact Hline|]. now apply spelling_rule_found.
  - intros (n & line & Hline & Hword).
    exists (S n), (strip line). apply in_flat_map. exists (S n, line). split.
    + unfold numbered_lines. apply in_enumerate. split; [lia|].
      now replace (S n - 1) with n by lia.
    + unfold spelling_hits. apply in_flat_map. exists rule. split; [exact Hin|].
      cbn [fst snd]. unfold pattern_hit.
      rewrite (proj2 (spelling_rule_found rule line Hin) Hword). now left.
Qed.

(** An instance: a capitalised misspelling on the second line. *)
Lemma misspellings_are_whole_words_witness :
  In ("\brecieve\b", "receive") spelling_patterns
  /\ whole_word "recieve" ("Dear client," ++ newline :: "Recieve our thanks.")
  /\ exists n original,
       In (PatternDefect n "recieve" "receive" original)
          (spelling_errors
             (_detect_errors ("Dear client," ++ newline :: "Recieve our thanks."))).
Proof.
  assert (H : In ("\brecieve\b", "receive") spelling_patterns) by (simpl; tauto).
  assert (Hw : whole_word "recieve" ("Dear client," ++ newline :: "Recieve our thanks.")).
  { exists ("Dear client," ++ [newline]), "Recieve", " our thanks.".
    split; [reflexivity|]. split; [reflexivity|]. split; reflexivity. }
  split; [exact H|]. split; [exact Hw|].
  exact (proj2 (proj2 (misspellings_are_whole_words ("\brecieve\b", "receive")
                         ("Dear client," ++ newline :: "Recieve our thanks.") H)) Hw).
Defined.

(** ** More text *)

Lemma filter_length_mono {X} (f g : X -> bool) (l : list X) :
  (forall x, In x l -> f x = true -> g x = true) ->
  length (filter f l) <= length (filter g l).
Proof.
  induction l as [|x l IH]; intros H; simpl; [lia|].
  assert (IH' : length (filter f l) <= length (filter g l)).
  { apply IH. intros y Hy. apply H. now right. }
  destruct (f x) eqn:Ef.
  - rewrite (H x (or_introl eq_refl) Ef). simpl. lia.
  - destruct (g x); simpl; lia.
Qed.

Lemma occurs_inside (w a b c : text) : occurs w b -> occurs w (a ++ b ++ c).
Proof.
  intros (pre & post & ->). exists (a ++ pre), (post ++ c). now rewrite <- !app_assoc.
Qed.

Lemma count_in_inside (words : list text) (a b c : text) :
  count_in words (lower b) <= count_in words (lower (a ++ b ++ c)).
Proof.
  unfold count_in. apply filter_length_mono. intros w _ H.
  apply contains_iff in H. apply contains_iff. rewrite !lower_app.
  now apply occurs_inside.
Qed.


(** X19. Text added before or after a document never lowers the scores
    that count keywords: credibility, value proposition, urgency,
    persuasion and completeness of the longer text are at least those of
    the document; its primary motivators include those of the document;
    and a document classified as a business proposal stays one. *)
Theorem more_text_never_lowers_keyword_scores (a content c : text) (context : Context) :
  let longer := a ++ content ++ c in
  (_score_credibility content <= _score_credibility longer)%Z
  /\ (_score_value_proposition content <= _score_value_proposition longer)%Z
  /\ (_score_urgency content <= _score_urgency longer)%Z
  /\ (persuasion_score (_analyze_client_psychology content context)
      <= persuasion_score (_analyze_client_psychology longer context))%Z
  /\ fleb (_score_completeness content) (_score_completeness longer) = true
  /\ incl (primary_motivators (_analyze_client_psychology content context))
          (primary_motivators (_analyze_client_psychology longer context))
  /\ (_classify_document content = "business_proposal" ->
      _classify_document longer = "business_proposal").
Proof.
  intros longer. unfold longer.
  pose proof (fun words => count_in_inside words a content c) as Hcount.
  split; [|split; [|split; [|split; [|split; [|split]]]]].
  - unfold _score_credibility, weighted_hits. specialize (Hcount credibility_factors).
    fold credibility_factors. lia.
  - unfold _score_value_proposition, weighted_hits. specialize (Hcount value_indicators).
    fold value_indicators. lia.
  - unfold _score_urgency, weighted_hits. specialize (Hcount urgency_indicators).
    fold urgency_indicators. lia.
  - unfold _analyze_client_psychology, weighted_hits. cbn [persuasion_score].
    pose proof (Hcount urgency_words). pose proof (Hcount fear_words).
    pose proof (Hcount gain_words). lia.
  - apply percentage_mono. split; [apply Hcount|].
    apply (count_in_le sections).
  - unfold _analyze_client_psychology, weighted_hits. cbn [primary_motivators].
    intros x. rewrite !in_app_iff, !in_when, !Z.ltb_lt.
    pose proof (Hcount urgency_words). pose proof (Hcount fear_words).
    pose proof (Hcount gain_words).
    intros [[H2 ->]|[[H2 ->]|[H2 ->]]];
      [left | right; left | right; right]; (split; [lia | reflexivity]).
  - unfold _classify_document.
    destruct (any_in ["proposal"; "executive summary"; "investment"] (lower content))
      eqn:E.
    + intros _. apply any_in_iff in E. destruct E as (w & Hin & Ho).
      assert (E' : any_in ["proposal"; "executive summary"; "investment"]
                     (lower (a ++ content ++ c)) = true).
      { apply any_in_iff. exists w. split; [exact Hin|].
        rewrite !lower_app. now apply occurs_inside. }
      now rewrite E'.
    + destruct (any_in ["report"; "analysis"; "findings"] (lower content));
        [discriminate|].
      destruct (any_in ["email"; "message"; "correspondence"] (lower content));
        discriminate.
Qed.

(** An instance: a proposal with a paragraph added. *)
Lemma more_text_never_lowers_keyword_scores_witness :
  _classify_document "Our proposal" = "business_proposal"
  /\ _classify_document ("Dear Sir, " ++ "Our proposal" ++ " follows.")
     = "business_proposal".
Proof.
  assert (H : _classify_document "Our proposal" = "business_proposal") by reflexivity.
  split; [exact H|].
  exact (proj2 (proj2 (proj2 (proj2 (proj2 (proj2
           (more_text_never_lowers_keyword_scores "Dear Sir, " "Our proposal"
              " follows." [])))))) H).
Defined.

(** ** What a calculation needs *)

Lemma all_chars_complete (c : ascii) : In c all_chars.
Proof.
  unfold all_chars. apply in_map_iff. exists (nat_of_ascii c).
  split; [apply ascii_nat_embedding|]. apply in_seq.
  pose proof (nat_ascii_bounded c). lia.
Qed.

Lemma den_must_consume (P : ascii -> bool) (r : regex) :
  must_consume P r = true ->
  forall st st', den false r st st' ->
    exists m, ahead st = m ++ ahead st' /\ existsb P m = true.
Proof.
  induction r as [|items|r1 IH1 r2 IH2|r1 IH1 r2 IH2|r1 IH1|i r1 IH1|];
    intros Hm st st' H; cbn [must_consume] in Hm; try discriminate Hm;
    cbn [den] in H.
  - destruct H as (c & s' & Ha & Hc & ->). exists [c]. split; [exact Ha|].
    rewrite forallb_forall in Hm. specialize (Hm c (all_chars_complete c)).
    rewrite Hc in Hm. simpl in Hm |- *. now rewrite Hm.
  - destruct H as (mid & H1 & H2). apply orb_true_iff in Hm.
    destruct (den_consumes false (fun _ => True) r1 (alphabet_any false r1) _ _ H1)
      as (m1 & A1 & _ & _).
    destruct (den_consumes false (fun _ => True) r2 (alphabet_any false r2) _ _ H2)
      as (m2 & A2 & _ & _).
    destruct Hm as [Hm|Hm].
    + destruct (IH1 Hm _ _ H1) as (m & Am & Em). rewrite Am in A1.
      apply app_inv_tail in A1. subst m1.
      exists (m ++ m2). split; [now rewrite Am, A2, app_assoc|].
      rewrite existsb_app, Em. reflexivity.
    + destruct (IH2 Hm _ _ H2) as (m & Am & Em). rewrite Am in A2.
      apply app_inv_tail in A2. subst m2.
      exists (m1 ++ m). split; [now rewrite A1, Am, app_assoc|].
      rewrite existsb_app, Em. apply orb_true_r.
  - apply andb_true_iff in Hm. destruct Hm as [Hm1 Hm2].
    destruct H as [H|H]; [now apply IH1 | now apply IH2].
  - destruct H as (st1 & H1 & ->). cbn [ahead fst snd]. now apply IH1.
Qed.

Lemma findall_from_within (fuel : nat) (ic : bool) (r : regex) :
  forall (b s : text) (g : caps),
    In g (findall_from fuel ic r b s) ->
    exists b' s' skipped st',
      den ic r (b', s', []) st' /\ g = captured st' /\ s = skipped ++ s'.
Proof.
  induction fuel as [|fuel IH]; intros b s g Hin; simpl in Hin; [contradiction|].
  assert (Hnext : forall c s0, s = c :: s0 -> In g (findall_from fuel ic r (c :: b) s0) ->
            exists b' s' skipped st',
              den ic r (b', s', []) st' /\ g = captured st' /\ s = skipped ++ s').
  { intros c s0 -> H. apply IH in H. destruct H as (b' & s' & sk & st' & Hd & Hg & ->).
    exists b', s', (c :: sk), st'. now repeat split. }
  destruct (run ic r (b, s, []) Some) as [st'|] eqn:E.
  - destruct Hin as [<-|Hin].
    + apply run_sound in E. destruct E as (st1 & Hd & Hk). injection Hk as ->.
      exists b, s, [], st'. now repeat split.
    + destruct (length (ahead st') <? length s).
      * apply run_sound in E. destruct E as (st1 & Hd & Hk). injection Hk as ->.
        destruct (den_consumes ic (fun _ => True) r (alphabet_any ic r) _ _ Hd)
          as (m & Am & _ & _). cbn [ahead fst snd] in Am.
        apply IH in Hin. destruct Hin as (b' & s' & sk & st2 & Hd2 & Hg & Hs).
        exists b', s', (m ++ sk), st2. split; [exact Hd2|]. split; [exact Hg|].
        now rewrite Am, Hs, app_assoc.
      * destruct s as [|c s]; [contradiction | now apply (Hnext c s)].
  - destruct s as [|c s]; [contradiction | now apply (Hnext c s)].
Qed.

Lemma existsb_part (P : ascii -> bool) (a m b : text) :
  existsb P m = true -> existsb P (a ++ m ++ b) = true.
Proof.
  intros H. rewrite !existsb_app, H. now rewrite orb_true_r.
Qed.

(** X20. What a calculation needs.  Every calculation record carries the
    number of a line in which stand a digit, one of the signs [x], [×] and
    [*], and an equals sign: a line that lacks one of them gives no
    calculation record. *)
Theorem calculation_needs_a_product (content : text) (d : DefectRecord) :
  In d (calculation_errors (_detect_errors content)) ->
  exists line,
    nth_error (split_on newline content) (defect_line d - 1) = Some line
    /\ existsb is_digit line = true
    /\ existsb is_times line = true
    /\ In "="%char line.
Proof.
  intros Hd. rewrite detect_errors_eq in Hd. cbn [calculation_errors] in Hd.
  apply in_flat_map in Hd. destruct Hd as ([n line] & Hln & Hd).
  unfold calculation_hits in Hd. apply in_flat_map in Hd.
  destruct Hd as (m & Hm & Hd). cbn [fst snd] in Hm, Hd.
  assert (Hline : defect_line d = n).
  { revert Hd. unfold calculation_hit, check_calculation. destruct m as [[m0 m1] m2].
    destruct (py_float (replace "," "" m0)); [|contradiction].
    destruct (py_float (replace "," "" m1)); [|contradiction].
    destruct (py_float (replace "," "" m2)); [|contradiction].
    destruct (fltb _ _); [|contradiction]. now intros [<-|[]]. }
  unfold numbered_lines in Hln. apply in_enumerate in Hln. destruct Hln as [_ Hnth].
  exists line. split; [now rewrite Hline|].
  unfold re_findall3 in Hm. rewrite parse_calc_pattern in Hm.
  apply in_map_iff in Hm. destruct Hm as (g & _ & Hg).
  apply findall_from_within in Hg.
  destruct Hg as (b' & s' & skipped & st' & Hden & _ & ->).
  assert (Hpart : forall P, must_consume P calc_re = true ->
                            existsb P (skipped ++ s') = true).
  { intros P HP. destruct (den_must_consume P calc_re HP _ _ Hden) as (m' & Ha & He).
    cbn [ahead fst snd] in Ha. rewrite Ha. now apply existsb_part. }
  split; [apply Hpart; vm_compute; reflexivity|].
  split; [apply Hpart; vm_compute; reflexivity|].
  assert (He : existsb (fun c => ascii_eqb c "=") (skipped ++ s') = true)
    by (apply Hpart; vm_compute; reflexivity).
  apply existsb_exists in He. destruct He as (c & Hin & Hc).
  apply ascii_eqb_eq in Hc. now subst c.
Qed.

(** An instance: the record of a wrong product. *)
Lemma calculation_needs_a_product_witness :
  let d := CalculationDefect 1 (calc_expression "100" "5" "600") "500.00"
             "Should be 500.00, not 600" in
  In d (calculation_errors (_detect_errors "100 x 5 = 600"))
  /\ exists line,
       nth_error (split_on newline "100 x 5 = 600") (defect_line d - 1) = Some line
       /\ existsb is_digit line = true
       /\ existsb is_times line = true
       /\ In "="%char line.
Proof.
  assert (H : In (CalculationDefect 1 (calc_expression "100" "5" "600") "500.00"
                    "Should be 500.00, not 600")
                 (calculation_errors (_detect_errors "100 x 5 = 600")))
    by (vm_compute; now left).
  split; [exact H|].
  exact (calculation_needs_a_product "100 x 5 = 600" _ H).
Defined.

(** ** A match inside a longer text *)

Lemma den_widen (ic : bool) (x y : text) (r : regex) :
  no_boundary r = true ->
  forall st st', den ic r st st' -> den ic r (widen x y st) (widen x y st').
Proof.
  induction r as [|items|r1 IH1 r2 IH2|r1 IH1 r2 IH2|r1 IH1|i r1 IH1|];
    intros Hnb st st' H; cbn [no_boundary] in Hnb; try discriminate Hnb;
    cbn [den] in H |- *.
  - now subst.
  - destruct H as (c & s' & Ha & Hc & ->). exists c, (s' ++ y).
    unfold widen. cbn [ahead before captured fst snd]. rewrite Ha.
    split; [reflexivity|]. split; [exact Hc | reflexivity].
  - apply andb_true_iff in Hnb. destruct Hnb as [Hn1 Hn2].
    destruct H as (mid & H1 & H2). exists (widen x y mid).
    split; [now apply IH1 | now apply IH2].
  - apply andb_true_iff in Hnb. destruct Hnb as [Hn1 Hn2].
    destruct H as [H|H]; [left; now apply IH1 | right; now apply IH2].
  - induction H as [st | st st1 st2 H1 Hlt _ IH].
    + apply star_stop.
    + apply star_step with (st1 := widen x y st1); [now apply IH1 | | exact IH].
      unfold widen. cbn [ahead fst snd]. rewrite !length_app. lia.
  - destruct H as (st1 & H1 & ->). exists (widen x y st1).
    split; [now apply IH1|].
    destruct (den_consumes ic (fun _ => True) r1 (alphabet_any ic r1) _ _ H1)
      as (m & Am & _ & _).
    unfold widen. cbn [ahead before captured fst snd]. rewrite Am, !length_app.
    replace (length m + length (ahead st1) - length (ahead st1)) with (length m) by lia.
    replace (length m + length (ahead st1) + length y - (length (ahead st1) + length y))
      with (length m) by lia.
    rewrite <- app_assoc, !firstn_app, !Nat.sub_diag, !firstn_all. reflexivity.
Qed.

Lemma re_search_inside (pattern : text) (ic : bool) (a content c : text) :
  pattern_without_boundary pattern = true ->
  re_search pattern ic content = true ->
  re_search pattern ic (a ++ content ++ c) = true.
Proof.
  unfold pattern_without_boundary. destruct (parse pattern) as [r|] eqn:Hp.
  - intros Hnb. rewrite !(re_search_iff pattern ic r _ Hp).
    intros (pre & post & -> & st' & H). exists (a ++ pre), (post ++ c).
    split; [now rewrite <- !app_assoc|].
    apply (den_widen ic a c r Hnb) in H. unfold widen in H.
    cbn [ahead before captured fst snd] in H. rewrite <- rev_app_distr in H.
    eexists. exact H.
  - intros _. unfold re_search. now rewrite Hp.
Qed.

Lemma filter_map_length {X} (f : X -> bool) (l : list X) :
  length (filter (fun b : bool => b) (map f l)) = length (filter f l).
Proof.
  induction l as [|x l IH]; simpl; [reflexivity|]. destruct (f x); simpl; now rewrite IH.
Qed.

Lemma strength_factors_without_boundary :
  forallb pattern_without_boundary strength_factors = true.
Proof. reflexivity. Qed.

Lemma factors_found_inside (a content c : text) :
  factors_found content <= factors_found (a ++ content ++ c).
Proof.
  unfold factors_found. rewrite !filter_map_length. apply filter_length_mono.
  intros pattern Hin. apply re_search_inside.
  pose proof strength_factors_without_boundary as H. rewrite forallb_forall in H.
  now apply H.
Qed.


(** X21. Text added before or after a document never lowers what the
    strategic analysis finds in it: the readiness score and the ROI
    clarity of the longer text are at least those of the document, every
    opportunity of the document is an opportunity of the longer text, and
    every piece of advice given for the longer text, the one about the
    length apart, is given for the document. *)
Theorem more_text_never_lowers_readiness (a content c : text) (context : Context) :
  let longer := a ++ content ++ c in
  fleb (_analyze_proposal_strength content) (_analyze_proposal_strength longer) = true
  /\ (_score_roi_clarity content <= _score_roi_clarity longer)%Z
  /\ incl (_identify_optimization_opportunities content)
          (_identify_optimization_opportunities longer)
  /\ (forall x, x <> advice_plan ->
        In x (_generate_strategic_recommendations longer context) ->
        In x (_generate_strategic_recommendations content context)).
Proof.
  intros longer. unfold longer.
  assert (Hlow : forall w, occurs w (lower content) -> occurs w (lower (a ++ content ++ c))).
  { intros w H. rewrite !lower_app. now apply occurs_inside. }
  split; [|split; [|split]].
  - apply percentage_mono_7. split; [apply factors_found_inside|].
    apply factors_found_le.
  - unfold _score_roi_clarity.
    destruct (re_search "\$[\d,]+.*\$[\d,]+" false content) eqn:Efig.
    + rewrite (re_search_inside "\$[\d,]+.*\$[\d,]+" false a content c eq_refl Efig).
      destruct (re_search "\d+%.*roi|roi.*\d+%" true content) eqn:Epct.
      * rewrite (re_search_inside "\d+%.*roi|roi.*\d+%" true a content c eq_refl Epct).
        lia.
      * destruct (re_search _ true (a ++ content ++ c)); lia.
    + destruct (contains "roi" (lower content)) eqn:Er.
      * apply contains_iff in Er. apply Hlow in Er. apply contains_iff in Er.
        rewrite Er.
        destruct (re_search _ false (a ++ content ++ c));
          [destruct (re_search _ true (a ++ content ++ c))|]; lia.
      * destruct (re_search _ false (a ++ content ++ c));
          [destruct (re_search _ true (a ++ content ++ c))|
           destruct (contains "roi" (lower (a ++ content ++ c)))]; lia.
  - intros x. rewrite !in_opportunities.
    intros [[[Hd Hr] ->]|[[Hs ->]|[[Hg ->]|[ -> | -> ]]]].
    + left. split; [|reflexivity]. split; [now apply occurs_inside | now apply Hlow].
    + right. left. split; [|reflexivity].
      now apply (re_search_inside "\d+\s*(day|week)" false a content c eq_refl).
    + right. right. left. split; [now apply Hlow | reflexivity].
    + right. right. right. now left.
    + right. right. right. now right.
  - intros x Hx. rewrite !in_strategic_recommendations.
    intros [[Hr ->]|[[Hp ->]|[[[Ht Hf] ->]|[[_ ->]|[ -> | -> ]]]]].
    + left. split; [|reflexivity]. intros H. apply Hr. now apply Hlow.
    + right. left. split; [|reflexivity].
      intros (pre & d & post & Hd & ->). apply Hp.
      exists (a ++ pre), d, (post ++ c). split; [exact Hd|]. now rewrite <- !app_assoc.
    + right. right. left. split; [|reflexivity].
      split; intros H; [apply Ht | apply Hf]; now apply Hlow.
    + congruence.
    + right. right. right. right. now left.
    + right. right. right. right. now right.
Qed.

(** An instance: an opportunity that stays when text is added. *)
Lemma more_text_never_lowers_readiness_witness :
  In opportunity_agents (_identify_optimization_opportunities "Our agents")
  /\ In opportunity_agents
        (_identify_optimization_opportunities ("Meet: " ++ "Our agents" ++ " at work")).
Proof.
  assert (H : In opportunity_agents (_identify_optimization_opportunities "Our agents"))
    by (vm_compute; tauto).
  split; [exact H|].
  exact (proj1 (proj2 (proj2 (more_text_never_lowers_readiness
                                "Meet: " "Our agents" " at work" [])))
           opportunity_agents H).
Defined.

(** ** The review and the analysis of one text *)

Lemma alt_keyword_found (pattern : text) (r : regex) (w : text) (more : list text)
    (x content : text) :
  parse pattern = Some (Alt r (any_word_re w more)) ->
  Forall (fun y => y <> []) (w :: more) ->
  In x (w :: more) -> lower x = x -> occurs x (lower content) ->
  re_search pattern true content = true.
Proof.
  intros Hp Hne Hin Hlow Ho. rewrite <- Hlow in Ho. apply occurs_ic_iff in Ho.
  destruct Ho as (pre & m & post & -> & Hm).
  rewrite (re_search_iff pattern true _ _ Hp). exists pre, (m ++ post).
  split; [reflexivity|]. exists (rev m ++ rev pre, post, []). cbn [den]. right.
  apply (den_any_word_re more w Hne). exists x, m. split; [exact Hin|].
  split; [now apply reads_as_lower|]. cbn [ahead before captured fst snd]. split; reflexivity.
Qed.

Lemma section_factors_found (content : text) :
  (forall word, In word sections -> occurs word (lower content)) ->
  5 <= factors_found content.
Proof.
  intros H.
  assert (H1 : re_search "problem|challenge|issue|pain" true content = true).
  { rewrite (keyword_factor_found _ ["problem"; "challenge"; "issue"; "pain"] content)
      by (simpl; tauto).
    apply any_in_iff. exists "problem". split; [now left|]. apply H. simpl. tauto. }
  assert (H2 : re_search "solution|approach|strategy|method" true content = true).
  { rewrite (keyword_factor_found _ ["solution"; "approach"; "strategy"; "method"] content)
      by (simpl; tauto).
    apply any_in_iff. exists "solution". split; [now left|]. apply H. simpl. tauto. }
  assert (H3 : re_search "\d+\s*(days?|weeks?|months?)|timeline|schedule" true content
               = true).
  { eapply (alt_keyword_found _ _ "timeline" ["schedule"] "timeline" content);
      [vm_compute; reflexivity | repeat constructor; discriminate | now left
       | reflexivity |].
    apply H. simpl. tauto. }
  assert (H4 : re_search "\$[\d,]+|investment|cost|price" true content = true).
  { eapply (alt_keyword_found _ _ "investment" ["cost"; "price"] "investment" content);
      [vm_compute; reflexivity | repeat constructor; discriminate | now left
       | reflexivity |].
    apply H. simpl. tauto. }
  assert (H5 : re_search "roi|return|benefit|value" true content = true).
  { apply roi_factor_found. apply H. simpl. tauto. }
  unfold factors_found, strength_factors. cbn [map filter].
  rewrite H1, H2, H3, H4, H5. cbn [length filter].
  destruct (re_search "team|experience|expert|professional" true content);
    destruct (re_search "urgent|critical|immediate|asap" true content);
    cbn [length filter]; lia.
Qed.

Lemma section_factors_missing (content : text) :
  _analyze_proposal_strength content = float_of_Z 0 ->
  count_in sections (lower content) <= 1.
Proof.
  intros H0. pose proof (proj1 (proposal_strength_zero content) H0) as Hz.
  assert (Hnot : forall word,
            In word ["problem"; "solution"; "timeline"; "investment"; "roi"] ->
            contains word (lower content) = false).
  { intros word Hin. destruct (contains word (lower content)) eqn:E; [|reflexivity].
    exfalso. apply contains_iff in E.
    simpl in Hin. destruct Hin as [<-|[<-|[<-|[<-|[<-|[]]]]]].
    - assert (Hf : re_search "problem|challenge|issue|pain" true content = true).
      { rewrite (keyword_factor_found _ ["problem"; "challenge"; "issue"; "pain"] content)
          by (simpl; tauto).
        apply any_in_iff. exists "problem". split; [now left | exact E]. }
      rewrite Hz in Hf; [discriminate | unfold strength_factors; simpl; tauto].
    - assert (Hf : re_search "solution|approach|strategy|method" true content = true).
      { rewrite (keyword_factor_found _ ["solution"; "approach"; "strategy"; "method"]
                   content) by (simpl; tauto).
        apply any_in_iff. exists "solution". split; [now left | exact E]. }
      rewrite Hz in Hf; [discriminate | unfold strength_factors; simpl; tauto].
    - assert (Hf : re_search "\d+\s*(days?|weeks?|months?)|timeline|schedule" true content
                   = true).
      { eapply (alt_keyword_found _ _ "timeline" ["schedule"] "timeline" content);
          [vm_compute; reflexivity | repeat constructor; discriminate | now left
           | reflexivity | exact E]. }
      rewrite Hz in Hf; [discriminate | unfold strength_factors; simpl; tauto].
    - assert (Hf : re_search "\$[\d,]+|investment|cost|price" true content = true).
      { eapply (alt_keyword_found _ _ "investment" ["cost"; "price"] "investment" content);
          [vm_compute; reflexivity | repeat constructor; discriminate | now left
           | reflexivity | exact E]. }
      rewrite Hz in Hf; [discriminate | unfold strength_factors; simpl; tauto].
    - pose proof (roi_factor_found content E) as Hf.
      rewrite Hz in Hf; [discriminate | unfold strength_factors; simpl; tauto]. }
  unfold count_in, sections. cbn [filter].
  rewrite !Hnot by (simpl; tauto).
  destruct (contains "conclusion" (lower content)); simpl; lia.
Qed.

(** X22. The review and the analysis of one text agree.  Both operations
    of the class as written succeed, and: when the review finds the text
    complete, with a completeness of 100.0, the analysis finds at least
    five of its seven strength factors, a readiness of 5/7 of 100 or more,
    and does not advise to add ROI calculations; when the analysis finds
    a readiness of 0.0, the review finds at most one of the six section
    words, a completeness of 1/6 of 100 or less. *)
Theorem complete_documents_are_ready (content : text) (context : option Context)
    (clock clock' : datetime) :
  exists r a,
    quality_assurance_review ClarityCPA content clock = Return (Success r)
    /\ strategic_analysis ClarityCPA content context clock' = Return (Success a)
    /\ (completeness (quality_dimensions r) = float_of_Z 100 ->
        fleb (percentage 5 7) (proposal_readiness_score a) = true
        /\ ~ In advice_roi (strategic_recommendations a))
    /\ (proposal_readiness_score a = float_of_Z 0 ->
        fleb (completeness (quality_dimensions r)) (percentage 1 6) = true).
Proof.
  eexists. eexists. split; [reflexivity|]. split; [reflexivity|].
  cbn [quality_dimensions completeness proposal_readiness_score strategic_recommendations].
  split.
  - intros H. pose proof (proj1 (score_completeness_full content) H) as Hall. split.
    + apply percentage_mono_7. split; [now apply section_factors_found|].
      apply factors_found_le.
    + rewrite in_strategic_recommendations.
      intros [[Hr _]|[[_ E]|[[_ E]|[[_ E]|[E|E]]]]]; try discriminate E.
      apply Hr. apply Hall. simpl. tauto.
  - intros H0. apply percentage_mono. split; [now apply section_factors_missing | lia].
Qed.

(** An instance: a text with the six section words. *)
Lemma complete_documents_are_ready_witness :
  exists r a,
    quality_assurance_review ClarityCPA
      "Problem, solution, timeline, investment, ROI, conclusion" noon
    = Return (Success r)
    /\ strategic_analysis ClarityCPA
         "Problem, solution, timeline, investment, ROI, conclusion" None just_after_noon
       = Return (Success a)
    /\ completeness (quality_dimensions r) = float_of_Z 100
    /\ fleb (percentage 5 7) (proposal_readiness_score a) = true
    /\ ~ In advice_roi (strategic_recommendations a).
Proof.
  destruct (complete_documents_are_ready
              "Problem, solution, timeline, investment, ROI, conclusion" None
              noon just_after_noon) as (r & a & Hr & Ha & Hfull & _).
  exists r, a. split; [exact Hr|]. split; [exact Ha|].
  assert (H : completeness (quality_dimensions r) = float_of_Z 100).
  { apply (f_equal (fun o => match o with
                             | Return (Success x) => completeness (quality_dimensions x)
                             | _ => float_of_Z 0
                             end)) in Hr.
    rewrite <- Hr. vm_compute. reflexivity. }
  split; [exact H | exact (Hfull H)].
Defined.
